(** * PulseView decoder stack (pv/data/decoderstack.cpp)

    A shallow embedding of [pv::data::DecoderStack]: the ordered stack of
    decoders, the row index built by [begin_decode], the chunked feed loop
    of the decode thread, its wait/resume protocol and the annotation
    callback, followed by the properties proved about them.

    Conventions.
    - Sample numbers ([int64_t] in the source) are integers of [Z]; the one
      addition the source performs on them, [i + chunk_sample_count], is
      checked against [INT64_MAX] and reported as [Undefined] when it would
      overflow.  Counters of type [uint64_t] wrap modulo [2^64].
    - Pointers of the decode engine ([const srd_decoder *],
      [const srd_decoder_annotation_row *]) are represented by their
      address, a number of [N]; only their identity is ever used.
    - The build is the default one of CMakeLists.txt
      ([CMAKE_BUILD_TYPE] = RelWithDebInfo, hence [-DNDEBUG]): [assert] is
      compiled out.  (The callback's [assert(decoder)] names no variable
      of that function, so the file is not meant to be compiled
      otherwise.)  The asserts of the source are kept in the model as
      calls to [assert_], whose meaning is fixed by [NDEBUG]; those on
      pointers that the model represents by values that cannot be null
      are left out.
    - [tr] is Qt's translation hook; without a translator it returns its
      argument. *)

From Stdlib Require Import ZArith NArith QArith String List Lia Bool.
From stdpp Require Import base option list gmap strings.

Local Open Scope Z_scope.

(** ** Constants of the class *)

Definition DecodeChunkLength : Z := 10 * 1024 * 1024.
Definition DecodeNotifyPeriod : Z := 1024.

Definition INT64_MAX : Z := 2 ^ 63 - 1.
Definition UINT64_MOD : Z := 2 ^ 64.
Definition UINT32_MOD : Z := 2 ^ 32.

Definition SRD_OK : Z := 0.

Definition NDEBUG : bool := true.

Definition tr (s : string) : string := s.

(** ** Engine-side schema: decoders, annotation rows, emitted data *)

Abbreviation ptr := N (only parsing).

Record srd_decoder_annotation_row := {
  ann_row_addr : ptr;
  ann_classes : list Z
}.

Record srd_decoder := {
  srd_addr : ptr;
  annotation_rows : list srd_decoder_annotation_row
}.

(** [srd_proto_data] as the callback reads it: the emitting decoder
    ([pdata->pdo->di->decoder]), the sample range and the annotation
    payload. *)
Record srd_proto_data := {
  pd_decoder : ptr;
  pd_start_sample : Z;
  pd_end_sample : Z;
  pd_ann_class : Z;
  pd_ann_text : list string
}.

(** ** Rows, annotations and per-row storage *)

(** Modelled from the spec: [decode::Row] (pv/data/decode/row.cpp is not
    part of the sources at hand).  A row is identified by its decoder and
    an optional annotation-row schema; two rows are the same key exactly
    when both components agree. *)
Abbreviation Row := (N * option N)%type (only parsing).

Definition Row_of_decoder (decc : ptr) : Row := (decc, None).
Definition Row_of_ann_row (decc : ptr) (ann_row : ptr) : Row :=
  (decc, Some ann_row).

(** Modelled from the spec: [decode::Annotation], built from the raw
    event: start sample, end sample, class id and its texts. *)
Record Annotation := {
  start_sample : Z;
  end_sample : Z;
  format : Z;
  annotations : list string
}.

Definition Annotation_of (pdata : srd_proto_data) : Annotation :=
  {| start_sample := pd_start_sample pdata;
     end_sample := pd_end_sample pdata;
     format := pd_ann_class pdata;
     annotations := pd_ann_text pdata |}.

(** Modelled from the spec: [decode::RowData], the append-only store of a
    row (pv/data/decode/rowdata.cpp is not part of the sources at hand):
    [push_annotation] appends at the end, the range query adds to the
    destination every stored annotation overlapping [[start, end)], in
    stored order. *)
Record RowData := { annotations_ : list Annotation }.

Definition RowData_empty : RowData := {| annotations_ := [] |}.

Definition push_annotation (a : Annotation) (rd : RowData) : RowData :=
  {| annotations_ := annotations_ rd ++ [a] |}.

Definition overlaps (start_ end_ : Z) (a : Annotation) : bool :=
  (start_sample a <? end_) && (start_ <? end_sample a).

Definition RowData_get_annotation_subset
    (rd : RowData) (dest : list Annotation) (start_ end_ : Z)
  : list Annotation :=
  dest ++ filter (fun a => overlaps start_ end_ a = true) (annotations_ rd).

(** ** Input side: signals, logic data, segments *)

Record LogicSegment := {
  seg_addr : ptr;
  unit_size_of : Z;
  start_time : Q;
  samplerate : Q
}.

Record Logic := { logic_segments : list LogicSegment }.

Record SignalBase := { logic_data : option Logic }.

(** [decode::Decoder] as the stack uses it.  [have_required_channels] and
    [shown] are the answers of the methods of that name; [channels] lists
    the values of the channel map in key order, a null [shared_ptr] being
    [None]. *)
Record Decoder := {
  decoder : srd_decoder;
  shown : bool;
  have_required_channels : bool;
  channels : list (option SignalBase)
}.

(** ** The object *)

Record DecoderStack := {
  stack_ : list Decoder;
  segment_ : option LogicSegment;
  start_time_ : Q;
  samplerate_ : Q;
  sample_count_ : Z;
  frame_complete_ : bool;
  samples_decoded_ : Z;
  annotation_count_ : Z;
  error_message_ : string;
  rows_ : gmap Row RowData;
  class_rows_ : gmap (N * Z) Row;
  interrupt_ : bool;
  decode_thread_ : bool
}.

Definition set_stack (v : list Decoder) (d : DecoderStack) : DecoderStack :=
  {| stack_ := v; segment_ := segment_ d; start_time_ := start_time_ d;
     samplerate_ := samplerate_ d; sample_count_ := sample_count_ d;
     frame_complete_ := frame_complete_ d;
     samples_decoded_ := samples_decoded_ d;
     annotation_count_ := annotation_count_ d;
     error_message_ := error_message_ d; rows_ := rows_ d;
     class_rows_ := class_rows_ d; interrupt_ := interrupt_ d;
     decode_thread_ := decode_thread_ d |}.

Definition set_segment (v : option LogicSegment) (d : DecoderStack)
  : DecoderStack :=
  {| stack_ := stack_ d; segment_ := v; start_time_ := start_time_ d;
     samplerate_ := samplerate_ d; sample_count_ := sample_count_ d;
     frame_complete_ := frame_complete_ d;
     samples_decoded_ := samples_decoded_ d;
     annotation_count_ := annotation_count_ d;
     error_message_ := error_message_ d; rows_ := rows_ d;
     class_rows_ := class_rows_ d; interrupt_ := interrupt_ d;
     decode_thread_ := decode_thread_ d |}.

Definition set_times (t r : Q) (d : DecoderStack) : DecoderStack :=
  {| stack_ := stack_ d; segment_ := segment_ d; start_time_ := t;
     samplerate_ := r; sample_count_ := sample_count_ d;
     frame_complete_ := frame_complete_ d;
     samples_decoded_ := samples_decoded_ d;
     annotation_count_ := annotation_count_ d;
     error_message_ := error_message_ d; rows_ := rows_ d;
     class_rows_ := class_rows_ d; interrupt_ := interrupt_ d;
     decode_thread_ := decode_thread_ d |}.

Definition set_sample_count (v : Z) (d : DecoderStack) : DecoderStack :=
  {| stack_ := stack_ d; segment_ := segment_ d; start_time_ := start_time_ d;
     samplerate_ := samplerate_ d; sample_count_ := v;
     frame_complete_ := frame_complete_ d;
     samples_decoded_ := samples_decoded_ d;
     annotation_count_ := annotation_count_ d;
     error_message_ := error_message_ d; rows_ := rows_ d;
     class_rows_ := class_rows_ d; interrupt_ := interrupt_ d;
     decode_thread_ := decode_thread_ d |}.

Definition set_frame_complete (v : bool) (d : DecoderStack) : DecoderStack :=
  {| stack_ := stack_ d; segment_ := segment_ d; start_time_ := start_time_ d;
     samplerate_ := samplerate_ d; sample_count_ := sample_count_ d;
     frame_complete_ := v;
     samples_decoded_ := samples_decoded_ d;
     annotation_count_ := annotation_count_ d;
     error_message_ := error_message_ d; rows_ := rows_ d;
     class_rows_ := class_rows_ d; interrupt_ := interrupt_ d;
     decode_thread_ := decode_thread_ d |}.

Definition set_samples_decoded (v : Z) (d : DecoderStack) : DecoderStack :=
  {| stack_ := stack_ d; segment_ := segment_ d; start_time_ := start_time_ d;
     samplerate_ := samplerate_ d; sample_count_ := sample_count_ d;
     frame_complete_ := frame_complete_ d;
     samples_decoded_ := v;
     annotation_count_ := annotation_count_ d;
     error_message_ := error_message_ d; rows_ := rows_ d;
     class_rows_ := class_rows_ d; interrupt_ := interrupt_ d;
     decode_thread_ := decode_thread_ d |}.

Definition set_annotation_count (v : Z) (d : DecoderStack) : DecoderStack :=
  {| stack_ := stack_ d; segment_ := segment_ d; start_time_ := start_time_ d;
     samplerate_ := samplerate_ d; sample_count_ := sample_count_ d;
     frame_complete_ := frame_complete_ d;
     samples_decoded_ := samples_decoded_ d;
     annotation_count_ := v;
     error_message_ := error_message_ d; rows_ := rows_ d;
     class_rows_ := class_rows_ d; interrupt_ := interrupt_ d;
     decode_thread_ := decode_thread_ d |}.

Definition set_error_message (v : string) (d : DecoderStack) : DecoderStack :=
  {| stack_ := stack_ d; segment_ := segment_ d; start_time_ := start_time_ d;
     samplerate_ := samplerate_ d; sample_count_ := sample_count_ d;
     frame_complete_ := frame_complete_ d;
     samples_decoded_ := samples_decoded_ d;
     annotation_count_ := annotation_count_ d;
     error_message_ := v; rows_ := rows_ d;
     class_rows_ := class_rows_ d; interrupt_ := interrupt_ d;
     decode_thread_ := decode_thread_ d |}.

Definition set_rows (v : gmap Row RowData) (d : DecoderStack) : DecoderStack :=
  {| stack_ := stack_ d; segment_ := segment_ d; start_time_ := start_time_ d;
     samplerate_ := samplerate_ d; sample_count_ := sample_count_ d;
     frame_complete_ := frame_complete_ d;
     samples_decoded_ := samples_decoded_ d;
     annotation_count_ := annotation_count_ d;
     error_message_ := error_message_ d; rows_ := v;
     class_rows_ := class_rows_ d; interrupt_ := interrupt_ d;
     decode_thread_ := decode_thread_ d |}.

Definition set_class_rows (v : gmap (N * Z) Row) (d : DecoderStack)
  : DecoderStack :=
  {| stack_ := stack_ d; segment_ := segment_ d; start_time_ := start_time_ d;
     samplerate_ := samplerate_ d; sample_count_ := sample_count_ d;
     frame_complete_ := frame_complete_ d;
     samples_decoded_ := samples_decoded_ d;
     annotation_count_ := annotation_count_ d;
     error_message_ := error_message_ d; rows_ := rows_ d;
     class_rows_ := v; interrupt_ := interrupt_ d;
     decode_thread_ := decode_thread_ d |}.

Definition set_interrupt (v : bool) (d : DecoderStack) : DecoderStack :=
  {| stack_ := stack_ d; segment_ := segment_ d; start_time_ := start_time_ d;
     samplerate_ := samplerate_ d; sample_count_ := sample_count_ d;
     frame_complete_ := frame_complete_ d;
     samples_decoded_ := samples_decoded_ d;
     annotation_count_ := annotation_count_ d;
     error_message_ := error_message_ d; rows_ := rows_ d;
     class_rows_ := class_rows_ d; interrupt_ := v;
     decode_thread_ := decode_thread_ d |}.

Definition set_decode_thread (v : bool) (d : DecoderStack) : DecoderStack :=
  {| stack_ := stack_ d; segment_ := segment_ d; start_time_ := start_time_ d;
     samplerate_ := samplerate_ d; sample_count_ := sample_count_ d;
     frame_complete_ := frame_complete_ d;
     samples_decoded_ := samples_decoded_ d;
     annotation_count_ := annotation_count_ d;
     error_message_ := error_message_ d; rows_ := rows_ d;
     class_rows_ := class_rows_ d; interrupt_ := interrupt_ d;
     decode_thread_ := v |}.

(** ** Ways a call can fail to return *)

Inductive Stop :=
| OutOfFuel         (* still looping or blocked when the fuel ran out *)
| AssertionFailed   (* an [assert] that is compiled in failed *)
| Undefined.        (* the C++ semantics gives the step no meaning *)

(** [assert(c)] in a build with or without [NDEBUG]: nothing, or a
    check. *)
Definition assert_in (ndebug : bool) (c : bool) : option Stop :=
  if ndebug then None else if c then None else Some AssertionFailed.

(** [assert(c)] in the build at hand. *)
Definition assert_ (c : bool) : option Stop := assert_in NDEBUG c.

(** ** Stack editing: [push], [remove] *)

Definition push (d : Decoder) (s : list Decoder) : list Decoder := s ++ [d].

(** The iterator of [remove] is a position [0 .. length], the last one
    being [end()].  Advancing [end()] and erasing at [end()] have no
    meaning.  [remove_in] is the function in either build, so that what
    its assertions do when they are compiled in can be stated too. *)
Fixpoint remove_advance (ndebug : bool) (n : nat) (iter len : nat)
  : Stop + nat :=
  match n with
  | O => inr iter
  | S n' =>
      match assert_in ndebug (negb (iter =? len)%nat) with
      | Some s => inl s
      | None =>
          if (iter =? len)%nat then inl Undefined
          else remove_advance ndebug n' (S iter) len
      end
  end.

Definition erase (iter : nat) (s : list Decoder) : Stop + list Decoder :=
  if (iter <? length s)%nat then inr (take iter s ++ drop (S iter) s)
  else inl Undefined.

Definition remove_in (ndebug : bool) (index : Z) (s : list Decoder)
  : Stop + list Decoder :=
  match assert_in ndebug (0 <=? index) with
  | Some e => inl e
  | None =>
      match assert_in ndebug (index <? Z.of_nat (length s)) with
      | Some e => inl e
      | None =>
          match remove_advance ndebug (Z.to_nat index) 0 (length s) with
          | inl e => inl e
          | inr iter => erase iter s
          end
      end
  end.

Definition remove (index : Z) (s : list Decoder) : Stop + list Decoder :=
  remove_in NDEBUG index s.

(** ** Read accessors *)

Definition samples_decoded (d : DecoderStack) : Z := samples_decoded_ d.

Definition error_message (d : DecoderStack) : string := error_message_ d.

Definition isEmpty (s : string) : bool :=
  match s with EmptyString => true | String _ _ => false end.

(** [rows_.find(row)]: the entry, or [None] for [rows_.end()]. *)
Definition rows_find (m : gmap Row RowData) (row : Row)
  : option (Row * RowData) :=
  match m !! row with
  | Some rd => Some (row, rd)
  | None => None
  end.

Definition get_annotation_subset
    (d : DecoderStack) (dest : list Annotation) (row : Row)
    (start_sample end_sample : Z) : list Annotation :=
  match rows_find (rows_ d) row with
  | Some (_, rd) => RowData_get_annotation_subset rd dest start_sample end_sample
  | None => dest
  end.

(** ** [clear] and [begin_decode] *)

Definition clear (d : DecoderStack) : DecoderStack :=
  set_class_rows ∅
    (set_rows ∅
      (set_error_message EmptyString
        (set_samples_decoded 0
          (set_frame_complete false
            (set_annotation_count 0
              (set_sample_count 0 d)))))).

(** What a decode thread has written to the object by the time it is
    joined: the fields [decode_proc], [decode_data] and the annotation
    callback assign. *)
Record ThreadExit := {
  x_sample_count : Z;
  x_samples_decoded : Z;
  x_annotation_count : Z;
  x_error_message : string;
  x_rows : gmap Row RowData
}.

(** [decode_thread_.join()] after the interrupt has been raised. *)
Definition join (x : ThreadExit) (d : DecoderStack) : DecoderStack :=
  set_decode_thread false
    (set_rows (x_rows x)
      (set_error_message (x_error_message x)
        (set_annotation_count (x_annotation_count x)
          (set_samples_decoded (x_samples_decoded x)
            (set_sample_count (x_sample_count x) d))))).

(** The loop over the stack that looks for a decoder without its required
    channels; [true] when one is found (the loop returns early). *)
Fixpoint missing_required_channels (stack : list Decoder) : bool :=
  match stack with
  | [] => false
  | dec :: rest =>
      if negb (have_required_channels dec) then true
      else missing_required_channels rest
  end.

Definition add_class_rows (decc : ptr) (row : Row) (classes : list Z)
    (cr : gmap (N * Z) Row) : gmap (N * Z) Row :=
  fold_left (fun m cls => <[(decc, cls) := row]> m) classes cr.

Definition add_ann_row (decc : ptr)
    (st : gmap Row RowData * gmap (N * Z) Row)
    (ann_row : srd_decoder_annotation_row)
  : gmap Row RowData * gmap (N * Z) Row :=
  let row := Row_of_ann_row decc (ann_row_addr ann_row) in
  (<[row := RowData_empty]> (fst st),
   add_class_rows decc row (ann_classes ann_row) (snd st)).

Definition add_decoder_rows
    (st : gmap Row RowData * gmap (N * Z) Row) (dec : Decoder)
  : gmap Row RowData * gmap (N * Z) Row :=
  let decc := decoder dec in
  let st :=
    match annotation_rows decc with
    | [] => (<[Row_of_decoder (srd_addr decc) := RowData_empty]> (fst st),
             snd st)
    | _ :: _ => st
    end in
  fold_left (add_ann_row (srd_addr decc)) (annotation_rows decc) st.

Definition add_classes (d : DecoderStack) : DecoderStack :=
  let st := fold_left add_decoder_rows (stack_ d) (rows_ d, class_rows_ d) in
  set_class_rows (snd st) (set_rows (fst st) d).

(** The logic data behind the first channel of a decoder, if any. *)
Definition first_channel_data (dec : Decoder) : option Logic :=
  match channels dec with
  | [] => None
  | None :: _ => None
  | Some signalbase :: _ => logic_data signalbase
  end.

Fixpoint find_logic_data (stack : list Decoder) : option Logic :=
  match stack with
  | [] => None
  | dec :: rest =>
      match first_channel_data dec with
      | Some data => Some data
      | None => find_logic_data rest
      end
  end.

(** [begin_decode]; the result has [decode_thread_] set exactly when a
    decode thread has been started. *)
Definition begin_decode (x : ThreadExit) (d : DecoderStack) : DecoderStack :=
  let d := if decode_thread_ d then join x (set_interrupt true d) else d in
  let d := clear d in
  if missing_required_channels (stack_ d) then
    set_error_message
      (tr "One or more required channels have not been specified"%string) d
  else
    let d := add_classes d in
    match find_logic_data (stack_ d) with
    | None => d
    | Some data =>
        match logic_segments data with
        | [] => d
        | seg :: _ =>
            let d := set_segment (Some seg) d in
            let rate := samplerate seg in
            let d := set_times (start_time seg)
                       (if Qeq_bool rate 0 then 1%Q else rate) d in
            let d := set_interrupt false d in
            set_decode_thread true d
        end
    end.

(** ** The world of a decode thread *)

(** [Session::capture_state] (pv/session.hpp is not part of the sources
    at hand); the code only tells [Stopped] from the other states. *)
Inductive capture_state := Stopped | AwaitingTrigger | Running.

Definition is_Stopped (s : capture_state) : bool :=
  match s with Stopped => true | _ => false end.

(** What the rest of the program does while the decode thread runs. *)
Inductive ExtEvent :=
| ExtAppend (n : N)                 (* the capture appends [n] samples *)
| ExtDataReceived                   (* slot [on_data_received] *)
| ExtFrameEnded                     (* slot [on_frame_ended] *)
| ExtInterrupt                      (* [interrupt_ = true] before a join *)
| ExtCaptureState (s : capture_state).


(** Observable actions of the decode thread, newest first in the log. *)
Inductive Event :=
| EvSessionNew
| EvInstNew (decc di : N)
| EvInstStack (from to : N)
| EvMetadataSet (rate : Q)
| EvCallbackAdd
| EvSessionStart
| EvSend (start_ end_ len us ret : Z)
| EvSamplesDecoded (old new : Z)
| EvPush (row : Row) (a : Annotation)
| EvDebug (decc : N) (fmt : Z)
| EvNewAnnotations
| EvSessionDestroy.

(** The collaborators the decode thread talks to: the decode engine
    (libsigrokdecode), the sample storage of the segment and the schedule
    of the other threads, indexed by the observations made so far. *)
Class Collaborators := {
  srd_session : Type;
  create_decoder_inst : Decoder -> option N;
  srd_session_send :
    srd_session -> Z -> Z -> list Byte.byte -> Z -> Z ->
    srd_session * list srd_proto_data * Z;
  get_samples : Z -> Z -> list Byte.byte;
  sched : nat -> list ExtEvent
}.

Section Thread.
Context {C : Collaborators}.

Record World := {
  ds : DecoderStack;
  session_capture_state : capture_state;
  segment_sample_count : N;
  srd : srd_session;
  log : list Event;
  clock : nat
}.

Definition upd_ds (f : DecoderStack -> DecoderStack) (w : World) : World :=
  {| ds := f (ds w); session_capture_state := session_capture_state w;
     segment_sample_count := segment_sample_count w; srd := srd w;
     log := log w; clock := clock w |}.

Definition set_capture_state (s : capture_state) (w : World) : World :=
  {| ds := ds w; session_capture_state := s;
     segment_sample_count := segment_sample_count w; srd := srd w;
     log := log w; clock := clock w |}.

Definition set_segment_sample_count (n : N) (w : World) : World :=
  {| ds := ds w; session_capture_state := session_capture_state w;
     segment_sample_count := n; srd := srd w;
     log := log w; clock := clock w |}.

Definition set_srd (s : srd_session) (w : World) : World :=
  {| ds := ds w; session_capture_state := session_capture_state w;
     segment_sample_count := segment_sample_count w; srd := s;
     log := log w; clock := clock w |}.

Definition add_log (e : Event) (w : World) : World :=
  {| ds := ds w; session_capture_state := session_capture_state w;
     segment_sample_count := segment_sample_count w; srd := srd w;
     log := e :: log w; clock := clock w |}.

Definition tick (w : World) : World :=
  {| ds := ds w; session_capture_state := session_capture_state w;
     segment_sample_count := segment_sample_count w; srd := srd w;
     log := log w; clock := S (clock w) |}.

(** *** The slots and the other threads *)

Definition on_data_received (w : World) : World :=
  match segment_ (ds w) with
  | Some _ =>
      upd_ds (set_sample_count (Z.of_N (segment_sample_count w))) w
  | None => w
  end.

Definition on_frame_ended (w : World) : World :=
  match segment_ (ds w) with
  | Some _ => upd_ds (set_frame_complete true) w
  | None => w
  end.

Definition ext_step (w : World) (e : ExtEvent) : World :=
  match e with
  | ExtAppend n =>
      set_segment_sample_count (segment_sample_count w + n)%N w
  | ExtDataReceived => on_data_received w
  | ExtFrameEnded => on_frame_ended w
  | ExtInterrupt => upd_ds (set_interrupt true) w
  | ExtCaptureState s => set_capture_state s w
  end.

(** One observation of the shared state by the decode thread: whatever the
    other threads did since the previous one has taken effect. *)
Definition sync (w : World) : World :=
  tick (fold_left ext_step (sched (clock w)) w).

(** *** Results and sequencing *)

Inductive Res (A : Type) :=
| Ok (a : A) (w : World)
| Halt (s : Stop) (w : World).

Arguments Ok {A} a w.
Arguments Halt {A} s w.

Definition final {A} (r : Res A) : World :=
  match r with Ok _ w => w | Halt _ w => w end.

Definition M (A : Type) : Type := World -> Res A.

Definition ret {A} (a : A) : M A := fun w => Ok a w.

Definition bind {A B} (m : M A) (k : A -> M B) : M B :=
  fun w => match m w with
           | Ok a w' => k a w'
           | Halt s w' => Halt s w'
           end.

Definition halt {A} (s : Stop) : M A := fun w => Halt s w.

Definition gets {A} (f : DecoderStack -> A) : M A := fun w => Ok (f (ds w)) w.

Definition modify (f : DecoderStack -> DecoderStack) : M unit :=
  fun w => Ok tt (upd_ds f w).

Definition emit (e : Event) : M unit := fun w => Ok tt (add_log e w).

Definition observe : M unit := fun w => Ok tt (sync w).

Definition assertM (c : bool) : M unit :=
  match assert_ c with
  | Some s => halt s
  | None => ret tt
  end.

End Thread.

Arguments Ok {C A} a w.
Arguments Halt {C A} s w.

Declare Scope thread_scope.
Delimit Scope thread_scope with thread.
Notation "'let*' x ':=' m 'in' k" := (bind m (fun x => k))
  (at level 10, x name, m at level 100, k at level 200) : thread_scope.
Notation "m >> k" := (bind m (fun _ => k))
  (at level 100, k at level 200, right associativity) : thread_scope.

Section DecodeThread.
Context {C : Collaborators}.
Local Open Scope thread_scope.

(** *** The annotation callback *)

Definition inc_annotation_count : M Z :=
  let* n := gets annotation_count_ in
  modify (set_annotation_count ((n + 1) mod UINT64_MOD)) >>
  ret n.

Definition new_annotations : M unit := emit EvNewAnnotations.

(** The asserts of the callback on non-null pointers hold by typing and
    are left out; the two on the row iterator are kept. *)
Definition annotation_callback (pdata : srd_proto_data) : M unit :=
  let a := Annotation_of pdata in
  let decc := pd_decoder pdata in
  let* cr := gets class_rows_ in
  let* rows := gets rows_ in
  let row_iter :=
    match cr !! (decc, format a) with
    | Some row => rows_find rows row
    | None => rows_find rows (Row_of_decoder decc)
    end in
  assertM (bool_decide (is_Some row_iter)) >>
  match row_iter with
  | None =>
      emit (EvDebug decc (format a)) >>
      assertM false >>
      ret tt
  | Some (row, rd) =>
      modify (set_rows (<[row := push_annotation a rd]> rows)) >>
      emit (EvPush row a) >>
      let* n := inc_annotation_count in
      if n mod DecodeNotifyPeriod =? 0 then new_annotations else ret tt
  end.

Fixpoint run_callbacks (pds : list srd_proto_data) : M unit :=
  match pds with
  | [] => ret tt
  | pdata :: rest => annotation_callback pdata >> run_callbacks rest
  end.

(** [srd_session_send]: the engine consumes the chunk, calls back for
    every annotation it emits, in order, and returns its status. *)
Definition session_send (i chunk_end : Z) (chunk : list Byte.byte)
    (len us : Z) : M Z :=
  fun w =>
    let '(s', pds, r) := srd_session_send (srd w) i chunk_end chunk len us in
    (run_callbacks pds >> emit (EvSend i chunk_end len us r) >> ret r)
      (set_srd s' w).

(** *** [wait_for_data] *)

Definition must_wait (w : World) : bool :=
  negb (interrupt_ (ds w)) && negb (frame_complete_ (ds w)) &&
  (sample_count_ (ds w) <=? samples_decoded_ (ds w)) &&
  negb (is_Stopped (session_capture_state w)).

Definition more_work (w : World) : bool :=
  negb (interrupt_ (ds w)) &&
  ((samples_decoded_ (ds w) <? sample_count_ (ds w)) ||
   negb (frame_complete_ (ds w))) &&
  negb ((sample_count_ (ds w) <=? samples_decoded_ (ds w)) &&
        is_Stopped (session_capture_state w)).

(** [boost::make_optional(cond, v)] *)
Definition make_optional {A} (cond : bool) (v : A) : option A :=
  if cond then Some v else None.

(** Each unit of fuel is one evaluation of the loop condition, the first
    one on entry and one more after every wake-up; the input lock is held
    from the evaluation that leaves the loop to the return.  A parked
    thread wakes up when it is notified, or spuriously: the observations
    after the first one are the wake-ups, and only an event that
    [notifies] makes sure that there is one. *)
Fixpoint wait_for_data (fuel : nat) : M (option Z) :=
  fun w =>
    match fuel with
    | O => Halt OutOfFuel w
    | S fuel' =>
        let w := sync w in
        if must_wait w then wait_for_data fuel' w
        else Ok (make_optional (more_work w) (sample_count_ (ds w))) w
    end.

(** The world as the thread sees it at its [n]-th observation from [w]. *)
Fixpoint observed (n : nat) (w : World) : World :=
  match n with
  | O => w
  | S n' => observed n' (sync w)
  end.

(** *** [decode_data] *)

Definition chunk_sample_count_of (unit_size : Z) : Z :=
  (DecodeChunkLength / unit_size) mod UINT32_MOD.

Fixpoint decode_data_loop (fuel : nat)
    (i sample_count unit_size chunk_sample_count : Z) : M unit :=
  match fuel with
  | O => halt OutOfFuel
  | S fuel' =>
      observe >>
      let* interrupt := gets interrupt_ in
      if negb (negb interrupt && (i <? sample_count)) then ret tt
      else if INT64_MAX <? i + chunk_sample_count then halt Undefined
      else
        let chunk_end := Z.min (i + chunk_sample_count) sample_count in
        let chunk := get_samples i chunk_end in
        let* r := session_send i chunk_end chunk
                    ((chunk_end - i) * unit_size) unit_size in
        if negb (r =? SRD_OK) then
          modify (set_error_message (tr "Decoder reported an error"%string))
        else
          let* old := gets samples_decoded_ in
          modify (set_samples_decoded chunk_end) >>
          emit (EvSamplesDecoded old chunk_end) >>
          decode_data_loop fuel' (i + chunk_sample_count)
            sample_count unit_size chunk_sample_count
  end.

Definition decode_data (fuel : nat)
    (abs_start_samplenum sample_count unit_size : Z) : M unit :=
  let* seg := gets segment_ in
  match seg with
  | None => halt Undefined
  | Some seg =>
      if unit_size_of seg =? 0 then halt Undefined
      else
        decode_data_loop fuel abs_start_samplenum sample_count unit_size
          (chunk_sample_count_of (unit_size_of seg))
  end.

(** *** [decode_proc] *)

(** The loop that instantiates the decoders of the stack; [false] when an
    instantiation failed and the thread is to return. *)
Fixpoint create_decoders (stack : list Decoder) (prev_di : option N)
  : M bool :=
  match stack with
  | [] => ret true
  | dec :: rest =>
      match create_decoder_inst dec with
      | None =>
          modify (set_error_message
                    (tr "Failed to create decoder instance"%string)) >>
          emit EvSessionDestroy >>
          ret false
      | Some di =>
          emit (EvInstNew (srd_addr (decoder dec)) di) >>
          match prev_di with
          | Some prev => emit (EvInstStack prev di)
          | None => ret tt
          end >>
          create_decoders rest (Some di)
      end
  end.

(** The [do ... while] loop: one round is a call of [decode_data] and,
    if no error is recorded, a call of [wait_for_data]. *)
Fixpoint decode_rounds (fuel : nat)
    (abs_start_samplenum sample_count unit_size : Z) : M unit :=
  match fuel with
  | O => halt OutOfFuel
  | S fuel' =>
      decode_data fuel' abs_start_samplenum sample_count unit_size >>
      let* msg := gets error_message_ in
      if isEmpty msg then
        let* next := wait_for_data fuel' in
        match next with
        | Some sample_count' =>
            decode_rounds fuel' sample_count sample_count' unit_size
        | None => ret tt
        end
      else ret tt
  end.

Definition decode_proc (fuel : nat) : M unit :=
  let* seg := gets segment_ in
  assertM (bool_decide (is_Some seg)) >>
  emit EvSessionNew >>
  match seg with
  | None => halt Undefined
  | Some seg =>
      let unit_size := unit_size_of seg in
      let* stack := gets stack_ in
      let* created := create_decoders stack None in
      if created then
        observe >>
        (fun w =>
           modify (set_sample_count (Z.of_N (segment_sample_count w))) w) >>
        let* sample_count := gets sample_count_ in
        let* rate := gets samplerate_ in
        emit (EvMetadataSet rate) >>
        emit EvCallbackAdd >>
        emit EvSessionStart >>
        decode_rounds fuel 0 sample_count unit_size >>
        new_annotations >>
        emit EvSessionDestroy
      else ret tt
  end.

End DecodeThread.

(** ** Sample data used by the examples below *)

Definition row_bits : srd_decoder_annotation_row :=
  {| ann_row_addr := 10%N; ann_classes := [0; 1] |}.

Definition srd_uart : srd_decoder :=
  {| srd_addr := 1%N; annotation_rows := [row_bits] |}.

Definition srd_plain : srd_decoder :=
  {| srd_addr := 2%N; annotation_rows := [] |}.

Definition seg_one_byte : LogicSegment :=
  {| seg_addr := 7%N; unit_size_of := 1; start_time := 0%Q;
     samplerate := 0%Q |}.

Definition sig_d0 : SignalBase :=
  {| logic_data := Some {| logic_segments := [seg_one_byte] |} |}.

Definition dec_uart : Decoder :=
  {| decoder := srd_uart; shown := true; have_required_channels := true;
     channels := [Some sig_d0] |}.

Definition dec_plain : Decoder :=
  {| decoder := srd_plain; shown := true; have_required_channels := true;
     channels := [] |}.

Definition dec_unbound : Decoder :=
  {| decoder := srd_plain; shown := true; have_required_channels := false;
     channels := [] |}.

(** An object as a first run may have left it. *)
Definition used_stack (stack : list Decoder) : DecoderStack :=
  {| stack_ := stack; segment_ := None; start_time_ := 0%Q;
     samplerate_ := 0%Q; sample_count_ := 500; frame_complete_ := true;
     samples_decoded_ := 500; annotation_count_ := 3;
     error_message_ := "Decoder reported an error"%string;
     rows_ := {[ Row_of_decoder 2%N :=
                   {| annotations_ :=
                        [ {| start_sample := 0; end_sample := 4;
                             format := 0; annotations := [] |} ] |} ]};
     class_rows_ := {[ (1%N, 0) := Row_of_ann_row 1%N 10%N ]};
     interrupt_ := false; decode_thread_ := true |}.

Definition exit_idle : ThreadExit :=
  {| x_sample_count := 500; x_samples_decoded := 500;
     x_annotation_count := 3; x_error_message := EmptyString;
     x_rows := ∅ |}.

Definition ann_of_chunk (decc : N) (cls i e : Z) : srd_proto_data :=
  {| pd_decoder := decc; pd_start_sample := i; pd_end_sample := e;
     pd_ann_class := cls; pd_ann_text := [] |}.

(** An engine that counts its calls, emits one annotation of class 1 of
    the UART decoder and one of an undeclared decoder for every chunk,
    and rejects its second chunk; the capture appends five samples
    before the fourth observation and the frame ends before the seventh. *)
Definition env_second_chunk_fails : Collaborators :=
  {| srd_session := nat;
     create_decoder_inst := fun d => Some (srd_addr (decoder d) + 100)%N;
     srd_session_send := fun s i e _ _ _ =>
       (S s, [ann_of_chunk 1 1 i e; ann_of_chunk 3 1 i e],
        if (s =? 1)%nat then -1 else 0);
     get_samples := fun _ _ => [];
     sched := fun t =>
       match t with
       | 3%nat => [ExtAppend 5; ExtDataReceived]
       | 6%nat => [ExtFrameEnded]
       | _ => []
       end |}.

(** An engine that accepts every chunk and emits nothing; the capture
    stops before the third observation. *)
Definition env_quiet : Collaborators :=
  {| srd_session := unit;
     create_decoder_inst := fun d => Some (srd_addr (decoder d) + 100)%N;
     srd_session_send := fun s _ _ _ _ _ => (s, [], SRD_OK);
     get_samples := fun _ _ => [];
     sched := fun t =>
       match t with
       | 2%nat => [ExtFrameEnded; ExtCaptureState Stopped]
       | _ => []
       end |}.

Definition start_world {C : Collaborators} (d : DecoderStack)
    (s : capture_state) (n : N) (e : srd_session) : World :=
  {| ds := d; session_capture_state := s; segment_sample_count := n;
     srd := e; log := []; clock := 0 |}.

(** ** Vocabulary for the properties *)

(** The row an annotation of class [cls] emitted by [decc] resolves to,
    in the words of the specification: the entry of the class map, or
    failing that the row of the decoder alone. *)
Definition classify (cr : gmap (N * Z) Row) (decc : N) (cls : Z) : Row :=
  match cr !! (decc, cls) with
  | Some row => row
  | None => Row_of_decoder decc
  end.

(** The annotations stored for a row, none when the row is unknown. *)
Definition store (m : gmap Row RowData) (row : Row) : list Annotation :=
  match m !! row with
  | Some rd => annotations_ rd
  | None => []
  end.

Definition is_send (e : Event) : bool :=
  match e with EvSend _ _ _ _ _ => true | _ => false end.

Definition is_failed_send (e : Event) : bool :=
  match e with EvSend _ _ _ _ r => negb (r =? SRD_OK) | _ => false end.

Definition is_decoded (e : Event) : bool :=
  match e with EvSamplesDecoded _ _ => true | _ => false end.

Definition is_push (e : Event) : bool :=
  match e with EvPush _ _ => true | _ => false end.

(** Events the annotation callback can log. *)
Definition is_callback_event (e : Event) : bool :=
  match e with
  | EvPush _ _ | EvDebug _ _ | EvNewAnnotations => true
  | _ => false
  end.

(** The annotations pushed to [row] according to a log, oldest first. *)
Fixpoint pushed (row : Row) (l : list Event) : list Annotation :=
  match l with
  | [] => []
  | EvPush r a :: l' =>
      if decide (r = row) then pushed row l' ++ [a] else pushed row l'
  | _ :: l' => pushed row l'
  end.

(** The end of the most recent chunk the engine accepted, [dflt] if the
    log has none. *)
Fixpoint last_accepted_end (l : list Event) (dflt : Z) : Z :=
  match l with
  | [] => dflt
  | EvSend _ e _ _ r :: l' =>
      if r =? SRD_OK then e else last_accepted_end l' dflt
  | _ :: l' => last_accepted_end l' dflt
  end.

(** The feed calls of a log, oldest first. *)
Fixpoint sends (l : list Event) : list Event :=
  match l with
  | [] => []
  | e :: l' => if is_send e then sends l' ++ [e] else sends l'
  end.

(** The feed calls of a run of [decode_data] over [[i, sample_count)]
    in chunks of [c] samples that the engine accepts throughout. *)
Fixpoint expected_sends (n : nat) (i sample_count us c : Z) : list Event :=
  match n with
  | O => []
  | S n' =>
      let chunk_end := Z.min (i + c) sample_count in
      EvSend i chunk_end ((chunk_end - i) * us) us SRD_OK ::
      expected_sends n' (i + c) sample_count us c
  end.

(** The number of chunks of [c] samples that cover [n] samples. *)
Definition chunks_needed (n c : Z) : nat := Z.to_nat ((n + c - 1) / c).

Section WorldVocabulary.
Context {C : Collaborators}.

Definition add_logs (l : list Event) (w : World) : World :=
  {| ds := ds w; session_capture_state := session_capture_state w;
     segment_sample_count := segment_sample_count w; srd := srd w;
     log := l ++ log w; clock := clock w |}.

(** The state in which [decode_proc] enters its loop, from the state
    [w] in which the decoders have been instantiated. *)
Definition loop_entry (w : World) : World :=
  let w1 := sync w in
  let w2 := upd_ds (set_sample_count (Z.of_N (segment_sample_count w1))) w1 in
  add_log EvSessionStart
    (add_log EvCallbackAdd
      (add_log (EvMetadataSet (samplerate_ (ds w2))) w2)).

(** A run as [begin_decode] starts it: nothing logged, no error, nothing
    decoded, no annotation counted. *)
Definition fresh_run (w : World) : Prop :=
  log w = [] /\ error_message_ (ds w) = EmptyString /\
  samples_decoded_ (ds w) = 0 /\ annotation_count_ (ds w) = 0.

(** The state after the callback has stored [a] in the store [rd] of
    [row]: store, log, counter and, every [DecodeNotifyPeriod]
    annotations, the notification. *)
Definition after_push (row : Row) (a : Annotation) (rd : RowData)
    (w : World) : World :=
  let n := annotation_count_ (ds w) in
  let w1 :=
    upd_ds (set_annotation_count ((n + 1) mod UINT64_MOD))
      (add_log (EvPush row a)
        (upd_ds (set_rows (<[row := push_annotation a rd]> (rows_ (ds w))))
           w)) in
  if n mod DecodeNotifyPeriod =? 0 then add_log EvNewAnnotations w1 else w1.

End WorldVocabulary.

Section SendVocabulary.
Context {C : Collaborators}.

(** The state after the callbacks for [pds] have run. *)
Definition callbacks_world (pds : list srd_proto_data) (w : World) : World :=
  final (run_callbacks pds w).

(** Status and resulting state of the feed call for [[i, chunk_end)]. *)
Definition send_status (i chunk_end unit_size : Z) (w : World) : Z :=
  snd (srd_session_send (srd w) i chunk_end (get_samples i chunk_end)
         ((chunk_end - i) * unit_size) unit_size).

Definition sent_world (i chunk_end unit_size : Z) (w : World) : World :=
  let res := srd_session_send (srd w) i chunk_end (get_samples i chunk_end)
               ((chunk_end - i) * unit_size) unit_size in
  add_log (EvSend i chunk_end ((chunk_end - i) * unit_size) unit_size
             (snd res))
    (callbacks_world (snd (fst res)) (set_srd (fst (fst res)) w)).

(** The state after a chunk ending at [chunk_end] has been accepted. *)
Definition advanced_world (chunk_end : Z) (w : World) : World :=
  add_log (EvSamplesDecoded (samples_decoded_ (ds w)) chunk_end)
    (upd_ds (set_samples_decoded chunk_end) w).

End SendVocabulary.

(** Events of the instantiation loop of [decode_proc]. *)
Definition is_inst_event (e : Event) : bool :=
  match e with EvInstNew _ _ | EvInstStack _ _ => true | _ => false end.

(** [decoded_chain l init last]: read oldest first, the assignments to
    [samples_decoded_] recorded in [l] start from the value [init], each
    replaces the value left by the one before it with one at least as
    large, and the last leaves [last]. *)
Fixpoint decoded_chain (l : list Event) (init last : Z) : Prop :=
  match l with
  | [] => last = init
  | EvSamplesDecoded old new :: l' =>
      last = new /\ old <= new /\ decoded_chain l' init old
  | _ :: l' => decoded_chain l' init last
  end.

Section FeedVocabulary.
Context {C : Collaborators}.

(** What a stretch of the decode thread that took [w] to the result [r]
    and logged [new] did about feeding: the stores grew by exactly the
    annotations logged as pushed, [samples_decoded_] is the end of the
    last accepted chunk, and either no feed call failed and the error
    message is as before, or the stretch returned, its last logged action
    is a failed feed call, the only one, and a message is recorded. *)
Definition feed_summary (w : World) (r : Res unit) (new : list Event)
  : Prop :=
  log (final r) = new ++ log w /\
  (forall row,
     store (rows_ (ds (final r))) row =
     store (rows_ (ds w)) row ++ pushed row new) /\
  samples_decoded_ (ds (final r)) =
    last_accepted_end new (samples_decoded_ (ds w)) /\
  ((Forall (fun e => is_failed_send e = false) new /\
    error_message_ (ds (final r)) = error_message_ (ds w)) \/
   (exists w' i ce len us ret before,
      r = Ok tt w' /\
      new = EvSend i ce len us ret :: before /\
      ret <> SRD_OK /\
      Forall (fun e => is_failed_send e = false) before /\
      error_message_ (ds w') <> EmptyString)).

End FeedVocabulary.

Section RunAssumptions.
Context {C : Collaborators}.

(** The engine accepts every chunk. *)
Definition engine_accepts : Prop :=
  forall s i e chunk len us,
    snd (srd_session_send s i e chunk len us) = SRD_OK.

(** Nobody asks the thread to stop. *)
Definition never_interrupted : Prop :=
  forall t, Forall (fun e => e <> ExtInterrupt) (sched t).

(** The capture appends no sample. *)
Definition segment_stays_empty : Prop :=
  forall t, Forall (fun e => forall n, e = ExtAppend n -> n = 0%N) (sched t).

End RunAssumptions.

(** Every entry of the class map names a row of the row index. *)
Definition resolves (st : gmap Row RowData * gmap (N * Z) Row) : Prop :=
  forall key row, snd st !! key = Some row -> is_Some (fst st !! row).

(** Every store of a row index is empty. *)
Definition all_empty (m : gmap Row RowData) : Prop :=
  forall row rd, m !! row = Some rd -> rd = RowData_empty.

(** The second chunk's worth of samples arrives while the thread waits:
    it is woken at its second observation and told the new count. *)
Definition env_data_arrives : Collaborators :=
  {| srd_session := unit;
     create_decoder_inst := fun d => Some (srd_addr (decoder d) + 100)%N;
     srd_session_send := fun s _ _ _ _ _ => (s, [], SRD_OK);
     get_samples := fun _ _ => [];
     sched := fun t =>
       match t with
       | 1%nat => [ExtAppend 250; ExtDataReceived]
       | _ => []
       end |}.

Definition waiting_stack : DecoderStack :=
  {| stack_ := [dec_uart]; segment_ := Some seg_one_byte;
     start_time_ := 0%Q; samplerate_ := 1%Q; sample_count_ := 250;
     frame_complete_ := false; samples_decoded_ := 250;
     annotation_count_ := 0; error_message_ := EmptyString;
     rows_ := ∅; class_rows_ := ∅; interrupt_ := false;
     decode_thread_ := true |}.

Definition run_second_chunk_fails : World :=
  start_world (C := env_second_chunk_fails)
    (begin_decode exit_idle (used_stack [dec_uart; dec_plain]))
    Running 30000000 0%nat.

Definition run_quiet_30M : World :=
  start_world (C := env_quiet)
    (begin_decode exit_idle (used_stack [dec_uart; dec_plain]))
    Running 30000000 tt.

Definition is_notification (e : Event) : bool :=
  match e with EvNewAnnotations => true | _ => false end.

(** How many events of a log satisfy [f]. *)
Fixpoint count_events (f : Event -> bool) (l : list Event) : Z :=
  match l with
  | [] => 0
  | e :: l' => (if f e then 1 else 0) + count_events f l'
  end.

(** The number of multiples of [DecodeNotifyPeriod] among the [p]
    counter values [n], [n + 1], ..., [n + p - 1]. *)
Definition due (n p : Z) : Z :=
  (n + p + (DecodeNotifyPeriod - 1)) / DecodeNotifyPeriod -
  (n + (DecodeNotifyPeriod - 1)) / DecodeNotifyPeriod.

Section NotifyVocabulary.
Context {C : Collaborators}.

(** From [w] to [w'] some [p] annotations were stored, the annotation
    counter advanced by [p] (modulo [2^64]), and the notifications logged
    are the [due] ones plus [extra]. *)
Definition notified (w w' : World) (extra : Z) : Prop :=
  exists p : Z,
    0 <= p /\
    count_events is_push (log w') = count_events is_push (log w) + p /\
    annotation_count_ (ds w') mod UINT64_MOD =
      (annotation_count_ (ds w) + p) mod UINT64_MOD /\
    count_events is_notification (log w') =
      count_events is_notification (log w) +
      due (annotation_count_ (ds w)) p + extra.

End NotifyVocabulary.

(** ** More of the class: visible rows *)

(** The rows one decoder contributes: its own row when it declares no
    annotation rows, then one row per declared annotation row, in the
    order of the schema. *)
Definition rows_of_decoder (decc : srd_decoder) : list Row :=
  match annotation_rows decc with
  | [] => [Row_of_decoder (srd_addr decc)]
  | _ :: _ => []
  end ++
  map (fun ann_row => Row_of_ann_row (srd_addr decc) (ann_row_addr ann_row))
      (annotation_rows decc).

(** The loop of [get_visible_rows] over the stack. *)
Fixpoint visible_rows_of (stack : list Decoder) : list Row :=
  match stack with
  | [] => []
  | dec :: rest =>
      (if negb (shown dec) then [] else rows_of_decoder (decoder dec))
      ++ visible_rows_of rest
  end.

Definition get_visible_rows (d : DecoderStack) : list Row :=
  visible_rows_of (stack_ d).

(** The first segment of the logic data [begin_decode] settles on. *)
Definition first_segment (stack : list Decoder) : option LogicSegment :=
  match find_logic_data stack with
  | Some data =>
      match logic_segments data with
      | [] => None
      | seg :: _ => Some seg
      end
  | None => None
  end.

(** ** More of the class: the steps of the decode thread *)

Section StepVocabulary.
Context {C : Collaborators}.

(** The primitive steps the decode thread is made of: an observation of
    the shared state, an action on the engine or the frontend, a new
    state of the engine session, an assignment to [error_message_],
    [sample_count_] or [samples_decoded_], and the callback storing an
    annotation in a row of the index. *)
Inductive thread_step : World -> World -> Prop :=
| step_observe (w : World) : thread_step w (sync w)
| step_action (e : Event) (w : World) : thread_step w (add_log e w)
| step_engine (s : srd_session) (w : World) : thread_step w (set_srd s w)
| step_error (msg : string) (w : World) :
    thread_step w (upd_ds (set_error_message msg) w)
| step_sample_count (w : World) :
    thread_step w
      (upd_ds (set_sample_count (Z.of_N (segment_sample_count w))) w)
| step_decoded (v : Z) (w : World) :
    thread_step w (upd_ds (set_samples_decoded v) w)
| step_store (row : Row) (a : Annotation) (rd : RowData) (w : World) :
    rows_ (ds w) !! row = Some rd ->
    thread_step w
      (upd_ds (set_annotation_count
                 ((annotation_count_ (ds w) + 1) mod UINT64_MOD))
         (add_log (EvPush row a)
            (upd_ds (set_rows (<[row := push_annotation a rd]>
                                 (rows_ (ds w)))) w))).

(** The capture is over: no sample is appended any more, the capture
    state does not change and nobody interrupts; the last signals of
    the session may still arrive. *)
Definition capture_over : Prop :=
  forall t,
    Forall (fun e => e = ExtDataReceived \/ e = ExtFrameEnded) (sched t).

End StepVocabulary.

(** Every feed call of a log (newest first) starts at the end of the
    last chunk accepted before it, [init] if there is none. *)
Fixpoint contiguous (l : list Event) (init : Z) : Prop :=
  match l with
  | [] => True
  | EvSend i _ _ _ _ :: l' =>
      i = last_accepted_end l' init /\ contiguous l' init
  | _ :: l' => contiguous l' init
  end.

(** An engine in which the decoder at address 2 cannot be instantiated. *)
Definition env_no_instance : Collaborators :=
  {| srd_session := unit;
     create_decoder_inst := fun d =>
       if (srd_addr (decoder d) =? 2)%N then None
       else Some (srd_addr (decoder d) + 100)%N;
     srd_session_send := fun s _ _ _ _ _ => (s, [], SRD_OK);
     get_samples := fun _ _ => [];
     sched := fun _ => [] |}.

(** Nothing happens around the thread: the capture is as it was left. *)
Definition env_still : Collaborators :=
  {| srd_session := unit;
     create_decoder_inst := fun d => Some (srd_addr (decoder d) + 100)%N;
     srd_session_send := fun s _ _ _ _ _ => (s, [], SRD_OK);
     get_samples := fun _ _ => [];
     sched := fun _ => [] |}.

(** A frame that is complete at once: it has ended and the capture is
    stopped by the time the thread first looks; the engine accepts every
    chunk and emits one annotation of class 1 of the UART decoder for
    each. *)
Definition env_complete : Collaborators :=
  {| srd_session := unit;
     create_decoder_inst := fun d => Some (srd_addr (decoder d) + 100)%N;
     srd_session_send := fun s i e _ _ _ =>
       (s, [ann_of_chunk 1 1 i e], SRD_OK);
     get_samples := fun _ _ => [];
     sched := fun t =>
       match t with
       | 0%nat => [ExtFrameEnded]
       | _ => []
       end |}.

(** * Properties *)

Arguments sync : simpl never.
Arguments callbacks_world : simpl never.
Arguments sent_world : simpl never.
Arguments loop_entry : simpl never.

(** ** Stack editing *)

Lemma remove_advance_in_range (ndebug : bool) (n iter len : nat) :
  (iter + n <= len)%nat ->
  remove_advance ndebug n iter len = inr (iter + n)%nat.
Proof.
  revert iter. induction n as [|n IH]; intros iter Hle; simpl.
  - f_equal. lia.
  - destruct (Nat.eqb_spec iter len) as [->|Hne]; [lia|].
    unfold assert_in. simpl.
    replace (if ndebug then None else @None Stop) with (@None Stop)
      by (by destruct ndebug).
    rewrite IH by lia. f_equal. lia.
Qed.

Lemma erased_lookup (s : list Decoder) (k j : nat) :
  (take k s ++ drop (S k) s) !! j =
  if (j <? k)%nat then s !! j else s !! S j.
Proof.
  destruct (Nat.ltb_spec j k) as [Hlt|Hge].
  - destruct (decide (k <= length s)%nat) as [Hk|Hk].
    + rewrite lookup_app_l by (rewrite length_take; lia).
      by rewrite lookup_take_lt.
    + rewrite take_ge by lia. rewrite drop_ge by lia.
      by rewrite app_nil_r.
  - destruct (decide (k <= length s)%nat) as [Hk|Hk].
    + rewrite lookup_app_r by (rewrite length_take; lia).
      rewrite length_take, lookup_drop. f_equal. lia.
    + rewrite take_ge by lia. rewrite drop_ge by lia.
      rewrite app_nil_r. rewrite !lookup_ge_None_2; [done|lia|lia].
Qed.

(** C9, as the code has it: for an index within the stack, [remove]
    erases exactly the element at that position and keeps the others in
    their order, in either build.  The bounds are stated by [assert]
    only: a build with the assertions compiled in stops at the failed
    assertion, before the stack is touched, when the index is negative or
    not less than the size of the stack; the default build does not check
    them. *)
Theorem remove_valid_index (index : Z) (s : list Decoder) :
  (0 <= index < Z.of_nat (length s) ->
   exists s',
     remove index s = inr s' /\
     (forall ndebug, remove_in ndebug index s = inr s') /\
     s' = take (Z.to_nat index) s ++ drop (S (Z.to_nat index)) s /\
     length s' = pred (length s) /\
     forall j : nat,
       s' !! j = if (j <? Z.to_nat index)%nat then s !! j else s !! S j) /\
  (~ (0 <= index < Z.of_nat (length s)) ->
   remove_in false index s = inl AssertionFailed).
Proof.
  split.
  - intros [Hlo Hhi].
    exists (take (Z.to_nat index) s ++ drop (S (Z.to_nat index)) s).
    assert (Hall : forall ndebug,
              remove_in ndebug index s =
              inr (take (Z.to_nat index) s ++ drop (S (Z.to_nat index)) s)).
    { intros ndebug. unfold remove_in, assert_in.
      destruct (Z.leb_spec 0 index); [|lia].
      destruct (Z.ltb_spec index (Z.of_nat (length s))); [|lia].
      replace (if ndebug then None else @None Stop) with (@None Stop)
        by (by destruct ndebug).
      rewrite remove_advance_in_range by lia. simpl.
      unfold erase.
      destruct (Nat.ltb_spec (Z.to_nat index) (length s));
        [reflexivity|lia]. }
    split; [apply Hall|]. split; [exact Hall|]. split; [reflexivity|].
    split.
    + rewrite length_app, length_take, length_drop. lia.
    + intros j. apply erased_lookup.
  - intros Hout. unfold remove_in, assert_in.
    destruct (Z.leb_spec 0 index); [|reflexivity].
    destruct (Z.ltb_spec index (Z.of_nat (length s))); [lia|reflexivity].
Qed.

Lemma remove_valid_index_witness :
  0 <= 1 < Z.of_nat (length [dec_uart; dec_plain; dec_unbound]) /\
  remove 1 [dec_uart; dec_plain; dec_unbound] = inr [dec_uart; dec_unbound] /\
  ~ (0 <= 3 < Z.of_nat (length [dec_uart; dec_plain; dec_unbound])) /\
  remove_in false 3 [dec_uart; dec_plain; dec_unbound] = inl AssertionFailed.
Proof.
  assert (H : 0 <= 1 < Z.of_nat (length [dec_uart; dec_plain; dec_unbound]))
    by (simpl; lia).
  assert (H' : ~ (0 <= 3 <
                  Z.of_nat (length [dec_uart; dec_plain; dec_unbound])))
    by (simpl; lia).
  split; [exact H|].
  destruct (remove_valid_index 1 [dec_uart; dec_plain; dec_unbound])
    as [Hin _].
  destruct (Hin H) as (s' & Hr & _ & Hs & _).
  split; [rewrite Hr, Hs; reflexivity|].
  split; [exact H'|].
  destruct (remove_valid_index 3 [dec_uart; dec_plain; dec_unbound])
    as [_ Hout].
  exact (Hout H').
Defined.

(** C9 as stated does not hold: a negative index is not rejected; on a
    stack of two decoders [remove(-1)] returns normally and has erased
    the first one. *)
Lemma remove_negative_index_erases_first :
  remove (-1) [dec_uart; dec_plain] = inr [dec_plain] /\
  ~ (forall (index : Z) (s : list Decoder),
       index < 0 \/ Z.of_nat (length s) <= index ->
       exists e, remove index s = inl e).
Proof.
  split; [reflexivity|].
  intros H. destruct (H (-1) [dec_uart; dec_plain]) as [e He]; [lia|].
  discriminate He.
Qed.

(** ** Range queries *)

(** C10: a query for a row that is not in the row index leaves the
    destination as it was; the call returns (the function is total) and,
    being a reader, has no object state to change. *)
Theorem get_annotation_subset_unknown_row
    (d : DecoderStack) (dest : list Annotation) (row : Row)
    (start_sample end_sample : Z) :
  rows_ d !! row = None ->
  get_annotation_subset d dest row start_sample end_sample = dest.
Proof.
  intros Hmiss. unfold get_annotation_subset, rows_find.
  rewrite Hmiss. reflexivity.
Qed.

Lemma get_annotation_subset_unknown_row_witness :
  rows_ (used_stack [dec_uart]) !! Row_of_decoder 9%N = None /\
  get_annotation_subset (used_stack [dec_uart])
    [Annotation_of (ann_of_chunk 1 0 0 8)] (Row_of_decoder 9%N) 0 100 =
  [Annotation_of (ann_of_chunk 1 0 0 8)].
Proof.
  assert (H : rows_ (used_stack [dec_uart]) !! Row_of_decoder 9%N = None)
    by reflexivity.
  split; [exact H|].
  exact (get_annotation_subset_unknown_row _ _ _ 0 100 H).
Defined.

(** ** [begin_decode] *)

Lemma missing_required_channels_true (stack : list Decoder) :
  missing_required_channels stack = true <->
  exists dec, dec ∈ stack /\ have_required_channels dec = false.
Proof.
  induction stack as [|dec rest IH]; simpl.
  - split; [discriminate|]. intros (dec & Hin & _).
    by apply not_elem_of_nil in Hin.
  - destruct (have_required_channels dec) eqn:Hreq; simpl.
    + rewrite IH. split.
      * intros (dec' & Hin & Hf). exists dec'. split; [by right|done].
      * intros (dec' & Hin & Hf).
        apply elem_of_cons in Hin as [->|Hin]; [congruence|].
        by exists dec'.
    + split; [|done]. intros _. exists dec. split; [by left|done].
Qed.

Lemma clear_stack (d : DecoderStack) : stack_ (clear d) = stack_ d.
Proof. reflexivity. Qed.

(** C3: when some decoder of the stack lacks a required channel,
    [begin_decode] records a non-empty message, leaves
    [samples_decoded()] at 0 and returns before the row index is built,
    before a segment is chosen and without a decode thread (the only
    place where the engine is called). *)
Theorem begin_decode_missing_channels (x : ThreadExit) (d : DecoderStack) :
  (exists dec, dec ∈ stack_ d /\ have_required_channels dec = false) ->
  let d' := begin_decode x d in
  error_message d' <> EmptyString /\
  samples_decoded d' = 0 /\
  rows_ d' = ∅ /\ class_rows_ d' = ∅ /\
  segment_ d' = segment_ d /\
  start_time_ d' = start_time_ d /\ samplerate_ d' = samplerate_ d /\
  stack_ d' = stack_ d /\
  decode_thread_ d' = false.
Proof.
  intros Hmiss d'. subst d'. unfold begin_decode.
  apply missing_required_channels_true in Hmiss.
  destruct (decode_thread_ d) eqn:Hthr.
  - rewrite clear_stack. simpl. rewrite Hmiss. simpl.
    repeat split; try reflexivity. discriminate.
  - rewrite clear_stack. rewrite Hmiss. simpl.
    repeat split; try reflexivity; try assumption. discriminate.
Qed.

Lemma begin_decode_missing_channels_witness :
  (exists dec, dec ∈ stack_ (used_stack [dec_uart; dec_unbound]) /\
               have_required_channels dec = false) /\
  error_message (begin_decode exit_idle (used_stack [dec_uart; dec_unbound]))
    <> EmptyString /\
  samples_decoded (begin_decode exit_idle (used_stack [dec_uart; dec_unbound]))
    = 0 /\
  decode_thread_ (begin_decode exit_idle (used_stack [dec_uart; dec_unbound]))
    = false.
Proof.
  assert (H : exists dec, dec ∈ stack_ (used_stack [dec_uart; dec_unbound]) /\
                          have_required_channels dec = false).
  { exists dec_unbound. split; [|reflexivity].
    simpl. apply elem_of_cons. right. apply elem_of_cons. by left. }
  split; [exact H|].
  destruct (begin_decode_missing_channels exit_idle
              (used_stack [dec_uart; dec_unbound]) H)
    as (He & Hs & _ & _ & _ & _ & _ & _ & Ht).
  split; [exact He|]. split; [exact Hs|exact Ht].
Defined.

(** ** [wait_for_data] *)

Section WaitProperties.
Context {C : Collaborators}.

Lemma more_work_iff (w : World) :
  more_work w = true <->
  interrupt_ (ds w) = false /\
  (samples_decoded_ (ds w) < sample_count_ (ds w) \/
   frame_complete_ (ds w) = false) /\
  ~ (sample_count_ (ds w) <= samples_decoded_ (ds w) /\
     session_capture_state w = Stopped).
Proof.
  unfold more_work.
  rewrite !andb_true_iff, orb_true_iff, !negb_true_iff, andb_false_iff,
    Z.ltb_lt, Z.leb_gt.
  destruct (session_capture_state w); simpl;
    intuition (try lia; try congruence);
    (left; destruct (Z.lt_ge_cases (samples_decoded_ (ds w))
                       (sample_count_ (ds w)));
     [assumption|exfalso; auto]).
Qed.


Lemma wait_for_data_returned (fuel : nat) (w : World)
    (r : option Z) (w' : World) :
  wait_for_data fuel w = Ok r w' ->
  exists n, (n < fuel)%nat /\
    (forall k, (k < n)%nat -> must_wait (observed (S k) w) = true) /\
    must_wait (observed (S n) w) = false /\
    w' = observed (S n) w /\
    r = make_optional (more_work w') (sample_count_ (ds w')).
Proof.
  revert w. induction fuel as [|fuel IH]; intros w Hret; simpl in Hret.
  - discriminate.
  - destruct (must_wait (sync w)) eqn:Hw.
    + destruct (IH _ Hret) as (n & Hn & Hb & Hwake & Hw' & Hr).
      exists (S n). split; [lia|]. split; [|split; [exact Hwake|]].
      * intros [|k] Hk; [exact Hw|]. apply Hb. lia.
      * split; [exact Hw'|exact Hr].
    + inversion Hret; subst. exists 0%nat.
      split; [lia|]. split; [intros k Hk; lia|]. simpl. by rewrite Hw.
Qed.


End WaitProperties.


(** ** The annotation callback *)

Section CallbackProperties.
Context {C : Collaborators}.

Lemma annotation_callback_eq (pdata : srd_proto_data) (w : World) :
  annotation_callback pdata w =
  match rows_ (ds w) !! classify (class_rows_ (ds w)) (pd_decoder pdata)
                          (pd_ann_class pdata) with
  | None =>
      Ok tt (add_log (EvDebug (pd_decoder pdata) (pd_ann_class pdata)) w)
  | Some rd =>
      Ok tt (after_push
               (classify (class_rows_ (ds w)) (pd_decoder pdata)
                  (pd_ann_class pdata))
               (Annotation_of pdata) rd w)
  end.
Proof.
  unfold annotation_callback, classify, after_push, bind, gets, assertM,
    assert_, assert_in. simpl.
  destruct (class_rows_ (ds w) !! (pd_decoder pdata, pd_ann_class pdata))
    as [row|]; unfold rows_find.
  - destruct (rows_ (ds w) !! row) as [rd|]; simpl; [|reflexivity].
    unfold modify, emit, inc_annotation_count, bind, gets, ret,
      new_annotations, emit. simpl.
    destruct (annotation_count_ (ds w) mod DecodeNotifyPeriod =? 0);
      reflexivity.
  - destruct (rows_ (ds w) !! Row_of_decoder (pd_decoder pdata)) as [rd|];
      simpl; [|reflexivity].
    unfold modify, emit, inc_annotation_count, bind, gets, ret,
      new_annotations, emit. simpl.
    destruct (annotation_count_ (ds w) mod DecodeNotifyPeriod =? 0);
      reflexivity.
Qed.

Lemma after_push_rows (row : Row) (a : Annotation) (rd : RowData)
    (w : World) :
  rows_ (ds (after_push row a rd w)) =
  <[row := push_annotation a rd]> (rows_ (ds w)).
Proof.
  unfold after_push.
  destruct (annotation_count_ (ds w) mod DecodeNotifyPeriod =? 0);
    reflexivity.
Qed.

Lemma after_push_count (row : Row) (a : Annotation) (rd : RowData)
    (w : World) :
  annotation_count_ (ds (after_push row a rd w)) =
  (annotation_count_ (ds w) + 1) mod UINT64_MOD.
Proof.
  unfold after_push.
  destruct (annotation_count_ (ds w) mod DecodeNotifyPeriod =? 0);
    reflexivity.
Qed.

Lemma after_push_log (row : Row) (a : Annotation) (rd : RowData)
    (w : World) :
  log (after_push row a rd w) =
  (if annotation_count_ (ds w) mod DecodeNotifyPeriod =? 0
   then [EvNewAnnotations; EvPush row a] else [EvPush row a]) ++ log w.
Proof.
  unfold after_push.
  destruct (annotation_count_ (ds w) mod DecodeNotifyPeriod =? 0);
    reflexivity.
Qed.

Lemma run_callbacks_cons (pdata : srd_proto_data)
    (rest : list srd_proto_data) (w w' : World) :
  annotation_callback pdata w = Ok tt w' ->
  run_callbacks (pdata :: rest) w = run_callbacks rest w'.
Proof. intros H. simpl. unfold bind. by rewrite H. Qed.

Lemma store_insert_eq (m : gmap Row RowData) (row : Row) (rd : RowData) :
  store (<[row := rd]> m) row = annotations_ rd.
Proof. unfold store. by rewrite lookup_insert_eq. Qed.

Lemma store_insert_ne (m : gmap Row RowData) (row row' : Row) (rd : RowData) :
  row <> row' -> store (<[row := rd]> m) row' = store m row'.
Proof. intros Hne. unfold store. by rewrite lookup_insert_ne. Qed.

(** C6: the callback resolves the annotation to [classify (decoder,
    class)], the entry of the class map or else the row of the decoder
    alone.  If the row index has no such row the annotation is dropped:
    the callback logs the inconsistency, changes nothing else and
    returns, and the annotations after it are processed.  Otherwise the
    annotation is appended to the store of that row and of no other. *)
Theorem annotation_callback_classifies
    (pdata : srd_proto_data) (rest : list srd_proto_data) (w : World) :
  let a := Annotation_of pdata in
  let decc := pd_decoder pdata in
  let row := classify (class_rows_ (ds w)) decc (format a) in
  match rows_ (ds w) !! row with
  | None =>
      annotation_callback pdata w =
        Ok tt (add_log (EvDebug decc (format a)) w) /\
      ds (add_log (EvDebug decc (format a)) w) = ds w /\
      run_callbacks (pdata :: rest) w =
        run_callbacks rest (add_log (EvDebug decc (format a)) w)
  | Some rd =>
      exists w',
        annotation_callback pdata w = Ok tt w' /\
        rows_ (ds w') = <[row := push_annotation a rd]> (rows_ (ds w)) /\
        store (rows_ (ds w')) row = store (rows_ (ds w)) row ++ [a] /\
        (forall row', row' <> row ->
           rows_ (ds w') !! row' = rows_ (ds w) !! row') /\
        run_callbacks (pdata :: rest) w = run_callbacks rest w'
  end.
Proof.
  cbv zeta. change (format (Annotation_of pdata)) with (pd_ann_class pdata).
  pose proof (annotation_callback_eq pdata w) as Heq.
  destruct (rows_ (ds w) !! classify (class_rows_ (ds w)) (pd_decoder pdata)
                              (pd_ann_class pdata)) as [rd|] eqn:Hrow.
  - eexists. split; [exact Heq|]. rewrite after_push_rows.
    split; [reflexivity|]. split; [|split].
    + rewrite store_insert_eq. unfold store. rewrite Hrow. reflexivity.
    + intros row' Hne. by rewrite lookup_insert_ne.
    + by apply run_callbacks_cons.
  - split; [exact Heq|]. split; [reflexivity|].
    by apply run_callbacks_cons.
Qed.

End CallbackProperties.

Lemma annotation_callback_classifies_witness :
  (exists w',
     annotation_callback (C := env_second_chunk_fails)
       (ann_of_chunk 1 1 0 8) run_second_chunk_fails = Ok tt w' /\
     store (rows_ (ds w')) (Row_of_ann_row 1 10) =
       [Annotation_of (ann_of_chunk 1 1 0 8)] /\
     rows_ (ds w') !! Row_of_decoder 2 = Some RowData_empty) /\
  annotation_callback (C := env_second_chunk_fails)
    (ann_of_chunk 3 1 0 8) run_second_chunk_fails =
  Ok tt (add_log (EvDebug 3 1) run_second_chunk_fails).
Proof.
  split.
  - pose proof (annotation_callback_classifies (C := env_second_chunk_fails)
                  (ann_of_chunk 1 1 0 8) [] run_second_chunk_fails) as H.
    cbv zeta in H.
    change (rows_ (ds run_second_chunk_fails) !!
              classify (class_rows_ (ds run_second_chunk_fails))
                (pd_decoder (ann_of_chunk 1 1 0 8))
                (format (Annotation_of (ann_of_chunk 1 1 0 8))))
      with (Some RowData_empty) in H.
    destruct H as (w' & Hret & _ & Hstore & Hother & _).
    exists w'. split; [exact Hret|]. split; [exact Hstore|].
    rewrite Hother; [reflexivity|discriminate].
  - pose proof (annotation_callback_classifies (C := env_second_chunk_fails)
                  (ann_of_chunk 3 1 0 8) [] run_second_chunk_fails) as H.
    cbv zeta in H.
    change (rows_ (ds run_second_chunk_fails) !!
              classify (class_rows_ (ds run_second_chunk_fails))
                (pd_decoder (ann_of_chunk 3 1 0 8))
                (format (Annotation_of (ann_of_chunk 3 1 0 8))))
      with (@None RowData) in H.
    destruct H as (Hret & _). exact Hret.
Defined.

(** ** What the steps of the decode thread leave unchanged *)

Section Frames.
Context {C : Collaborators}.

Lemma sync_preserves {A} (f : World -> A) :
  (forall w e, f (ext_step w e) = f w) ->
  (forall w, f (tick w) = f w) ->
  forall w, f (sync w) = f w.
Proof.
  intros Hstep Htick w. unfold sync. rewrite Htick.
  generalize (sched (clock w)). intros evs. revert w.
  induction evs as [|e evs IH]; intros w; simpl; [reflexivity|].
  rewrite IH. apply Hstep.
Qed.

Ltac sync_field f :=
  apply (sync_preserves f);
  [ intros w0 e; destruct e; simpl; try reflexivity;
    unfold on_data_received, on_frame_ended;
    destruct (segment_ (ds w0)) eqn:?; simpl; congruence
  | reflexivity ].

Lemma sync_log (w : World) :
  log (sync w) = log w.
Proof. revert w. sync_field (fun w0 : World => log w0). Qed.

Lemma sync_srd (w : World) :
  srd (sync w) = srd w.
Proof. revert w. sync_field (fun w0 : World => srd w0). Qed.

Lemma sync_samples_decoded (w : World) :
  samples_decoded_ (ds (sync w)) = samples_decoded_ (ds w).
Proof. revert w. sync_field (fun w0 : World => samples_decoded_ (ds w0)). Qed.

Lemma sync_error_message (w : World) :
  error_message_ (ds (sync w)) = error_message_ (ds w).
Proof. revert w. sync_field (fun w0 : World => error_message_ (ds w0)). Qed.

Lemma sync_rows (w : World) :
  rows_ (ds (sync w)) = rows_ (ds w).
Proof. revert w. sync_field (fun w0 : World => rows_ (ds w0)). Qed.

Lemma sync_class_rows (w : World) :
  class_rows_ (ds (sync w)) = class_rows_ (ds w).
Proof. revert w. sync_field (fun w0 : World => class_rows_ (ds w0)). Qed.

Lemma sync_annotation_count (w : World) :
  annotation_count_ (ds (sync w)) = annotation_count_ (ds w).
Proof. revert w. sync_field (fun w0 : World => annotation_count_ (ds w0)). Qed.

Lemma sync_segment (w : World) :
  segment_ (ds (sync w)) = segment_ (ds w).
Proof. revert w. sync_field (fun w0 : World => segment_ (ds w0)). Qed.

Lemma sync_stack (w : World) :
  stack_ (ds (sync w)) = stack_ (ds w).
Proof. revert w. sync_field (fun w0 : World => stack_ (ds w0)). Qed.

Lemma sync_clock (w : World) : clock (sync w) = S (clock w).
Proof.
  unfold sync. simpl. f_equal.
  generalize (sched (clock w)). intros evs. revert w.
  induction evs as [|e evs IH]; intros w; simpl; [reflexivity|].
  rewrite IH. destruct e; simpl; try reflexivity;
    unfold on_data_received, on_frame_ended;
    destruct (segment_ (ds w)); reflexivity.
Qed.

(** The callbacks always return; they touch the row stores, the
    annotation counter and the log. *)
Lemma run_callbacks_ok (pds : list srd_proto_data) (w : World) :
  run_callbacks pds w = Ok tt (callbacks_world pds w).
Proof.
  unfold callbacks_world. revert w.
  induction pds as [|pdata rest IH]; intros w; [reflexivity|].
  simpl. unfold bind. rewrite annotation_callback_eq.
  destruct (rows_ (ds w) !! _); apply IH.
Qed.

Lemma callbacks_world_nil (w : World) : callbacks_world [] w = w.
Proof. reflexivity. Qed.

Lemma callbacks_world_cons (pdata : srd_proto_data)
    (rest : list srd_proto_data) (w : World) :
  callbacks_world (pdata :: rest) w =
  callbacks_world rest
    (match rows_ (ds w) !! classify (class_rows_ (ds w)) (pd_decoder pdata)
                             (pd_ann_class pdata) with
     | None => add_log (EvDebug (pd_decoder pdata) (pd_ann_class pdata)) w
     | Some rd =>
         after_push (classify (class_rows_ (ds w)) (pd_decoder pdata)
                       (pd_ann_class pdata)) (Annotation_of pdata) rd w
     end).
Proof.
  unfold callbacks_world. simpl. unfold bind.
  rewrite annotation_callback_eq.
  destruct (rows_ (ds w) !! _); reflexivity.
Qed.

Lemma callbacks_preserve {A} (f : World -> A) :
  (forall e w, f (add_log e w) = f w) ->
  (forall row a rd w, f (after_push row a rd w) = f w) ->
  forall pds w, f (callbacks_world pds w) = f w.
Proof.
  intros Hlog Hpush pds. induction pds as [|pdata rest IH]; intros w.
  - reflexivity.
  - rewrite callbacks_world_cons, IH.
    destruct (rows_ (ds w) !! _); [apply Hpush|apply Hlog].
Qed.

Ltac callback_field f :=
  apply (callbacks_preserve f);
  [ reflexivity
  | intros row a rd w0; unfold after_push;
    destruct (annotation_count_ (ds w0) mod DecodeNotifyPeriod =? 0);
    reflexivity ].

Lemma callbacks_samples_decoded (pds : list srd_proto_data) (w : World) :
  samples_decoded_ (ds (callbacks_world pds w)) =
  samples_decoded_ (ds w).
Proof. revert pds w. callback_field (fun w0 : World => samples_decoded_ (ds w0)). Qed.

Lemma callbacks_error_message (pds : list srd_proto_data) (w : World) :
  error_message_ (ds (callbacks_world pds w)) =
  error_message_ (ds w).
Proof. revert pds w. callback_field (fun w0 : World => error_message_ (ds w0)). Qed.

Lemma callbacks_segment (pds : list srd_proto_data) (w : World) :
  segment_ (ds (callbacks_world pds w)) =
  segment_ (ds w).
Proof. revert pds w. callback_field (fun w0 : World => segment_ (ds w0)). Qed.

Lemma callbacks_interrupt (pds : list srd_proto_data) (w : World) :
  interrupt_ (ds (callbacks_world pds w)) =
  interrupt_ (ds w).
Proof. revert pds w. callback_field (fun w0 : World => interrupt_ (ds w0)). Qed.

Lemma callbacks_sample_count (pds : list srd_proto_data) (w : World) :
  sample_count_ (ds (callbacks_world pds w)) =
  sample_count_ (ds w).
Proof. revert pds w. callback_field (fun w0 : World => sample_count_ (ds w0)). Qed.

Lemma callbacks_clock (pds : list srd_proto_data) (w : World) :
  clock (callbacks_world pds w) =
  clock w.
Proof. revert pds w. callback_field (fun w0 : World => clock w0). Qed.

Lemma callbacks_segment_sample_count (pds : list srd_proto_data) (w : World) :
  segment_sample_count (callbacks_world pds w) =
  segment_sample_count w.
Proof. revert pds w. callback_field (fun w0 : World => segment_sample_count w0). Qed.

Lemma callbacks_class_rows (pds : list srd_proto_data) (w : World) :
  class_rows_ (ds (callbacks_world pds w)) =
  class_rows_ (ds w).
Proof. revert pds w. callback_field (fun w0 : World => class_rows_ (ds w0)). Qed.

Lemma callbacks_stack (pds : list srd_proto_data) (w : World) :
  stack_ (ds (callbacks_world pds w)) =
  stack_ (ds w).
Proof. revert pds w. callback_field (fun w0 : World => stack_ (ds w0)). Qed.

Lemma callbacks_frame_complete (pds : list srd_proto_data) (w : World) :
  frame_complete_ (ds (callbacks_world pds w)) =
  frame_complete_ (ds w).
Proof. revert pds w. callback_field (fun w0 : World => frame_complete_ (ds w0)). Qed.

Lemma callbacks_capture_state (pds : list srd_proto_data) (w : World) :
  session_capture_state (callbacks_world pds w) =
  session_capture_state w.
Proof. revert pds w. callback_field (fun w0 : World => session_capture_state w0). Qed.

Lemma callbacks_srd (pds : list srd_proto_data) (w : World) :
  srd (callbacks_world pds w) =
  srd w.
Proof. revert pds w. callback_field (fun w0 : World => srd w0). Qed.

(** The log grows by callback events only, and every store grows by
    exactly the annotations the log says were pushed to it. *)
Lemma callbacks_log (pds : list srd_proto_data) (w : World) :
  exists cb,
    log (callbacks_world pds w) = cb ++ log w /\
    Forall (fun e => is_callback_event e = true) cb /\
    forall row,
      store (rows_ (ds (callbacks_world pds w))) row =
      store (rows_ (ds w)) row ++ pushed row cb.
Proof.
  revert w. induction pds as [|pdata rest IH]; intros w.
  - exists []. split; [reflexivity|]. split; [constructor|].
    intros row. simpl. by rewrite app_nil_r.
  - rewrite callbacks_world_cons.
    set (r := classify (class_rows_ (ds w)) (pd_decoder pdata)
                (pd_ann_class pdata)).
    destruct (rows_ (ds w) !! r) as [rd|] eqn:Hr.
    + destruct (IH (after_push r (Annotation_of pdata) rd w))
        as (cb & Hlog & Hcb & Hst).
      rewrite after_push_log in Hlog.
      exists (cb ++ (if annotation_count_ (ds w) mod DecodeNotifyPeriod =? 0
                     then [EvNewAnnotations; EvPush r (Annotation_of pdata)]
                     else [EvPush r (Annotation_of pdata)])).
      split; [by rewrite <- app_assoc|]. split.
      * apply Forall_app. split; [exact Hcb|].
        destruct (_ =? 0); repeat constructor.
      * intros row. rewrite Hst, after_push_rows.
        assert (Hp : forall l l', pushed row (l ++ l') =
                                  pushed row l' ++ pushed row l).
        { induction l as [|e l IHl]; intros l'; simpl.
          - by rewrite app_nil_r.
          - destruct e; try apply IHl.
            destruct (decide (row0 = row)); [|apply IHl].
            by rewrite IHl, app_assoc. }
        rewrite Hp, app_assoc. f_equal.
        destruct (decide (r = row)) as [->|Hne].
        -- rewrite store_insert_eq. unfold store at 1. rewrite Hr. simpl.
           destruct (_ =? 0); simpl; destruct (decide (row = row)); done.
        -- rewrite store_insert_ne by done.
           destruct (_ =? 0); simpl; destruct (decide (r = row));
             try done; by rewrite app_nil_r.
    + destruct (IH (add_log (EvDebug (pd_decoder pdata) (pd_ann_class pdata))
                      w)) as (cb & Hlog & Hcb & Hst).
      exists (cb ++ [EvDebug (pd_decoder pdata) (pd_ann_class pdata)]).
      split; [by rewrite <- app_assoc|]. split.
      * apply Forall_app. split; [exact Hcb|]. repeat constructor.
      * intros row. rewrite Hst. simpl. f_equal.
        clear. induction cb as [|e cb IHcb]; simpl; [reflexivity|].
        destruct e; try apply IHcb.
        destruct (decide (row0 = row)); [|apply IHcb]. by rewrite IHcb.
Qed.

End Frames.

(** ** One step of each loop *)

Section Unfolding.
Context {C : Collaborators}.

Lemma session_send_eq (i chunk_end us : Z) (w : World) :
  session_send i chunk_end (get_samples i chunk_end)
    ((chunk_end - i) * us) us w =
  Ok (send_status i chunk_end us w) (sent_world i chunk_end us w).
Proof.
  unfold session_send, send_status, sent_world.
  destruct (srd_session_send (srd w) i chunk_end (get_samples i chunk_end)
              ((chunk_end - i) * us) us) as [[s' pds] r].
  unfold bind. rewrite run_callbacks_ok. reflexivity.
Qed.

Lemma decode_data_loop_S (fuel : nat) (i sample_count us c : Z) (w : World) :
  decode_data_loop (S fuel) i sample_count us c w =
  if negb (negb (interrupt_ (ds (sync w))) && (i <? sample_count))
  then Ok tt (sync w)
  else if INT64_MAX <? i + c then Halt Undefined (sync w)
  else if negb (send_status i (Z.min (i + c) sample_count) us (sync w)
                =? SRD_OK)
  then Ok tt (upd_ds (set_error_message
                        (tr "Decoder reported an error"%string))
                (sent_world i (Z.min (i + c) sample_count) us (sync w)))
  else decode_data_loop fuel (i + c) sample_count us c
         (advanced_world (Z.min (i + c) sample_count)
            (sent_world i (Z.min (i + c) sample_count) us (sync w))).
Proof.
  cbn [decode_data_loop]. unfold bind at 1. unfold observe at 1.
  unfold bind at 1. unfold gets at 1.
  destruct (negb (negb (interrupt_ (ds (sync w))) && (i <? sample_count)));
    [reflexivity|].
  destruct (INT64_MAX <? i + c); [reflexivity|].
  unfold bind at 1. rewrite session_send_eq.
  destruct (negb (send_status i (Z.min (i + c) sample_count) us (sync w)
                  =? SRD_OK)); reflexivity.
Qed.

Lemma sent_world_log (i chunk_end us : Z) (w : World) :
  exists cb,
    log (sent_world i chunk_end us w) =
      EvSend i chunk_end ((chunk_end - i) * us) us
        (send_status i chunk_end us w) :: cb ++ log w /\
    Forall (fun e => is_callback_event e = true) cb /\
    forall row,
      store (rows_ (ds (sent_world i chunk_end us w))) row =
      store (rows_ (ds w)) row ++ pushed row cb.
Proof.
  unfold sent_world, send_status.
  destruct (srd_session_send (srd w) i chunk_end (get_samples i chunk_end)
              ((chunk_end - i) * us) us) as [[s' pds] r]. simpl.
  destruct (callbacks_log pds (set_srd s' w)) as (cb & Hlog & Hcb & Hst).
  exists cb. rewrite Hlog. split; [reflexivity|]. split; [exact Hcb|].
  exact Hst.
Qed.

Lemma sent_world_samples_decoded (i chunk_end us : Z) (w : World) :
  samples_decoded_ (ds (sent_world i chunk_end us w)) =
  samples_decoded_ (ds w).
Proof. unfold sent_world. simpl. by rewrite callbacks_samples_decoded. Qed.

Lemma sent_world_error_message (i chunk_end us : Z) (w : World) :
  error_message_ (ds (sent_world i chunk_end us w)) =
  error_message_ (ds w).
Proof. unfold sent_world. simpl. by rewrite callbacks_error_message. Qed.

Lemma sent_world_interrupt (i chunk_end us : Z) (w : World) :
  interrupt_ (ds (sent_world i chunk_end us w)) = interrupt_ (ds w).
Proof. unfold sent_world. simpl. by rewrite callbacks_interrupt. Qed.

Lemma sent_world_segment (i chunk_end us : Z) (w : World) :
  segment_ (ds (sent_world i chunk_end us w)) = segment_ (ds w).
Proof. unfold sent_world. simpl. by rewrite callbacks_segment. Qed.

(** [wait_for_data] only observes. *)
Lemma observed_preserves {A} (f : World -> A) :
  (forall w, f (sync w) = f w) ->
  forall n w, f (observed n w) = f w.
Proof.
  intros Hsync n. induction n as [|n IH]; intros w; simpl; [reflexivity|].
  by rewrite IH, Hsync.
Qed.

Lemma wait_for_data_final (fuel : nat) (w : World) :
  exists n, final (wait_for_data fuel w) = observed n w.
Proof.
  revert w. induction fuel as [|fuel IH]; intros w; simpl.
  - by exists 0%nat.
  - destruct (must_wait (sync w)).
    + destruct (IH (sync w)) as [n Hn]. exists (S n). exact Hn.
    + exists 1%nat. reflexivity.
Qed.

Lemma wait_for_data_preserves {A} (f : World -> A) (fuel : nat) (w : World) :
  (forall w, f (sync w) = f w) ->
  f (final (wait_for_data fuel w)) = f w.
Proof.
  intros Hsync. destruct (wait_for_data_final fuel w) as [n ->].
  by apply observed_preserves.
Qed.

(** An engaged answer of [wait_for_data] names a count beyond what has
    been decoded. *)
Lemma wait_for_data_some (fuel : nat) (w w' : World) (sc : Z) :
  wait_for_data fuel w = Ok (Some sc) w' ->
  sc = sample_count_ (ds w') /\
  samples_decoded_ (ds w') < sc /\
  interrupt_ (ds w') = false.
Proof.
  intros Hret.
  destruct (wait_for_data_returned _ _ _ _ Hret)
    as (n & _ & _ & Hwake & Hw' & Hr).
  rewrite <- Hw' in Hwake. unfold make_optional in Hr.
  destruct (more_work w') eqn:Hmore; [|discriminate].
  inversion Hr; subst sc. split; [reflexivity|].
  apply more_work_iff in Hmore as (Hint & Hwork & Hend).
  split; [|exact Hint].
  unfold must_wait in Hwake. rewrite Hint in Hwake. simpl in Hwake.
  destruct (Z.lt_ge_cases (samples_decoded_ (ds w')) (sample_count_ (ds w')))
    as [Hlt|Hge]; [exact Hlt|exfalso].
  destruct Hwork as [Hlt|Hfc]; [lia|].
  rewrite Hfc in Hwake. simpl in Hwake.
  destruct (Z.leb_spec (sample_count_ (ds w')) (samples_decoded_ (ds w')));
    [|lia].
  simpl in Hwake. apply negb_false_iff in Hwake.
  apply Hend. split; [lia|].
  destruct (session_capture_state w'); [reflexivity|discriminate..].
Qed.

Lemma decode_rounds_S (fuel : nat) (abs sc us : Z) (w : World) :
  decode_rounds (S fuel) abs sc us w =
  match decode_data fuel abs sc us w with
  | Halt s w1 => Halt s w1
  | Ok _ w1 =>
      if isEmpty (error_message_ (ds w1)) then
        match wait_for_data fuel w1 with
        | Halt s w2 => Halt s w2
        | Ok None w2 => Ok tt w2
        | Ok (Some sc') w2 => decode_rounds fuel sc sc' us w2
        end
      else Ok tt w1
  end.
Proof.
  cbn [decode_rounds]. unfold bind at 1.
  destruct (decode_data fuel abs sc us w) as [[] w1|s w1]; [|reflexivity].
  unfold bind at 1. unfold gets at 1.
  destruct (isEmpty (error_message_ (ds w1))); [|reflexivity].
  unfold bind at 1.
  destruct (wait_for_data fuel w1) as [[sc'|] w2|s w2]; reflexivity.
Qed.

Lemma decode_data_eq (fuel : nat) (abs sc us : Z) (w : World) :
  decode_data fuel abs sc us w =
  match segment_ (ds w) with
  | None => Halt Undefined w
  | Some seg =>
      if unit_size_of seg =? 0 then Halt Undefined w
      else decode_data_loop fuel abs sc us
             (chunk_sample_count_of (unit_size_of seg)) w
  end.
Proof.
  unfold decode_data, bind, gets.
  destruct (segment_ (ds w)) as [seg|]; [|reflexivity].
  destruct (unit_size_of seg =? 0); reflexivity.
Qed.

End Unfolding.

(** ** [decode_proc]: set-up and tear-down *)

Section ProcStructure.
Context {C : Collaborators}.

Lemma add_logs_app (l l' : list Event) (w : World) :
  add_logs l (add_logs l' w) = add_logs (l ++ l') w.
Proof. unfold add_logs. simpl. by rewrite app_assoc. Qed.

Lemma create_decoders_spec (stack : list Decoder) (prev : option N)
    (w : World) :
  exists evs,
    Forall (fun e => is_inst_event e = true) evs /\
    ((Forall (fun dec => is_Some (create_decoder_inst dec)) stack /\
      create_decoders stack prev w = Ok true (add_logs evs w)) \/
     (Exists (fun dec => create_decoder_inst dec = None) stack /\
      create_decoders stack prev w =
        Ok false
          (add_log EvSessionDestroy
             (upd_ds (set_error_message
                        (tr "Failed to create decoder instance"%string))
                (add_logs evs w))))).
Proof.
  revert prev w. induction stack as [|dec rest IH]; intros prev w.
  - exists []. split; [constructor|]. left. split; [constructor|].
    destruct w; reflexivity.
  - cbn [create_decoders].
    destruct (create_decoder_inst dec) as [di|] eqn:Hdi.
    + set (w1 := match prev with
                 | Some p => add_logs [EvInstStack p di;
                                       EvInstNew (srd_addr (decoder dec)) di] w
                 | None => add_logs [EvInstNew (srd_addr (decoder dec)) di] w
                 end).
      assert (Hstep : forall k : M bool,
        bind (emit (EvInstNew (srd_addr (decoder dec)) di))
          (fun _ => bind (match prev with
                          | Some p => emit (EvInstStack p di)
                          | None => ret tt
                          end) (fun _ => k)) w = k w1).
      { intros k. unfold bind, emit, ret, w1.
        destruct prev; reflexivity. }
      rewrite Hstep.
      destruct (IH (Some di) w1) as (evs & Hevs & Hcases).
      exists (evs ++ match prev with
                     | Some p => [EvInstStack p di;
                                  EvInstNew (srd_addr (decoder dec)) di]
                     | None => [EvInstNew (srd_addr (decoder dec)) di]
                     end).
      split.
      { apply Forall_app. split; [exact Hevs|].
        destruct prev; repeat constructor. }
      assert (Hw1 : add_logs evs w1 =
                    add_logs (evs ++ match prev with
                       | Some p => [EvInstStack p di;
                                    EvInstNew (srd_addr (decoder dec)) di]
                       | None => [EvInstNew (srd_addr (decoder dec)) di]
                       end) w).
      { unfold w1. destruct prev; apply add_logs_app. }
      destruct Hcases as [[Hall Heq]|[Hex Heq]].
      * left. split; [constructor; [by rewrite Hdi|exact Hall]|].
        by rewrite Heq, Hw1.
      * right. split; [by apply Exists_cons_tl|].
        by rewrite Heq, Hw1.
    + exists []. split; [constructor|]. right.
      split; [by apply Exists_cons_hd|].
      unfold bind, modify, emit, ret. destruct w; reflexivity.
Qed.

Lemma decode_proc_eq (fuel : nat) (w : World) :
  decode_proc fuel w =
  match segment_ (ds w) with
  | None => Halt Undefined (add_log EvSessionNew w)
  | Some seg =>
      match create_decoders (stack_ (ds w)) None (add_log EvSessionNew w) with
      | Halt s w1 => Halt s w1
      | Ok false w1 => Ok tt w1
      | Ok true w1 =>
          match decode_rounds fuel 0 (sample_count_ (ds (loop_entry w1)))
                  (unit_size_of seg) (loop_entry w1) with
          | Halt s w2 => Halt s w2
          | Ok _ w2 =>
              Ok tt (add_log EvSessionDestroy (add_log EvNewAnnotations w2))
          end
      end
  end.
Proof.
  cbv beta iota zeta delta [decode_proc bind gets assertM assert_ assert_in
                              NDEBUG emit ret halt].
  destruct (segment_ (ds w)) as [seg|]; [|reflexivity].
  change (ds (add_log EvSessionNew w)) with (ds w).
  destruct (create_decoders (stack_ (ds w)) None (add_log EvSessionNew w))
    as [[|] w1|s w1]; reflexivity.
Qed.

End ProcStructure.

(** ** Progress is monotone *)

Section Monotone.
Context {C : Collaborators}.

Lemma decoded_chain_app (l2 l1 : list Event) (init mid last : Z) :
  decoded_chain l1 init mid -> decoded_chain l2 mid last ->
  decoded_chain (l2 ++ l1) init last.
Proof.
  intros H1. revert last. induction l2 as [|e l2 IH]; intros last H2; simpl.
  - simpl in H2. by subst.
  - destruct e; simpl in H2; auto.
    destruct H2 as (-> & Hle & H2). auto.
Qed.

Lemma decoded_chain_quiet (l : list Event) (v : Z) :
  Forall (fun e => is_decoded e = false) l -> decoded_chain l v v.
Proof.
  induction 1 as [|e l He _ IH]; simpl; [reflexivity|].
  destruct e; try exact IH. discriminate He.
Qed.

Lemma decoded_chain_le (l : list Event) (init last : Z) :
  decoded_chain l init last -> init <= last.
Proof.
  revert last. induction l as [|e l IH]; intros last H; simpl in H.
  - lia.
  - destruct e; auto. destruct H as (-> & Hle & H). apply IH in H. lia.
Qed.

Lemma callback_events_quiet (cb : list Event) :
  Forall (fun e => is_callback_event e = true) cb ->
  Forall (fun e => is_decoded e = false) cb.
Proof.
  intros H. eapply Forall_impl; [exact H|]. intros e He. by destruct e.
Qed.

Lemma chunk_sample_count_nonneg (us : Z) : 0 <= chunk_sample_count_of us.
Proof.
  unfold chunk_sample_count_of. apply Z.mod_pos_bound. reflexivity.
Qed.

Lemma decode_data_loop_monotone (fuel : nat) (i sc us c : Z) (w : World) :
  0 <= c ->
  samples_decoded_ (ds w) <= i ->
  samples_decoded_ (ds w) <= sc ->
  exists new,
    log (final (decode_data_loop fuel i sc us c w)) = new ++ log w /\
    decoded_chain new (samples_decoded_ (ds w))
      (samples_decoded_ (ds (final (decode_data_loop fuel i sc us c w)))) /\
    samples_decoded_ (ds (final (decode_data_loop fuel i sc us c w))) <= sc.
Proof.
  intros Hc. revert i w. induction fuel as [|fuel IH]; intros i w Hi Hsc.
  - exists []. cbn. auto.
  - rewrite decode_data_loop_S.
    destruct (negb (negb (interrupt_ (ds (sync w))) && (i <? sc))) eqn:Hcond.
    { exists []. cbn. rewrite sync_log, sync_samples_decoded. auto. }
    destruct (INT64_MAX <? i + c).
    { exists []. cbn. rewrite sync_log, sync_samples_decoded. auto. }
    apply negb_false_iff, andb_true_iff in Hcond as [_ Hlt].
    apply Z.ltb_lt in Hlt.
    set (ce := Z.min (i + c) sc).
    destruct (sent_world_log i ce us (sync w)) as (cb & Hlog & Hcb & _).
    rewrite sync_log in Hlog.
    pose proof (sent_world_samples_decoded i ce us (sync w)) as Hsd.
    rewrite sync_samples_decoded in Hsd.
    destruct (negb (send_status i ce us (sync w) =? SRD_OK)).
    + exists (EvSend i ce ((ce - i) * us) us (send_status i ce us (sync w))
                :: cb).
      cbn. rewrite Hlog, Hsd. split; [reflexivity|].
      split; [|exact Hsc].
      apply decoded_chain_quiet, callback_events_quiet, Hcb.
    + destruct (IH (i + c) (advanced_world ce (sent_world i ce us (sync w))))
        as (new & Hnew & Hchain & Hle).
      { cbn. unfold ce. lia. }
      { cbn. unfold ce. lia. }
      exists (new ++ EvSamplesDecoded (samples_decoded_ (ds w)) ce ::
                     EvSend i ce ((ce - i) * us) us
                       (send_status i ce us (sync w)) :: cb).
      split.
      { rewrite Hnew. cbn. rewrite Hlog, Hsd.
        rewrite <- app_assoc. reflexivity. }
      split; [|exact Hle].
      eapply decoded_chain_app; [|exact Hchain].
      cbn. split; [reflexivity|]. split; [unfold ce; lia|].
      apply decoded_chain_quiet, callback_events_quiet, Hcb.
Qed.

Lemma decode_data_monotone (fuel : nat) (abs sc us : Z) (w : World) :
  samples_decoded_ (ds w) <= abs ->
  samples_decoded_ (ds w) <= sc ->
  exists new,
    log (final (decode_data fuel abs sc us w)) = new ++ log w /\
    decoded_chain new (samples_decoded_ (ds w))
      (samples_decoded_ (ds (final (decode_data fuel abs sc us w)))) /\
    samples_decoded_ (ds (final (decode_data fuel abs sc us w))) <= sc.
Proof.
  intros Habs Hsc. rewrite decode_data_eq.
  destruct (segment_ (ds w)) as [seg|]; [|exists []; cbn; auto].
  destruct (unit_size_of seg =? 0); [exists []; cbn; auto|].
  apply decode_data_loop_monotone; auto using chunk_sample_count_nonneg.
Qed.

Lemma decode_rounds_monotone (fuel : nat) (abs sc us : Z) (w : World) :
  samples_decoded_ (ds w) <= abs ->
  samples_decoded_ (ds w) <= sc ->
  exists new,
    log (final (decode_rounds fuel abs sc us w)) = new ++ log w /\
    decoded_chain new (samples_decoded_ (ds w))
      (samples_decoded_ (ds (final (decode_rounds fuel abs sc us w)))).
Proof.
  revert abs sc w. induction fuel as [|fuel IH]; intros abs sc w Habs Hsc.
  - exists []. cbn. auto.
  - rewrite decode_rounds_S.
    destruct (decode_data_monotone fuel abs sc us w Habs Hsc)
      as (new1 & Hlog1 & Hchain1 & Hle1).
    destruct (decode_data fuel abs sc us w) as [[] w1|s w1]; cbn in *.
    2:{ exists new1. auto. }
    destruct (isEmpty (error_message_ (ds w1))).
    2:{ exists new1. auto. }
    pose proof (wait_for_data_preserves (fun w => log w) fuel w1 sync_log)
      as Hwl.
    pose proof (wait_for_data_preserves
                  (fun w => samples_decoded_ (ds w)) fuel w1
                  sync_samples_decoded) as Hws.
    cbn in Hwl, Hws.
    destruct (wait_for_data fuel w1) as [[sc'|] w2|s w2] eqn:Hwait;
      cbn in *.
    + apply wait_for_data_some in Hwait as (_ & Hlt & _).
      destruct (IH sc sc' w2) as (new2 & Hlog2 & Hchain2); [lia..|].
      exists (new2 ++ new1). split.
      * rewrite Hlog2, Hwl, Hlog1. by rewrite app_assoc.
      * eapply decoded_chain_app; [exact Hchain1|].
        rewrite <- Hws. exact Hchain2.
    + exists new1. rewrite Hwl, Hws. auto.
    + exists new1. rewrite Hwl, Hws. auto.
Qed.

End Monotone.

Section LoopEntry.
Context {C : Collaborators}.

Lemma loop_entry_log (w : World) :
  log (loop_entry w) =
  [EvSessionStart; EvCallbackAdd; EvMetadataSet (samplerate_ (ds (sync w)))]
  ++ log w.
Proof. unfold loop_entry. cbn. by rewrite sync_log. Qed.

Lemma loop_entry_samples_decoded (w : World) :
  samples_decoded_ (ds (loop_entry w)) = samples_decoded_ (ds w).
Proof. unfold loop_entry. cbn. by rewrite sync_samples_decoded. Qed.

Lemma loop_entry_error_message (w : World) :
  error_message_ (ds (loop_entry w)) = error_message_ (ds w).
Proof. unfold loop_entry. cbn. by rewrite sync_error_message. Qed.

Lemma loop_entry_rows (w : World) :
  rows_ (ds (loop_entry w)) = rows_ (ds w).
Proof. unfold loop_entry. cbn. by rewrite sync_rows. Qed.

Lemma loop_entry_annotation_count (w : World) :
  annotation_count_ (ds (loop_entry w)) = annotation_count_ (ds w).
Proof. unfold loop_entry. cbn. by rewrite sync_annotation_count. Qed.

Lemma loop_entry_segment (w : World) :
  segment_ (ds (loop_entry w)) = segment_ (ds w).
Proof. unfold loop_entry. cbn. by rewrite sync_segment. Qed.

Lemma loop_entry_sample_count (w : World) :
  sample_count_ (ds (loop_entry w)) =
  Z.of_N (segment_sample_count (sync w)).
Proof. reflexivity. Qed.

Lemma inst_events_quiet (evs : list Event) :
  Forall (fun e => is_inst_event e = true) evs ->
  Forall (fun e => is_decoded e = false) evs.
Proof.
  intros H. eapply Forall_impl; [exact H|]. intros e He. by destruct e.
Qed.

(** C4: within a run, which starts with [samples_decoded_] = 0, the
    assignments to [samples_decoded_] form a chain: each one replaces the
    value left by the previous one (0 for the first) by a chunk end that
    is at least as large, and the value read at any later time is the one
    the last assignment left.  This holds for every prefix of the run
    (every amount of fuel), however the run ends. *)
Theorem samples_decoded_monotone (fuel : nat) (w : World) :
  samples_decoded_ (ds w) = 0 ->
  exists new,
    log (final (decode_proc fuel w)) = new ++ log w /\
    decoded_chain new 0 (samples_decoded (ds (final (decode_proc fuel w)))) /\
    0 <= samples_decoded (ds (final (decode_proc fuel w))).
Proof.
  intros Hzero. unfold samples_decoded.
  enough (exists new,
    log (final (decode_proc fuel w)) = new ++ log w /\
    decoded_chain new 0 (samples_decoded_ (ds (final (decode_proc fuel w)))))
    as (new & Hlog & Hchain).
  { exists new. split; [exact Hlog|]. split; [exact Hchain|].
    by apply decoded_chain_le in Hchain. }
  rewrite decode_proc_eq.
  destruct (segment_ (ds w)) as [seg|].
  2:{ exists [EvSessionNew]. cbn. auto. }
  destruct (create_decoders_spec (stack_ (ds w)) None (add_log EvSessionNew w))
    as (evs & Hevs & [[_ Hcreate]|[_ Hcreate]]); rewrite Hcreate.
  - set (w1 := loop_entry (add_logs evs (add_log EvSessionNew w))).
    destruct (decode_rounds_monotone fuel 0 (sample_count_ (ds w1))
                (unit_size_of seg) w1) as (new & Hlog & Hchain).
    { unfold w1. rewrite loop_entry_samples_decoded. cbn. lia. }
    { unfold w1. rewrite loop_entry_samples_decoded, loop_entry_sample_count.
      cbn. lia. }
    set (pre := [EvSessionStart; EvCallbackAdd;
                 EvMetadataSet (samplerate_
                   (ds (sync (add_logs evs (add_log EvSessionNew w)))))]
                ++ evs ++ [EvSessionNew]).
    assert (Hw1 : log w1 = pre ++ log w).
    { unfold w1, pre. rewrite loop_entry_log. cbn. rewrite <- app_assoc.
      reflexivity. }
    assert (Hsd1 : samples_decoded_ (ds w1) = 0).
    { unfold w1. rewrite loop_entry_samples_decoded. exact Hzero. }
    assert (Hpre : decoded_chain pre 0 0).
    { apply decoded_chain_quiet. unfold pre. repeat constructor.
      apply Forall_app. split; [by apply inst_events_quiet|].
      repeat constructor. }
    rewrite Hsd1 in Hchain.
    destruct (decode_rounds fuel 0 (sample_count_ (ds w1)) (unit_size_of seg)
                w1) as [[] w2|s w2]; cbn [final log add_log] in *.
    + exists (EvSessionDestroy :: EvNewAnnotations :: new ++ pre).
      rewrite Hlog, Hw1. split; [cbn [app]; by rewrite app_assoc|].
      cbn. eapply decoded_chain_app; [exact Hpre|exact Hchain].
    + exists (new ++ pre).
      rewrite Hlog, Hw1. split; [by rewrite app_assoc|].
      eapply decoded_chain_app; [exact Hpre|exact Hchain].
  - exists (EvSessionDestroy :: evs ++ [EvSessionNew]). cbn.
    split; [by rewrite <- app_assoc|]. rewrite Hzero.
    apply decoded_chain_quiet.
    apply Forall_app. split; [by apply inst_events_quiet|].
    repeat constructor.
Qed.

End LoopEntry.

Lemma samples_decoded_monotone_witness :
  samples_decoded_ (ds run_second_chunk_fails) = 0 /\
  exists new,
    log (final (decode_proc (C := env_second_chunk_fails) 20
                  run_second_chunk_fails)) = new /\
    decoded_chain new 0 10485760 /\
    In (EvSamplesDecoded 0 10485760) new.
Proof.
  assert (H : samples_decoded_ (ds run_second_chunk_fails) = 0)
    by reflexivity.
  split; [exact H|].
  destruct (samples_decoded_monotone (C := env_second_chunk_fails) 20
              run_second_chunk_fails H) as (new & Hlog & Hchain & _).
  exists new.
  change (log run_second_chunk_fails) with (@nil Event) in Hlog.
  rewrite app_nil_r in Hlog. split; [exact Hlog|].
  split.
  - replace 10485760 with
      (samples_decoded
         (ds (final (decode_proc (C := env_second_chunk_fails) 20
                       run_second_chunk_fails))))
      by (vm_compute; reflexivity).
    exact Hchain.
  - rewrite <- Hlog. vm_compute. tauto.
Defined.

(** ** A failed feed call ends the run *)

Section FeedFailure.
Context {C : Collaborators}.

Lemma pushed_app (row : Row) (l l' : list Event) :
  pushed row (l ++ l') = pushed row l' ++ pushed row l.
Proof.
  induction l as [|e l IH]; simpl.
  - by rewrite app_nil_r.
  - destruct e; try exact IH.
    destruct (decide (row0 = row)); [|exact IH].
    by rewrite IH, app_assoc.
Qed.

Lemma last_accepted_end_app (l l' : list Event) (d : Z) :
  last_accepted_end (l ++ l') d =
  last_accepted_end l (last_accepted_end l' d).
Proof.
  induction l as [|e l IH]; simpl; [reflexivity|].
  destruct e; try exact IH. destruct (ret0 =? SRD_OK); [reflexivity|exact IH].
Qed.

Lemma no_send_accepted_end (l : list Event) (d : Z) :
  Forall (fun e => is_send e = false) l -> last_accepted_end l d = d.
Proof.
  induction 1 as [|e l He _ IH]; simpl; [reflexivity|].
  destruct e; try exact IH. discriminate He.
Qed.

Lemma no_send_not_failed (l : list Event) :
  Forall (fun e => is_send e = false) l ->
  Forall (fun e => is_failed_send e = false) l.
Proof.
  intros H. eapply Forall_impl; [exact H|]. intros e He.
  destruct e; try reflexivity. discriminate He.
Qed.

Lemma no_push_pushed (row : Row) (l : list Event) :
  Forall (fun e => is_push e = false) l -> pushed row l = [].
Proof.
  induction 1 as [|e l He _ IH]; simpl; [reflexivity|].
  destruct e; try exact IH. discriminate He.
Qed.

Lemma callback_events_no_send (cb : list Event) :
  Forall (fun e => is_callback_event e = true) cb ->
  Forall (fun e => is_send e = false) cb.
Proof.
  intros H. eapply Forall_impl; [exact H|]. intros e He. by destruct e.
Qed.

Lemma isEmpty_false (s : string) : isEmpty s = false <-> s <> EmptyString.
Proof. destruct s; simpl; split; congruence. Qed.

(** A stretch that did nothing about feeding. *)
Lemma feed_summary_idle (w : World) (r : Res unit) :
  log (final r) = log w ->
  rows_ (ds (final r)) = rows_ (ds w) ->
  samples_decoded_ (ds (final r)) = samples_decoded_ (ds w) ->
  error_message_ (ds (final r)) = error_message_ (ds w) ->
  feed_summary w r [].
Proof.
  intros Hlog Hrows Hsd Herr. unfold feed_summary. simpl.
  split; [exact Hlog|]. split.
  { intros row. by rewrite Hrows, app_nil_r. }
  split; [exact Hsd|]. left. split; [constructor|exact Herr].
Qed.

(** Feeding that continues after a stretch without a failed call. *)
Lemma feed_summary_seq (w w1 : World) (r : Res unit) (new1 new2 : list Event) :
  log w1 = new1 ++ log w ->
  (forall row,
     store (rows_ (ds w1)) row = store (rows_ (ds w)) row ++ pushed row new1) ->
  samples_decoded_ (ds w1) =
    last_accepted_end new1 (samples_decoded_ (ds w)) ->
  Forall (fun e => is_failed_send e = false) new1 ->
  error_message_ (ds w1) = error_message_ (ds w) ->
  feed_summary w1 r new2 ->
  feed_summary w r (new2 ++ new1).
Proof.
  intros Hlog1 Hst1 Hsd1 Hok1 Herr1 (Hlog2 & Hst2 & Hsd2 & Hcases).
  unfold feed_summary. split.
  { rewrite Hlog2, Hlog1. by rewrite app_assoc. }
  split.
  { intros row. rewrite Hst2, Hst1, pushed_app. by rewrite app_assoc. }
  split.
  { rewrite Hsd2, Hsd1. by rewrite last_accepted_end_app. }
  destruct Hcases as [[Hok2 Herr2]|
                      (w' & i & ce & len & us & ret & before &
                       Hr & Hnew & Hret & Hbefore & Herr2)].
  - left. split; [by apply Forall_app|]. by rewrite Herr2.
  - right. exists w', i, ce, len, us, ret, (before ++ new1).
    split; [exact Hr|]. split; [by rewrite Hnew|].
    split; [exact Hret|]. split; [by apply Forall_app|exact Herr2].
Qed.

Lemma decode_data_loop_feed (fuel : nat) (i sc us c : Z) (w : World) :
  exists new, feed_summary w (decode_data_loop fuel i sc us c w) new.
Proof.
  revert i w. induction fuel as [|fuel IH]; intros i w.
  - exists []. by apply feed_summary_idle.
  - rewrite decode_data_loop_S.
    assert (Hidle : forall r : Res unit, final r = sync w ->
                      feed_summary w r []).
    { intros r Hr. apply feed_summary_idle; rewrite Hr.
      - apply sync_log.
      - apply sync_rows.
      - apply sync_samples_decoded.
      - apply sync_error_message. }
    destruct (negb (negb (interrupt_ (ds (sync w))) && (i <? sc)));
      [exists []; by apply Hidle|].
    destruct (INT64_MAX <? i + c); [exists []; by apply Hidle|].
    set (ce := Z.min (i + c) sc).
    destruct (sent_world_log i ce us (sync w)) as (cb & Hlog & Hcb & Hst).
    rewrite sync_log in Hlog. rewrite sync_rows in Hst.
    pose proof (sent_world_samples_decoded i ce us (sync w)) as Hsd.
    rewrite sync_samples_decoded in Hsd.
    pose proof (sent_world_error_message i ce us (sync w)) as Herr.
    rewrite sync_error_message in Herr.
    pose proof (callback_events_no_send cb Hcb) as Hns.
    destruct (negb (send_status i ce us (sync w) =? SRD_OK)) eqn:Hret.
    + exists (EvSend i ce ((ce - i) * us) us (send_status i ce us (sync w))
                :: cb).
      unfold feed_summary. cbn [final log upd_ds ds rows_ samples_decoded_
                                  set_error_message].
      split; [by rewrite Hlog|]. split; [exact Hst|]. split.
      { rewrite Hsd. cbn [last_accepted_end].
        apply negb_true_iff in Hret. rewrite Hret.
        by rewrite no_send_accepted_end. }
      right. eexists _, i, ce, _, us, _, cb.
      split; [reflexivity|]. split; [reflexivity|].
      split.
      { apply negb_true_iff, Z.eqb_neq in Hret. exact Hret. }
      split; [by apply no_send_not_failed|]. discriminate.
    + destruct (IH (i + c) (advanced_world ce (sent_world i ce us (sync w))))
        as (new & Hsum).
      exists (new ++ EvSamplesDecoded (samples_decoded_ (ds w)) ce ::
                     EvSend i ce ((ce - i) * us) us
                       (send_status i ce us (sync w)) :: cb).
      eapply feed_summary_seq; [| | | | |exact Hsum].
      * cbn [advanced_world log add_log upd_ds]. by rewrite Hlog, Hsd.
      * intros row. cbn [advanced_world ds add_log upd_ds rows_
                           set_samples_decoded pushed]. apply Hst.
      * cbn [advanced_world ds add_log upd_ds samples_decoded_
               set_samples_decoded last_accepted_end].
        apply negb_false_iff in Hret. by rewrite Hret.
      * constructor; [reflexivity|]. constructor.
        { cbn. exact Hret. }
        by apply no_send_not_failed.
      * cbn [advanced_world ds add_log upd_ds error_message_
               set_samples_decoded]. exact Herr.
Qed.

Lemma decode_data_feed (fuel : nat) (abs sc us : Z) (w : World) :
  exists new, feed_summary w (decode_data fuel abs sc us w) new.
Proof.
  rewrite decode_data_eq.
  destruct (segment_ (ds w)) as [seg|];
    [|exists []; by apply feed_summary_idle].
  destruct (unit_size_of seg =? 0); [exists []; by apply feed_summary_idle|].
  apply decode_data_loop_feed.
Qed.

Lemma decode_rounds_feed (fuel : nat) (abs sc us : Z) (w : World) :
  exists new, feed_summary w (decode_rounds fuel abs sc us w) new.
Proof.
  revert abs sc w. induction fuel as [|fuel IH]; intros abs sc w.
  - exists []. by apply feed_summary_idle.
  - rewrite decode_rounds_S.
    destruct (decode_data_feed fuel abs sc us w) as (new1 & Hsum1).
    destruct (decode_data fuel abs sc us w) as [[] w1|s w1];
      [|exists new1; exact Hsum1].
    destruct (isEmpty (error_message_ (ds w1))) eqn:Hempty;
      [|exists new1; exact Hsum1].
    destruct Hsum1 as (Hlog1 & Hst1 & Hsd1 & Hcases). cbn [final] in *.
    destruct Hcases as [[Hok1 Herr1]|
                        (w' & i & ce & len & us' & ret & before &
                         Hr & _ & _ & _ & Herr)].
    2:{ inversion Hr; subst w'. apply isEmpty_false in Herr. congruence. }
    pose proof (wait_for_data_preserves (fun w => log w) fuel w1 sync_log)
      as Hwl.
    pose proof (wait_for_data_preserves (fun w => rows_ (ds w)) fuel w1
                  sync_rows) as Hwr.
    pose proof (wait_for_data_preserves
                  (fun w => samples_decoded_ (ds w)) fuel w1
                  sync_samples_decoded) as Hws.
    pose proof (wait_for_data_preserves
                  (fun w => error_message_ (ds w)) fuel w1
                  sync_error_message) as Hwe.
    cbn beta in Hwl, Hwr, Hws, Hwe.
    assert (Hstop : forall r : Res unit,
              final r = final (wait_for_data fuel w1) ->
              feed_summary w r new1).
    { intros r Hr. rewrite <- (app_nil_l new1).
      eapply feed_summary_seq; try eassumption.
      apply feed_summary_idle; rewrite Hr; assumption. }
    destruct (wait_for_data fuel w1) as [[sc'|] w2|s w2] eqn:Hwait;
      cbn [final] in *.
    + destruct (IH sc sc' w2) as (new2 & Hsum2).
      exists (new2 ++ new1).
      eapply feed_summary_seq; [| | | | |exact Hsum2].
      * by rewrite Hwl.
      * intros row. by rewrite Hwr.
      * by rewrite Hws.
      * exact Hok1.
      * by rewrite Hwe.
    + exists new1. by apply Hstop.
    + exists new1. by apply Hstop.
Qed.

End FeedFailure.

Section FeedFailureRun.
Context {C : Collaborators}.

Lemma existsb_not_failed (l : list Event) :
  Forall (fun e => is_failed_send e = false) l ->
  existsb is_failed_send l = false.
Proof.
  induction 1 as [|e l He _ IH]; simpl; [reflexivity|]. by rewrite He, IH.
Qed.

Lemma inst_events_no_send (evs : list Event) :
  Forall (fun e => is_inst_event e = true) evs ->
  Forall (fun e => is_send e = false) evs.
Proof.
  intros H. eapply Forall_impl; [exact H|]. intros e He. by destruct e.
Qed.

Lemma inst_events_no_push (evs : list Event) :
  Forall (fun e => is_inst_event e = true) evs ->
  Forall (fun e => is_push e = false) evs.
Proof.
  intros H. eapply Forall_impl; [exact H|]. intros e He. by destruct e.
Qed.

(** C2: in a run in which the engine rejects a chunk, that feed call is
    the last one of the run: the thread records a non-empty message and
    returns after the final notification and the tear-down, with
    [samples_decoded_] at the end of the last chunk the engine accepted
    (its initial value if there is none) and with every annotation that
    was pushed, before or during the rejected call, still in its
    store. *)
Theorem feed_failure_ends_run (fuel : nat) (w : World) :
  log w = [] ->
  existsb is_failed_send (log (final (decode_proc fuel w))) = true ->
  exists w' i ce len us ret before,
    decode_proc fuel w = Ok tt w' /\
    log w' =
      EvSessionDestroy :: EvNewAnnotations ::
      EvSend i ce len us ret :: before /\
    ret <> SRD_OK /\
    Forall (fun e => is_failed_send e = false) before /\
    error_message (ds w') <> EmptyString /\
    samples_decoded (ds w') =
      last_accepted_end before (samples_decoded_ (ds w)) /\
    forall row,
      store (rows_ (ds w')) row =
      store (rows_ (ds w)) row ++ pushed row (log w').
Proof.
  intros Hnil Hfailed. rewrite decode_proc_eq in Hfailed |- *.
  destruct (segment_ (ds w)) as [seg|].
  2:{ cbn in Hfailed. rewrite Hnil in Hfailed. discriminate. }
  destruct (create_decoders_spec (stack_ (ds w)) None (add_log EvSessionNew w))
    as (evs & Hevs & [[_ Hcreate]|[_ Hcreate]]);
    rewrite Hcreate in Hfailed |- *.
  2:{ cbn in Hfailed. rewrite Hnil in Hfailed.
      rewrite existsb_app, (existsb_not_failed evs) in Hfailed;
        [discriminate|].
      by apply no_send_not_failed, inst_events_no_send. }
  set (w0 := add_logs evs (add_log EvSessionNew w)) in *.
  set (pre := [EvSessionStart; EvCallbackAdd;
               EvMetadataSet (samplerate_ (ds (sync w0)))]
              ++ evs ++ [EvSessionNew]).
  assert (Hpre_send : Forall (fun e => is_send e = false) pre).
  { unfold pre. repeat constructor. apply Forall_app.
    split; [by apply inst_events_no_send|]. repeat constructor. }
  assert (Hpre_push : Forall (fun e => is_push e = false) pre).
  { unfold pre. repeat constructor. apply Forall_app.
    split; [by apply inst_events_no_push|]. repeat constructor. }
  assert (Hw1 : log (loop_entry w0) = pre).
  { rewrite loop_entry_log. unfold pre, w0. cbn. by rewrite Hnil. }
  destruct (decode_rounds_feed fuel 0 (sample_count_ (ds (loop_entry w0)))
              (unit_size_of seg) (loop_entry w0))
    as (new & Hlog & Hst & Hsd & Hcases).
  rewrite Hw1 in Hlog.
  rewrite loop_entry_rows in Hst. rewrite loop_entry_samples_decoded in Hsd.
  change (rows_ (ds w0)) with (rows_ (ds w)) in Hst.
  change (samples_decoded_ (ds w0)) with (samples_decoded_ (ds w)) in Hsd.
  destruct Hcases as [[Hok _]|
                      (w2 & i & ce & len & us & ret & before &
                       Hr & Hnew & Hret & Hbefore & Herr)].
  - exfalso.
    assert (Hall : Forall (fun e => is_failed_send e = false) (new ++ pre)).
    { apply Forall_app. split; [exact Hok|by apply no_send_not_failed]. }
    apply existsb_not_failed in Hall.
    destruct (decode_rounds fuel 0 _ (unit_size_of seg) (loop_entry w0))
      as [[] w2|s w2]; cbn in Hfailed, Hlog; rewrite Hlog in Hfailed;
      unfold pre in Hall; cbn in Hall; congruence.
  - rewrite Hr in Hlog, Hst, Hsd |- *. cbn [final] in Hlog, Hst, Hsd.
    exists (add_log EvSessionDestroy (add_log EvNewAnnotations w2)),
      i, ce, len, us, ret, (before ++ pre).
    split; [reflexivity|]. cbn [log add_log ds].
    split; [by rewrite Hlog, Hnew|].
    split; [exact Hret|].
    split; [apply Forall_app; split;
            [exact Hbefore|by apply no_send_not_failed]|].
    split; [exact Herr|].
    split.
    + unfold samples_decoded. rewrite Hsd, Hnew. cbn [last_accepted_end].
      apply Z.eqb_neq in Hret. rewrite Hret.
      by rewrite last_accepted_end_app, (no_send_accepted_end pre).
    + intros row. rewrite Hst, Hlog, Hnew. cbn [pushed app].
      by rewrite pushed_app, (no_push_pushed row pre).
Qed.

End FeedFailureRun.

Lemma feed_failure_ends_run_witness :
  exists w' before,
    decode_proc (C := env_second_chunk_fails) 20 run_second_chunk_fails
      = Ok tt w' /\
    log w' =
      EvSessionDestroy :: EvNewAnnotations ::
      EvSend 10485760 20971520 10485760 1 (-1) :: before /\
    error_message (ds w') = "Decoder reported an error"%string /\
    samples_decoded (ds w') = 10485760 /\
    length (store (rows_ (ds w')) (Row_of_ann_row 1 10)) = 2%nat.
Proof.
  destruct (feed_failure_ends_run (C := env_second_chunk_fails) 20
              run_second_chunk_fails)
    as (w' & i & ce & len & us & ret & before &
        Hrun & Hlog & _ & _ & _ & _ & _).
  { reflexivity. }
  { vm_compute. reflexivity. }
  exists w', before.
  assert (Hw' : w' = final (decode_proc (C := env_second_chunk_fails) 20
                              run_second_chunk_fails))
    by (rewrite Hrun; reflexivity).
  split; [exact Hrun|].
  assert (Hl : log w' =
               log (final (decode_proc (C := env_second_chunk_fails) 20
                             run_second_chunk_fails)))
    by (rewrite Hw'; reflexivity).
  split.
  - rewrite Hlog in Hl |- *.
    assert (Hhd : nth_error
                    (log (final (decode_proc (C := env_second_chunk_fails) 20
                                   run_second_chunk_fails))) 2 =
                  Some (EvSend 10485760 20971520 10485760 1 (-1)))
      by (vm_compute; reflexivity).
    rewrite <- Hl in Hhd. cbn in Hhd. inversion Hhd. reflexivity.
  - rewrite Hw'. vm_compute. repeat split; reflexivity.
Defined.

(** ** Notifications *)

Section NotifyCount.
Context {C : Collaborators}.

Lemma due_zero (n : Z) : due n 0 = 0.
Proof. unfold due. rewrite Z.add_0_r. lia. Qed.

Lemma due_one (n : Z) :
  due n 1 = if n mod DecodeNotifyPeriod =? 0 then 1 else 0.
Proof.
  unfold due, DecodeNotifyPeriod.
  destruct (Z.eqb_spec (n mod 1024) 0) as [Hz|Hnz];
    Z.to_euclidean_division_equations; lia.
Qed.

Lemma due_add (n p q : Z) : due n (p + q) = due n p + due (n + p) q.
Proof.
  unfold due. replace (n + (p + q)) with (n + p + q) by lia. lia.
Qed.

Lemma due_congr (n n' p : Z) :
  n mod UINT64_MOD = n' mod UINT64_MOD -> due n p = due n' p.
Proof.
  unfold due, DecodeNotifyPeriod, UINT64_MOD. intros H.
  Z.to_euclidean_division_equations. lia.
Qed.

Lemma count_events_app (f : Event -> bool) (l l' : list Event) :
  count_events f (l ++ l') = count_events f l + count_events f l'.
Proof. induction l as [|e l IH]; simpl; [reflexivity|]. rewrite IH. lia. Qed.

Lemma count_events_none (f : Event -> bool) (l : list Event) :
  Forall (fun e => f e = false) l -> count_events f l = 0.
Proof.
  induction 1 as [|e l He _ IH]; simpl; [reflexivity|]. by rewrite He, IH.
Qed.

Lemma notified_refl (w : World) : notified w w 0.
Proof.
  exists 0. rewrite due_zero, !Z.add_0_r. repeat split; lia.
Qed.

Lemma notified_trans (w w1 w2 : World) (e1 e2 : Z) :
  notified w w1 e1 -> notified w1 w2 e2 -> notified w w2 (e1 + e2).
Proof.
  intros (p1 & Hp1 & Hpush1 & Hcnt1 & Hn1) (p2 & Hp2 & Hpush2 & Hcnt2 & Hn2).
  exists (p1 + p2). split; [lia|]. split; [lia|]. split.
  - rewrite Hcnt2. rewrite Z.add_mod by (unfold UINT64_MOD; lia).
    rewrite Hcnt1. rewrite <- Z.add_mod by (unfold UINT64_MOD; lia).
    f_equal. lia.
  - rewrite Hn2, Hn1, due_add.
    rewrite (due_congr (annotation_count_ (ds w1))
               (annotation_count_ (ds w) + p1)).
    + lia.
    + exact Hcnt1.
Qed.

(** A stretch that stores nothing and notifies nobody. *)
Lemma notified_frame (w w' : World) (l : list Event) :
  log w' = l ++ log w ->
  Forall (fun e => is_push e = false) l ->
  Forall (fun e => is_notification e = false) l ->
  annotation_count_ (ds w') = annotation_count_ (ds w) ->
  notified w w' 0.
Proof.
  intros Hlog Hpush Hnot Hcnt. exists 0.
  rewrite Hlog, !count_events_app, Hcnt, due_zero.
  rewrite (count_events_none _ _ Hpush), (count_events_none _ _ Hnot).
  rewrite (Z.add_0_r (annotation_count_ (ds w))).
  repeat split; lia.
Qed.

Lemma notified_after_push (row : Row) (a : Annotation) (rd : RowData)
    (w : World) :
  notified w (after_push row a rd w) 0.
Proof.
  exists 1. split; [lia|].
  rewrite after_push_log, after_push_count, due_one.
  split; [|split].
  - rewrite count_events_app.
    destruct (annotation_count_ (ds w) mod DecodeNotifyPeriod =? 0);
      cbn; lia.
  - apply Z.mod_mod. unfold UINT64_MOD. lia.
  - rewrite count_events_app.
    destruct (annotation_count_ (ds w) mod DecodeNotifyPeriod =? 0);
      cbn; lia.
Qed.

Lemma notified_callbacks (pds : list srd_proto_data) (w : World) :
  notified w (callbacks_world pds w) 0.
Proof.
  revert w. induction pds as [|pdata rest IH]; intros w.
  - apply notified_refl.
  - rewrite callbacks_world_cons.
    change 0 with (0 + 0). eapply notified_trans; [|apply IH].
    destruct (rows_ (ds w) !! _) as [rd|].
    + apply notified_after_push.
    + eapply (notified_frame _ _ [_]); [reflexivity| | |reflexivity];
        repeat constructor.
Qed.

Lemma notified_step (w w1 w2 : World) (l : list Event) :
  notified w w1 0 ->
  log w2 = l ++ log w1 ->
  Forall (fun e => is_push e = false) l ->
  Forall (fun e => is_notification e = false) l ->
  annotation_count_ (ds w2) = annotation_count_ (ds w1) ->
  notified w w2 0.
Proof.
  intros H1 Hlog Hpush Hnot Hcnt. change 0 with (0 + 0).
  eapply notified_trans; [exact H1|]. by eapply notified_frame.
Qed.

Lemma notified_sync (w : World) : notified w (sync w) 0.
Proof.
  apply (notified_frame _ _ []); [by rewrite sync_log|constructor..|].
  apply sync_annotation_count.
Qed.

Lemma notified_sent (i ce us : Z) (w : World) :
  notified w (sent_world i ce us w) 0.
Proof.
  unfold sent_world.
  eapply (notified_step _ _ _ [_]);
    [|reflexivity|repeat constructor..|reflexivity].
  change 0 with (0 + 0). eapply notified_trans; [|apply notified_callbacks].
  apply (notified_frame _ _ []); [reflexivity|constructor..|reflexivity].
Qed.

Lemma notified_decode_data_loop (fuel : nat) (i sc us c : Z) (w : World) :
  notified w (final (decode_data_loop fuel i sc us c w)) 0.
Proof.
  revert i w. induction fuel as [|fuel IH]; intros i w.
  - apply notified_refl.
  - rewrite decode_data_loop_S.
    destruct (negb (negb (interrupt_ (ds (sync w))) && (i <? sc)));
      [apply notified_sync|].
    destruct (INT64_MAX <? i + c); [apply notified_sync|].
    set (ce := Z.min (i + c) sc).
    assert (Hsent : notified w (sent_world i ce us (sync w)) 0).
    { change 0 with (0 + 0).
      eapply notified_trans; [apply notified_sync|apply notified_sent]. }
    destruct (negb (send_status i ce us (sync w) =? SRD_OK)).
    + eapply (notified_step _ _ _ []);
        [exact Hsent|reflexivity|constructor..|reflexivity].
    + change 0 with (0 + 0). eapply notified_trans; [|apply IH].
      eapply (notified_step _ _ _ [_]);
        [exact Hsent|reflexivity|repeat constructor..|reflexivity].
Qed.

Lemma notified_decode_data (fuel : nat) (abs sc us : Z) (w : World) :
  notified w (final (decode_data fuel abs sc us w)) 0.
Proof.
  rewrite decode_data_eq.
  destruct (segment_ (ds w)) as [seg|]; [|apply notified_refl].
  destruct (unit_size_of seg =? 0); [apply notified_refl|].
  apply notified_decode_data_loop.
Qed.

Lemma notified_wait (fuel : nat) (w : World) :
  notified w (final (wait_for_data fuel w)) 0.
Proof.
  apply (notified_frame _ _ []); [|constructor..|].
  - apply (wait_for_data_preserves (fun w => log w)), sync_log.
  - apply (wait_for_data_preserves (fun w => annotation_count_ (ds w))),
      sync_annotation_count.
Qed.

Lemma notified_decode_rounds (fuel : nat) (abs sc us : Z) (w : World) :
  notified w (final (decode_rounds fuel abs sc us w)) 0.
Proof.
  revert abs sc w. induction fuel as [|fuel IH]; intros abs sc w.
  - apply notified_refl.
  - rewrite decode_rounds_S.
    pose proof (notified_decode_data fuel abs sc us w) as H1.
    destruct (decode_data fuel abs sc us w) as [[] w1|s w1];
      cbn [final] in *; [|exact H1].
    destruct (isEmpty (error_message_ (ds w1))); [|exact H1].
    pose proof (notified_wait fuel w1) as H2.
    assert (H12 : notified w (final (wait_for_data fuel w1)) 0).
    { change 0 with (0 + 0). eapply notified_trans; eassumption. }
    destruct (wait_for_data fuel w1) as [[sc'|] w2|s w2];
      cbn [final] in *; try exact H12.
    change 0 with (0 + 0). eapply notified_trans; [exact H12|apply IH].
Qed.

(** C8: the callback that stores an annotation notifies the frontend
    exactly when the annotation counter it increments was a multiple of
    [DecodeNotifyPeriod] = 1024; whenever the feed/wait loop of
    [decode_proc] exits, whatever made it exit, the thread emits one more
    notification and then destroys the session.  Counted over a run that
    starts with the counter at 0: when [P] annotations have been stored,
    the callback has notified ceil(P / 1024) times, and a run that has
    left its loop has notified once more. *)
Theorem new_annotations_periodic_and_final :
  DecodeNotifyPeriod = 1024 /\
  (forall (pdata : srd_proto_data) (w : World) (rd : RowData),
     let row := classify (class_rows_ (ds w)) (pd_decoder pdata)
                  (pd_ann_class pdata) in
     rows_ (ds w) !! row = Some rd ->
     exists w',
       annotation_callback pdata w = Ok tt w' /\
       annotation_count_ (ds w') =
         (annotation_count_ (ds w) + 1) mod UINT64_MOD /\
       log w' =
         (if annotation_count_ (ds w) mod DecodeNotifyPeriod =? 0
          then [EvNewAnnotations; EvPush row (Annotation_of pdata)]
          else [EvPush row (Annotation_of pdata)]) ++ log w) /\
  (forall (fuel : nat) (w : World) (seg : LogicSegment),
     segment_ (ds w) = Some seg ->
     Forall (fun dec => is_Some (create_decoder_inst dec)) (stack_ (ds w)) ->
     let w1 := loop_entry (final (create_decoders (stack_ (ds w)) None
                                    (add_log EvSessionNew w))) in
     (forall w2,
        decode_rounds fuel 0 (sample_count_ (ds w1)) (unit_size_of seg) w1
          = Ok tt w2 ->
        decode_proc fuel w =
          Ok tt (add_log EvSessionDestroy (add_log EvNewAnnotations w2)) /\
        log (final (decode_proc fuel w)) =
          EvSessionDestroy :: EvNewAnnotations :: log w2) /\
     (log w = [] -> annotation_count_ (ds w) = 0 ->
      count_events is_notification (log (final (decode_proc fuel w))) =
        (count_events is_push (log (final (decode_proc fuel w)))
           + 1023) / 1024 +
        match decode_proc fuel w with Ok _ _ => 1 | Halt _ _ => 0 end)).
Proof.
  split; [reflexivity|]. split.
  - intros pdata w rd row Hrow. eexists.
    rewrite annotation_callback_eq. fold row. rewrite Hrow.
    split; [reflexivity|].
    by rewrite after_push_count, after_push_log.
  - intros fuel w seg Hseg Hall.
    destruct (create_decoders_spec (stack_ (ds w)) None
                (add_log EvSessionNew w))
      as (evs & Hevs & [[_ Hcreate]|[Hex _]]).
    2:{ exfalso. apply Exists_exists in Hex as (dec & Hin & Hnone).
        rewrite Forall_forall in Hall. specialize (Hall dec Hin).
        rewrite Hnone in Hall. by destruct Hall. }
    intros w1. subst w1. rewrite Hcreate. cbn [final].
    set (w0 := add_logs evs (add_log EvSessionNew w)).
    split.
    + intros w2 Hexit.
      rewrite decode_proc_eq, Hseg, Hcreate. fold w0. rewrite Hexit.
      split; reflexivity.
    + intros Hnil Hzero.
      rewrite decode_proc_eq, Hseg, Hcreate. fold w0.
      assert (Hentry : notified w (loop_entry w0) 0).
      { eapply (notified_frame _ _ (_ :: _ :: _ :: evs ++ [EvSessionNew])).
        - rewrite loop_entry_log. unfold w0. cbn [log add_logs add_log app].
          rewrite <- app_assoc. reflexivity.
        - repeat constructor. apply Forall_app.
          split; [by apply inst_events_no_push|repeat constructor].
        - repeat constructor. apply Forall_app.
          split; [|repeat constructor].
          eapply Forall_impl; [exact Hevs|]. intros e He. by destruct e.
        - by rewrite loop_entry_annotation_count. }
      pose proof (notified_decode_rounds fuel 0
                    (sample_count_ (ds (loop_entry w0))) (unit_size_of seg)
                    (loop_entry w0)) as Hrounds.
      assert (Hrun : notified w
                (final (decode_rounds fuel 0
                          (sample_count_ (ds (loop_entry w0)))
                          (unit_size_of seg) (loop_entry w0))) 0).
      { change 0 with (0 + 0). eapply notified_trans; eassumption. }
      clear Hentry Hrounds.
      destruct Hrun as (p & Hp & Hpush & _ & Hnot).
      rewrite Hnil, Hzero in *. cbn [count_events] in Hpush, Hnot.
      unfold due, DecodeNotifyPeriod in Hnot.
      destruct (decode_rounds fuel 0 _ (unit_size_of seg) (loop_entry w0))
        as [[] w2|s w2]; cbn [final log add_log count_events is_push
                               is_notification] in *.
      * rewrite Hnot, Hpush.
        replace (0 + p + (1024 - 1)) with (p + 1023) by lia.
        replace ((0 + (1024 - 1)) / 1024) with 0 by reflexivity.
        replace (0 + (0 + (0 + p)) + 1023) with (p + 1023) by lia. lia.
      * rewrite Hnot, Hpush.
        replace (0 + p + (1024 - 1)) with (p + 1023) by lia.
        replace ((0 + (1024 - 1)) / 1024) with 0 by reflexivity.
        replace (0 + p + 1023) with (p + 1023) by lia. lia.
Qed.

End NotifyCount.

Lemma new_annotations_periodic_and_final_witness :
  (exists w',
     annotation_callback (C := env_second_chunk_fails)
       (ann_of_chunk 1 1 0 8) run_second_chunk_fails = Ok tt w' /\
     log w' = [EvNewAnnotations;
               EvPush (Row_of_ann_row 1 10)
                 (Annotation_of (ann_of_chunk 1 1 0 8))]) /\
  (exists l,
     log (final (decode_proc (C := env_second_chunk_fails) 20
                   run_second_chunk_fails)) =
     EvSessionDestroy :: EvNewAnnotations :: l) /\
  count_events is_notification
    (log (final (decode_proc (C := env_second_chunk_fails) 20
                   run_second_chunk_fails))) = 2.
Proof.
  destruct (new_annotations_periodic_and_final (C := env_second_chunk_fails))
    as (_ & Hcb & Hfin).
  split.
  - destruct (Hcb (ann_of_chunk 1 1 0 8) run_second_chunk_fails RowData_empty)
      as (w' & Hret & _ & Hlog); [reflexivity|].
    exists w'. split; [exact Hret|]. rewrite Hlog. reflexivity.
  - pose (w1 := loop_entry (C := env_second_chunk_fails)
                  (final (create_decoders (C := env_second_chunk_fails)
                            (stack_ (ds run_second_chunk_fails)) None
                            (add_log EvSessionNew run_second_chunk_fails)))).
    pose (w2 := final (decode_rounds (C := env_second_chunk_fails) 20 0
                         (sample_count_ (ds w1)) 1 w1)).
    destruct (Hfin 20%nat run_second_chunk_fails seg_one_byte)
      as [Hexit Hcount].
    + reflexivity.
    + repeat constructor; by eexists.
    + split.
      * destruct (Hexit w2) as [_ Hlog]; [vm_compute; reflexivity|].
        exists (log w2). exact Hlog.
      * rewrite (Hcount eq_refl eq_refl). vm_compute. reflexivity.
Defined.

(** ** Chunked feeding *)

Section Chunks.
Context {C : Collaborators}.

Lemma chunks_needed_zero (m c : Z) :
  0 < c -> chunks_needed m c = 0%nat -> m <= 0.
Proof.
  unfold chunks_needed. intros Hc H.
  destruct (Z.le_gt_cases m 0) as [Hle|Hgt]; [exact Hle|exfalso].
  assert (1 <= (m + c - 1) / c).
  { apply Z.div_le_lower_bound; lia. }
  lia.
Qed.

Lemma chunks_needed_succ (m c : Z) (n : nat) :
  0 < c -> chunks_needed m c = S n ->
  0 < m /\ n = chunks_needed (m - c) c.
Proof.
  unfold chunks_needed. intros Hc H.
  assert (Hm : 0 < m).
  { destruct (Z.le_gt_cases m 0) as [Hle|Hgt]; [exfalso|exact Hgt].
    assert ((m + c - 1) / c < 1).
    { apply Z.div_lt_upper_bound; lia. }
    lia. }
  split; [exact Hm|].
  replace (m + c - 1) with ((m - 1) + 1 * c) in H by lia.
  rewrite Z.div_add in H by lia.
  replace (m - c + c - 1) with (m - 1) by lia.
  assert (0 <= (m - 1) / c) by (apply Z.div_pos; lia).
  lia.
Qed.

Lemma sends_app (l l' : list Event) : sends (l ++ l') = sends l' ++ sends l.
Proof.
  induction l as [|e l IH]; simpl.
  - by rewrite app_nil_r.
  - destruct (is_send e); [|exact IH]. by rewrite IH, app_assoc.
Qed.

Lemma no_send_sends (l : list Event) :
  Forall (fun e => is_send e = false) l -> sends l = [].
Proof.
  induction 1 as [|e l He _ IH]; simpl; [reflexivity|]. by rewrite He.
Qed.

Lemma expected_sends_length (n : nat) (i sc us c : Z) :
  length (expected_sends n i sc us c) = n.
Proof.
  revert i. induction n as [|n IH]; intros i; simpl; [reflexivity|].
  by rewrite IH.
Qed.

Lemma sync_interrupt (w : World) :
  never_interrupted ->
  interrupt_ (ds (sync w)) = interrupt_ (ds w).
Proof.
  intros Hnever. unfold sync. cbn [tick ds]. specialize (Hnever (clock w)).
  revert Hnever. generalize (sched (clock w)). intros evs. revert w.
  induction evs as [|e evs IH]; intros w Hnever; simpl; [reflexivity|].
  inversion Hnever as [|? ? He Hrest]; subst.
  rewrite IH by exact Hrest.
  destruct e; simpl; try reflexivity; try congruence;
    unfold on_data_received, on_frame_ended;
    destruct (segment_ (ds w)); reflexivity.
Qed.

Lemma decode_data_loop_complete (n fuel : nat) (i sc us c : Z) (w : World) :
  0 < c -> sc + c <= INT64_MAX ->
  engine_accepts -> never_interrupted ->
  interrupt_ (ds w) = false ->
  n = chunks_needed (sc - i) c ->
  (n < fuel)%nat ->
  exists w' new,
    decode_data_loop fuel i sc us c w = Ok tt w' /\
    log w' = new ++ log w /\
    sends new = expected_sends n i sc us c /\
    (i < sc -> samples_decoded_ (ds w') = sc) /\
    (sc <= i -> samples_decoded_ (ds w') = samples_decoded_ (ds w)) /\
    error_message_ (ds w') = error_message_ (ds w).
Proof.
  intros Hc Hmax Hacc Hnever.
  revert fuel i w. induction n as [|n IH]; intros fuel i w Hint Hn Hfuel;
    (destruct fuel as [|fuel]; [lia|]); rewrite decode_data_loop_S;
    rewrite (sync_interrupt w Hnever), Hint; cbn [negb andb].
  - symmetry in Hn. apply chunks_needed_zero in Hn; [|exact Hc].
    destruct (Z.ltb_spec i sc) as [Hlt|Hge]; [lia|]. cbn [negb].
    exists (sync w), []. split; [reflexivity|].
    rewrite sync_log, sync_samples_decoded, sync_error_message.
    repeat split; try reflexivity. intros; lia.
  - symmetry in Hn. apply chunks_needed_succ in Hn as [Hpos Hn]; [|exact Hc].
    destruct (Z.ltb_spec i sc) as [Hlt|Hge]; [|lia]. cbn [negb].
    destruct (Z.ltb_spec INT64_MAX (i + c)) as [Hov|_]; [lia|].
    set (ce := Z.min (i + c) sc).
    assert (Hstatus : send_status i ce us (sync w) = SRD_OK)
      by apply Hacc.
    rewrite Hstatus. cbn [Z.eqb SRD_OK negb].
    destruct (sent_world_log i ce us (sync w)) as (cb & Hlog & Hcb & _).
    rewrite sync_log, Hstatus in Hlog.
    pose proof (sent_world_error_message i ce us (sync w)) as Herr.
    rewrite sync_error_message in Herr.
    pose proof (sent_world_interrupt i ce us (sync w)) as Hint'.
    rewrite (sync_interrupt w Hnever), Hint in Hint'.
    destruct (IH fuel (i + c)
                (advanced_world ce (sent_world i ce us (sync w))))
      as (w' & new & Hrun & Hlog' & Hsends & Hlt' & Hge' & Herr').
    { exact Hint'. }
    { rewrite Hn. f_equal. lia. }
    { lia. }
    exists w', (new ++ EvSamplesDecoded
                         (samples_decoded_ (ds (sent_world i ce us (sync w))))
                         ce ::
                       EvSend i ce ((ce - i) * us) us SRD_OK :: cb).
    split; [exact Hrun|]. split.
    { rewrite Hlog'. cbn [advanced_world log add_log upd_ds].
      rewrite Hlog. by rewrite <- app_assoc. }
    split.
    { rewrite sends_app, Hsends. cbn [sends is_send expected_sends].
      rewrite (no_send_sends cb) by (by apply callback_events_no_send).
      reflexivity. }
    split.
    { intros _. destruct (Z.lt_ge_cases (i + c) sc) as [Hin|Hout].
      - by apply Hlt'.
      - rewrite Hge' by lia. cbn. unfold ce. lia. }
    split; [intros; lia|].
    rewrite Herr'. cbn. exact Herr.
Qed.

(** C5: [decode_data] feeds the samples from [abs_start_samplenum] up to
    [sample_count] in chunks of [DecodeChunkLength / unit size] samples,
    the last one cut at [sample_count]; when the engine accepts every
    chunk and nobody interrupts, it returns after exactly
    ceil((sample_count - abs_start_samplenum) / chunk) feed calls, the
    ones listed by [expected_sends], with [samples_decoded()] equal to
    [sample_count] and the error message untouched (so empty in a fresh
    run). *)
Theorem decode_data_chunks
    (fuel : nat) (abs N us : Z) (w : World) (seg : LogicSegment) :
  segment_ (ds w) = Some seg ->
  0 < unit_size_of seg <= DecodeChunkLength ->
  engine_accepts -> never_interrupted ->
  interrupt_ (ds w) = false ->
  let c := DecodeChunkLength / unit_size_of seg in
  0 <= abs <= N -> N + c <= INT64_MAX ->
  samples_decoded_ (ds w) = abs ->
  (chunks_needed (N - abs) c < fuel)%nat ->
  chunk_sample_count_of (unit_size_of seg) = c /\
  exists w' new,
    decode_data fuel abs N us w = Ok tt w' /\
    log w' = new ++ log w /\
    sends new = expected_sends (chunks_needed (N - abs) c) abs N us c /\
    length (sends new) = Z.to_nat ((N - abs + c - 1) / c) /\
    samples_decoded (ds w') = N /\
    error_message (ds w') = error_message (ds w).
Proof.
  intros Hseg [Hus_lo Hus_hi] Hacc Hnever Hint c Habs Hmax Hsd Hfuel.
  assert (Hc : chunk_sample_count_of (unit_size_of seg) = c).
  { unfold chunk_sample_count_of, c. apply Z.mod_small.
    split; [apply Z.div_pos; [unfold DecodeChunkLength|]; lia|].
    apply Z.le_lt_trans with DecodeChunkLength; [|reflexivity].
    apply Z.div_le_upper_bound; [lia|].
    unfold DecodeChunkLength in *. nia. }
  assert (Hcpos : 0 < c).
  { unfold c. apply Z.div_str_pos. lia. }
  split; [exact Hc|].
  rewrite decode_data_eq, Hseg.
  destruct (Z.eqb_spec (unit_size_of seg) 0) as [Hz|_]; [lia|].
  rewrite Hc.
  destruct (decode_data_loop_complete (chunks_needed (N - abs) c) fuel
              abs N us c w Hcpos Hmax Hacc Hnever Hint eq_refl Hfuel)
    as (w' & new & Hrun & Hlog & Hsends & Hlt & Hge & Herr).
  exists w', new. split; [exact Hrun|]. split; [exact Hlog|].
  split; [exact Hsends|]. split.
  { rewrite Hsends. apply expected_sends_length. }
  split; [|exact Herr].
  unfold samples_decoded.
  destruct (Z.lt_ge_cases abs N) as [Hin|Hout]; [by apply Hlt|].
  rewrite Hge by lia. lia.
Qed.

(** With chunks of 250,000 samples the loop of [decode_data] covers
    1,000,000 samples in four feed calls. *)
Example decode_data_loop_four_chunks (us : Z) (w : World) :
  engine_accepts -> never_interrupted -> interrupt_ (ds w) = false ->
  exists w' new,
    decode_data_loop 5 0 1000000 us 250000 w = Ok tt w' /\
    log w' = new ++ log w /\
    sends new =
      [EvSend 0 250000 (250000 * us) us SRD_OK;
       EvSend 250000 500000 (250000 * us) us SRD_OK;
       EvSend 500000 750000 (250000 * us) us SRD_OK;
       EvSend 750000 1000000 (250000 * us) us SRD_OK] /\
    samples_decoded_ (ds w') = 1000000.
Proof.
  intros Hacc Hnever Hint.
  destruct (decode_data_loop_complete 4 5 0 1000000 us 250000 w
              ltac:(lia) ltac:(unfold INT64_MAX; lia) Hacc Hnever Hint
              eq_refl ltac:(lia))
    as (w' & new & Hrun & Hlog & Hsends & Hlt & _ & _).
  exists w', new. split; [exact Hrun|]. split; [exact Hlog|].
  split; [exact Hsends|]. by apply Hlt.
Qed.

(** The chunk length is a constant of 10 MiB: no unit size makes chunks of
    exactly 250,000 samples, and with one byte per sample 1,000,000
    samples fit in a single chunk. *)
Remark chunk_of_250000_samples_unreachable (us : Z) :
  chunk_sample_count_of us <> 250000.
Proof.
  unfold chunk_sample_count_of, DecodeChunkLength, UINT32_MOD.
  replace (10 * 1024 * 1024) with 10485760 by reflexivity.
  destruct (Z.lt_trichotomy us 0) as [Hneg|[->|Hpos]].
  - pose proof (Z.div_mod 10485760 us ltac:(lia)) as Hdm.
    pose proof (Z.mod_neg_bound 10485760 us Hneg) as Hr.
    assert (Hq : -10485760 <= 10485760 / us <= -1) by nia.
    rewrite <- (Z.mod_add _ 1) by lia.
    rewrite Z.mod_small by lia. lia.
  - discriminate.
  - pose proof (Z.div_mod 10485760 us ltac:(lia)) as Hdm.
    pose proof (Z.mod_pos_bound 10485760 us Hpos) as Hr.
    assert (Hq : 0 <= 10485760 / us <= 10485760) by nia.
    rewrite Z.mod_small by lia. nia.
Qed.

Remark chunks_needed_examples :
  chunks_needed 1000000 250000 = 4%nat /\
  chunks_needed 1000000 (chunk_sample_count_of 1) = 1%nat.
Proof. split; reflexivity. Qed.

End Chunks.

Lemma decode_data_chunks_witness :
  exists w' new,
    decode_data (C := env_quiet) 5 0 30000000 1 run_quiet_30M = Ok tt w' /\
    log w' = new /\
    sends new =
      [EvSend 0 10485760 10485760 1 SRD_OK;
       EvSend 10485760 20971520 10485760 1 SRD_OK;
       EvSend 20971520 30000000 9028480 1 SRD_OK] /\
    samples_decoded (ds w') = 30000000 /\
    error_message (ds w') = EmptyString.
Proof.
  destruct (decode_data_chunks (C := env_quiet) 5 0 30000000 1
              run_quiet_30M seg_one_byte)
    as (_ & w' & new & Hrun & Hlog & Hsends & _ & Hsd & Herr).
  - reflexivity.
  - vm_compute. split; [reflexivity|discriminate].
  - intros s i e chunk len us. reflexivity.
  - intros t. destruct t as [|[|[|t]]]; repeat constructor; discriminate.
  - reflexivity.
  - lia.
  - vm_compute. discriminate.
  - reflexivity.
  - vm_compute. lia.
  - exists w', new. split; [exact Hrun|].
    split; [rewrite Hlog; apply app_nil_r|].
    split; [rewrite Hsends; reflexivity|].
    split; [exact Hsd|exact Herr].
Defined.

(** ** Restarting *)

Section Restart.
Context {C : Collaborators}.

Lemma all_empty_insert (m : gmap Row RowData) (row : Row) :
  all_empty m -> all_empty (<[row := RowData_empty]> m).
Proof.
  intros Hm row' rd. destruct (decide (row = row')) as [->|Hne].
  - rewrite lookup_insert_eq. congruence.
  - rewrite lookup_insert_ne by done. apply Hm.
Qed.

Lemma add_decoder_rows_empty (stack : list Decoder)
    (st : gmap Row RowData * gmap (N * Z) Row) :
  all_empty (fst st) ->
  all_empty (fst (fold_left add_decoder_rows stack st)).
Proof.
  revert st. induction stack as [|dec rest IH]; intros st Hst; [exact Hst|].
  simpl. apply IH. unfold add_decoder_rows.
  assert (Hrows : forall rows st0,
            all_empty (fst st0) ->
            all_empty (fst (fold_left
                              (add_ann_row (srd_addr (decoder dec)))
                              rows st0))).
  { induction rows as [|r rows IHr]; intros st0 H0; [exact H0|].
    simpl. apply IHr. simpl. by apply all_empty_insert. }
  apply Hrows.
  destruct (annotation_rows (decoder dec)); [|exact Hst].
  simpl. by apply all_empty_insert.
Qed.

Lemma all_empty_store (m : gmap Row RowData) (row : Row) :
  all_empty m -> store m row = [].
Proof.
  intros Hm. unfold store. destruct (m !! row) as [rd|] eqn:Hrow;
    [|reflexivity].
  by rewrite (Hm _ _ Hrow).
Qed.

Ltac begin_decode_cases d x stack thr :=
  destruct d as [stack ? ? ? ? ? ? ? ? ? ? ? thr];
  destruct x as [? ? ? ? ?];
  destruct thr;
  cbv beta iota zeta delta
    [begin_decode add_classes join clear
     set_stack set_segment set_times set_sample_count set_frame_complete
     set_samples_decoded set_annotation_count set_error_message set_rows
     set_class_rows set_interrupt set_decode_thread
     x_rows x_error_message x_annotation_count x_samples_decoded
     x_sample_count stack_ segment_ start_time_ samplerate_ sample_count_
     frame_complete_ samples_decoded_ annotation_count_ error_message_
     rows_ class_rows_ interrupt_ decode_thread_ samples_decoded
     error_message];
  (destruct (missing_required_channels stack);
   [|destruct (fold_left add_decoder_rows stack (∅, ∅)) as [? ?];
     cbv beta iota delta [fst snd];
     (destruct (find_logic_data stack) as [data|];
      [destruct (logic_segments data) as [|? ?]|])]).

Lemma begin_decode_index (x : ThreadExit) (d : DecoderStack) :
  (rows_ (begin_decode x d), class_rows_ (begin_decode x d)) =
  if missing_required_channels (stack_ d) then (∅, ∅)
  else fold_left add_decoder_rows (stack_ d) (∅, ∅).
Proof. begin_decode_cases d x stack thr; reflexivity. Qed.

Lemma begin_decode_counters (x : ThreadExit) (d : DecoderStack) :
  sample_count_ (begin_decode x d) = 0 /\
  annotation_count_ (begin_decode x d) = 0 /\
  frame_complete_ (begin_decode x d) = false /\
  samples_decoded_ (begin_decode x d) = 0 /\
  (if missing_required_channels (stack_ d)
   then error_message_ (begin_decode x d) =
        tr "One or more required channels have not been specified"%string
   else error_message_ (begin_decode x d) = EmptyString).
Proof.
  begin_decode_cases d x stack thr; repeat split; reflexivity.
Qed.

Lemma begin_decode_rows (x : ThreadExit) (d : DecoderStack) :
  rows_ (begin_decode x d) =
  fst (if missing_required_channels (stack_ d)
       then ((∅ : gmap (N * option N) RowData),
             (∅ : gmap (N * Z) (N * option N)))
       else fold_left add_decoder_rows (stack_ d) (∅, ∅)).
Proof. begin_decode_cases d x stack thr; reflexivity. Qed.

Lemma begin_decode_all_empty (x : ThreadExit) (d : DecoderStack) :
  all_empty (rows_ (begin_decode x d)).
Proof.
  rewrite begin_decode_rows.
  destruct (missing_required_channels (stack_ d)).
  - intros row rd. cbn [fst]. rewrite lookup_empty. discriminate.
  - apply add_decoder_rows_empty. intros row rd. cbn [fst].
    rewrite lookup_empty. discriminate.
Qed.

Lemma begin_decode_class_rows (x : ThreadExit) (d : DecoderStack) :
  class_rows_ (begin_decode x d) =
  snd (if missing_required_channels (stack_ d)
       then ((∅ : gmap (N * option N) RowData),
             (∅ : gmap (N * Z) (N * option N)))
       else fold_left add_decoder_rows (stack_ d) (∅, ∅)).
Proof. begin_decode_cases d x stack thr; reflexivity. Qed.

Lemma add_class_rows_lookup (decc : N) (row : Row) (classes : list Z)
    (cr : gmap (N * Z) Row) (key : N * Z) (row' : Row) :
  add_class_rows decc row classes cr !! key = Some row' ->
  row' = row \/ cr !! key = Some row'.
Proof.
  unfold add_class_rows. revert cr.
  induction classes as [|cls classes IH]; intros cr H; simpl in H;
    [by right|].
  destruct (IH _ H) as [->|H']; [by left|].
  destruct (decide ((decc, cls) = key)) as [<-|Hne].
  - rewrite lookup_insert_eq in H'. left. congruence.
  - rewrite lookup_insert_ne in H' by done. by right.
Qed.

Lemma add_ann_row_resolves (decc : N)
    (st : gmap Row RowData * gmap (N * Z) Row)
    (ann_row : srd_decoder_annotation_row) :
  resolves st -> resolves (add_ann_row decc st ann_row).
Proof.
  intros Hst key row' H. unfold add_ann_row in *. cbn [fst snd] in *.
  apply add_class_rows_lookup in H as [->|H].
  - rewrite lookup_insert_eq. by eexists.
  - apply lookup_insert_is_Some'. right. by apply (Hst key).
Qed.

Lemma add_decoder_rows_resolves (stack : list Decoder)
    (st : gmap Row RowData * gmap (N * Z) Row) :
  resolves st -> resolves (fold_left add_decoder_rows stack st).
Proof.
  revert st. induction stack as [|dec rest IH]; intros st Hst; [exact Hst|].
  simpl. apply IH. unfold add_decoder_rows.
  assert (Hrows : forall rows st0,
            resolves st0 ->
            resolves (fold_left (add_ann_row (srd_addr (decoder dec)))
                        rows st0)).
  { induction rows as [|r rows IHr]; intros st0 H0; [exact H0|].
    simpl. apply IHr. by apply add_ann_row_resolves. }
  apply Hrows.
  destruct (annotation_rows (decoder dec)); [|exact Hst].
  intros key row' H. cbn [fst snd] in *.
  apply lookup_insert_is_Some'. right. by apply (Hst key).
Qed.

(** The index [begin_decode] builds is closed: a class that is found in
    the class map always resolves to a row that exists, so that only an
    annotation of an undeclared class of a decoder with declared rows,
    or of an unknown decoder, can be dropped by the callback. *)
Lemma begin_decode_class_rows_resolve (x : ThreadExit) (d : DecoderStack)
    (key : N * Z) (row : Row) :
  class_rows_ (begin_decode x d) !! key = Some row ->
  is_Some (rows_ (begin_decode x d) !! row).
Proof.
  rewrite begin_decode_class_rows, begin_decode_rows.
  destruct (missing_required_channels (stack_ d)).
  - cbn [fst snd]. rewrite lookup_empty. discriminate.
  - apply (add_decoder_rows_resolves (stack_ d) (∅, ∅)).
    intros key' row' H. cbn [snd] in H. rewrite lookup_empty in H.
    discriminate.
Qed.

(** With an empty segment that stays empty an observation changes none
    of the counts. *)
Lemma sync_empty (w : World) :
  segment_stays_empty ->
  segment_sample_count w = 0%N -> sample_count_ (ds w) = 0 ->
  segment_sample_count (sync w) = 0%N /\ sample_count_ (ds (sync w)) = 0.
Proof.
  intros Hempty. unfold sync. cbn [tick ds segment_sample_count].
  specialize (Hempty (clock w)). revert Hempty.
  generalize (sched (clock w)). intros evs. revert w.
  induction evs as [|e evs IH]; intros w Hevs Hseg Hsc; simpl; [done|].
  inversion Hevs as [|? ? He Hrest]; subst.
  apply IH; [exact Hrest| |].
  - destruct e; cbn; try exact Hseg.
    + rewrite (He n eq_refl), Hseg. reflexivity.
    + unfold on_data_received. destruct (segment_ (ds w)); exact Hseg.
    + unfold on_frame_ended. destruct (segment_ (ds w)); exact Hseg.
  - destruct e; cbn; try exact Hsc.
    + unfold on_data_received. destruct (segment_ (ds w)); cbn;
        [by rewrite Hseg|exact Hsc].
    + unfold on_frame_ended. destruct (segment_ (ds w)); exact Hsc.
Qed.

Lemma observed_empty (n : nat) (w : World) :
  segment_stays_empty ->
  segment_sample_count w = 0%N -> sample_count_ (ds w) = 0 ->
  sample_count_ (ds (observed n w)) = 0.
Proof.
  intros Hempty. revert w. induction n as [|n IH]; intros w Hseg Hsc;
    [exact Hsc|].
  simpl. destruct (sync_empty w Hempty Hseg Hsc) as [Hseg' Hsc'].
  by apply IH.
Qed.

(** One round over an empty segment: nothing is fed, and the wait ends
    the run or never returns. *)
Lemma decode_rounds_empty (fuel : nat) (us : Z) (w : World) :
  segment_stays_empty ->
  segment_sample_count w = 0%N -> sample_count_ (ds w) = 0 ->
  samples_decoded_ (ds w) = 0 ->
  log (final (decode_rounds fuel 0 0 us w)) = log w /\
  rows_ (ds (final (decode_rounds fuel 0 0 us w))) = rows_ (ds w) /\
  samples_decoded_ (ds (final (decode_rounds fuel 0 0 us w))) = 0 /\
  annotation_count_ (ds (final (decode_rounds fuel 0 0 us w))) =
    annotation_count_ (ds w).
Proof.
  intros Hempty Hseg Hsc Hsd.
  destruct fuel as [|fuel]; [by repeat split|].
  rewrite decode_rounds_S, decode_data_eq.
  destruct (segment_ (ds w)) as [seg|]; [|by repeat split].
  destruct (unit_size_of seg =? 0); [by repeat split|].
  destruct fuel as [|fuel]; [by repeat split|].
  rewrite decode_data_loop_S.
  replace (0 <? 0) with false by reflexivity.
  rewrite andb_false_r. cbn [negb].
  destruct (sync_empty w Hempty Hseg Hsc) as [Hseg1 Hsc1].
  assert (Hkeep : forall w2,
            (exists n, w2 = observed n (sync w)) ->
            log w2 = log w /\ rows_ (ds w2) = rows_ (ds w) /\
            samples_decoded_ (ds w2) = 0 /\
            annotation_count_ (ds w2) = annotation_count_ (ds w)).
  { intros w2 [n ->].
    rewrite (observed_preserves (fun w => log w) sync_log),
      (observed_preserves (fun w => rows_ (ds w)) sync_rows),
      (observed_preserves (fun w => samples_decoded_ (ds w))
         sync_samples_decoded),
      (observed_preserves (fun w => annotation_count_ (ds w))
         sync_annotation_count).
    by rewrite sync_log, sync_rows, sync_samples_decoded,
      sync_annotation_count. }
  destruct (isEmpty (error_message_ (ds (sync w)))).
  2:{ apply Hkeep. by exists 0%nat. }
  destruct (wait_for_data_final (S fuel) (sync w)) as [n Hn].
  destruct (wait_for_data (S fuel) (sync w)) as [[sc'|] w2|s w2] eqn:Hwait;
    cbn [final] in Hn.
  - exfalso. apply wait_for_data_some in Hwait as (Hsc' & Hlt & _).
    destruct (Hkeep w2 (ex_intro _ n Hn)) as (_ & _ & Hsd2 & _).
    rewrite Hn in Hsc'.
    rewrite (observed_empty n (sync w) Hempty Hseg1 Hsc1) in Hsc'. lia.
  - apply Hkeep. by exists n.
  - apply Hkeep. by exists n.
Qed.

Lemma empty_segment_run (d' : DecoderStack) (fuel : nat)
    (s : capture_state) (e : srd_session) :
  sample_count_ d' = 0 -> annotation_count_ d' = 0 ->
  samples_decoded_ d' = 0 -> all_empty (rows_ d') ->
  segment_stays_empty ->
  samples_decoded_ (ds (final (decode_proc fuel (start_world d' s 0 e)))) = 0
  /\
  annotation_count_ (ds (final (decode_proc fuel (start_world d' s 0 e))))
    = 0 /\
  (forall row,
     store (rows_ (ds (final (decode_proc fuel (start_world d' s 0 e)))))
       row = []) /\
  Forall (fun ev => is_send ev = false /\ is_push ev = false)
    (log (final (decode_proc fuel (start_world d' s 0 e)))).
Proof.
  intros Hsc Hac Hsd Hall Hempty.
  set (w := start_world d' s 0 e).
  rewrite decode_proc_eq.
  destruct (segment_ (ds w)) as [seg|].
  2:{ cbn [final ds log add_log w start_world].
      split; [exact Hsd|]. split; [exact Hac|].
      split; [intros row; by apply all_empty_store|].
      repeat constructor. }
  destruct (create_decoders_spec (stack_ (ds w)) None (add_log EvSessionNew w))
    as (evs & Hevs & [[_ Hcreate]|[_ Hcreate]]); rewrite Hcreate.
  2:{ cbn [final ds log add_log add_logs upd_ds w start_world
           samples_decoded_ annotation_count_ rows_ set_error_message].
      split; [exact Hsd|]. split; [exact Hac|].
      split; [intros row; by apply all_empty_store|].
      constructor; [by split|]. apply Forall_app. split.
      - eapply Forall_impl; [exact Hevs|]. intros ev Hev. by destruct ev.
      - repeat constructor. }
  set (w0 := add_logs evs (add_log EvSessionNew w)).
  destruct (sync_empty w0 Hempty eq_refl Hsc) as [Hseg1 Hsc1].
  assert (Hentry : sample_count_ (ds (loop_entry w0)) = 0).
  { rewrite loop_entry_sample_count. by rewrite Hseg1. }
  rewrite Hentry.
  destruct (decode_rounds_empty fuel (unit_size_of seg) (loop_entry w0)
              Hempty)
    as (Hlog & Hrows & Hsd' & Hac').
  { unfold loop_entry. cbn [segment_sample_count add_log upd_ds].
    exact Hseg1. }
  { exact Hentry. }
  { rewrite loop_entry_samples_decoded. exact Hsd. }
  rewrite loop_entry_log in Hlog. rewrite loop_entry_rows in Hrows.
  rewrite loop_entry_annotation_count in Hac'.
  change (rows_ (ds w0)) with (rows_ d') in Hrows.
  change (annotation_count_ (ds w0)) with (annotation_count_ d') in Hac'.
  change (log w0) with (evs ++ [EvSessionNew]) in Hlog.
  assert (Hquiet : Forall (fun ev => is_send ev = false /\ is_push ev = false)
                     (log (final (decode_rounds fuel 0 0 (unit_size_of seg)
                                    (loop_entry w0))))).
  { rewrite Hlog. cbn [app]. repeat (constructor; [by split|]).
    apply Forall_app. split.
    - eapply Forall_impl; [exact Hevs|]. intros ev Hev. by destruct ev.
    - repeat constructor. }
  destruct (decode_rounds fuel 0 0 (unit_size_of seg) (loop_entry w0))
    as [[] w2|st w2]; cbn [final] in *; cbn [ds log add_log].
  - split; [exact Hsd'|]. split; [by rewrite Hac'|].
    split; [intros row; rewrite Hrows; by apply all_empty_store|].
    repeat (constructor; [by split|]). exact Hquiet.
  - split; [exact Hsd'|]. split; [by rewrite Hac'|].
    split; [intros row; rewrite Hrows; by apply all_empty_store|].
    exact Hquiet.
Qed.

End Restart.

(** * Further properties of the class *)

(** ** [push] and [remove] together *)

Lemma push_length (d : Decoder) (s : list Decoder) :
  length (push d s) = S (length s).
Proof. unfold push. rewrite length_app. simpl. lia. Qed.

Lemma remove_in_range (index : Z) (s : list Decoder) :
  0 <= index < Z.of_nat (length s) ->
  remove index s =
  inr (take (Z.to_nat index) s ++ drop (S (Z.to_nat index)) s).
Proof.
  intros [Hlo Hhi]. unfold remove, remove_in, assert_in. simpl.
  rewrite remove_advance_in_range by lia. simpl. unfold erase.
  destruct (Nat.ltb_spec (Z.to_nat index) (length s)); [reflexivity|lia].
Qed.

(** X1: Removing what was just pushed gives the stack back, and removing an
    older element commutes with the push: [push] appends at the end and
    moves nothing. *)
Theorem remove_after_push (d : Decoder) (s : list Decoder) :
  remove (Z.of_nat (length s)) (push d s) = inr s /\
  forall (index : Z) (s' : list Decoder),
    0 <= index < Z.of_nat (length s) ->
    remove index s = inr s' ->
    remove index (push d s) = inr (push d s').
Proof.
  split.
  - rewrite remove_in_range by (rewrite push_length; lia).
    rewrite Nat2Z.id. unfold push.
    rewrite take_app_length.
    rewrite drop_ge by (rewrite length_app; simpl; lia).
    by rewrite app_nil_r.
  - intros index s' Hrange Hr.
    rewrite remove_in_range in Hr by exact Hrange.
    inversion Hr as [Hs']. 
    rewrite remove_in_range by (rewrite push_length; lia).
    unfold push. f_equal.
    rewrite take_app_le by lia.
    rewrite drop_app_le by lia.
    by rewrite app_assoc.
Qed.

Lemma remove_after_push_witness :
  remove 2 (push dec_unbound [dec_uart; dec_plain]) =
    inr [dec_uart; dec_plain] /\
  remove 0 (push dec_unbound [dec_uart; dec_plain]) =
    inr (push dec_unbound [dec_plain]).
Proof.
  destruct (remove_after_push dec_unbound [dec_uart; dec_plain])
    as [Hlast Hold].
  split; [exact Hlast|].
  apply (Hold 0 [dec_plain]); [simpl; lia|reflexivity].
Defined.

(** ** The row index and the visible rows *)

Section RowIndex.

Ltac begin_decode_split d x stack thr :=
  destruct d as [stack ? ? ? ? ? ? ? ? ? ? ? thr];
  destruct x as [? ? ? ? ?];
  destruct thr;
  cbv beta iota zeta delta
    [begin_decode add_classes join clear first_segment get_visible_rows
     set_stack set_segment set_times set_sample_count set_frame_complete
     set_samples_decoded set_annotation_count set_error_message set_rows
     set_class_rows set_interrupt set_decode_thread
     x_rows x_error_message x_annotation_count x_samples_decoded
     x_sample_count stack_ segment_ start_time_ samplerate_ sample_count_
     frame_complete_ samples_decoded_ annotation_count_ error_message_
     rows_ class_rows_ interrupt_ decode_thread_ samples_decoded
     error_message];
  (destruct (missing_required_channels stack);
   [|destruct (fold_left add_decoder_rows stack (∅, ∅)) as [? ?];
     cbv beta iota delta [fst snd];
     (destruct (find_logic_data stack) as [data|];
      [destruct (logic_segments data) as [|? ?]|])]).

Lemma begin_decode_stack (x : ThreadExit) (d : DecoderStack) :
  stack_ (begin_decode x d) = stack_ d.
Proof. begin_decode_split d x stack thr; reflexivity. Qed.

(** The rows every decoder of the stack contributes, shown or not. *)
Lemma ann_rows_keys (decc : N) (rows : list srd_decoder_annotation_row)
    (st : gmap Row RowData * gmap (N * Z) Row) (row : Row) :
  is_Some (fst (fold_left (add_ann_row decc) rows st) !! row) <->
  is_Some (fst st !! row) \/
  row ∈ map (fun ann_row => Row_of_ann_row decc (ann_row_addr ann_row)) rows.
Proof.
  revert st. induction rows as [|r rows IH]; intros st; simpl.
  - split; [by left|]. intros [H|H]; [exact H|]. by apply not_elem_of_nil in H.
  - rewrite IH. unfold add_ann_row at 1. cbn [fst].
    rewrite lookup_insert_is_Some, elem_of_cons.
    split.
    + intros [[<-|[_ H]]|H]; [right; by left|by left|right; by right].
    + intros [H|[->|H]].
      * destruct (decide (Row_of_ann_row decc (ann_row_addr r) = row));
          left; [by left|by right].
      * left. by left.
      * by right.
Qed.

Lemma decoder_rows_keys (stack : list Decoder)
    (st : gmap Row RowData * gmap (N * Z) Row) (row : Row) :
  is_Some (fst (fold_left add_decoder_rows stack st) !! row) <->
  is_Some (fst st !! row) \/
  exists dec, dec ∈ stack /\ row ∈ rows_of_decoder (decoder dec).
Proof.
  revert st. induction stack as [|dec rest IH]; intros st; simpl.
  - split; [by left|]. intros [H|(dec & Hin & _)]; [exact H|].
    by apply not_elem_of_nil in Hin.
  - rewrite IH. unfold add_decoder_rows at 1. rewrite ann_rows_keys.
    unfold rows_of_decoder.
    split.
    + intros [[H|H]|(dec' & Hin & H)].
      * destruct (annotation_rows (decoder dec)) eqn:Hrows.
        -- cbn [fst] in H. apply lookup_insert_is_Some in H as [<-|[_ H]].
           ++ right. exists dec. split; [by left|].
              rewrite Hrows. apply elem_of_app. left. by left.
           ++ by left.
        -- by left.
      * right. exists dec. split; [by left|].
        apply elem_of_app. by right.
      * right. exists dec'. split; [by right|exact H].
    + intros [H|(dec' & Hin & H)].
      * left. left. destruct (annotation_rows (decoder dec)); [|exact H].
        cbn [fst]. apply lookup_insert_is_Some'. by right.
      * apply elem_of_cons in Hin as [->|Hin].
        -- left. apply elem_of_app in H as [H|H].
           ++ left. destruct (annotation_rows (decoder dec));
                [|by apply not_elem_of_nil in H].
              apply list_elem_of_singleton in H as ->. cbn [fst].
              rewrite lookup_insert_eq. by eexists.
           ++ by right.
        -- right. by exists dec'.
Qed.

Lemma visible_rows_of_elem (stack : list Decoder) (row : Row) :
  row ∈ visible_rows_of stack <->
  exists dec, dec ∈ stack /\ shown dec = true /\
              row ∈ rows_of_decoder (decoder dec).
Proof.
  induction stack as [|dec rest IH]; simpl.
  - split; [intros H; by apply not_elem_of_nil in H|].
    intros (dec & Hin & _). by apply not_elem_of_nil in Hin.
  - rewrite elem_of_app, IH. split.
    + intros [H|(dec' & Hin & Hs & H)].
      * destruct (shown dec) eqn:Hshown; simpl in H;
          [|by apply not_elem_of_nil in H].
        exists dec. split; [by left|done].
      * exists dec'. split; [by right|done].
    + intros (dec' & Hin & Hs & H).
      apply elem_of_cons in Hin as [->|Hin].
      * left. by rewrite Hs.
      * right. by exists dec'.
Qed.

(** X2: After a [begin_decode] that found every required channel, each row
    [get_visible_rows] reports is a row of the index, with an empty
    store; and when every decoder of the stack is shown the index has no
    other rows. *)
Theorem visible_rows_are_indexed (x : ThreadExit) (d : DecoderStack) :
  missing_required_channels (stack_ d) = false ->
  (forall row,
     row ∈ get_visible_rows (begin_decode x d) ->
     rows_ (begin_decode x d) !! row = Some RowData_empty) /\
  ((forall dec, dec ∈ stack_ d -> shown dec = true) ->
   forall row,
     is_Some (rows_ (begin_decode x d) !! row) ->
     row ∈ get_visible_rows (begin_decode x d)).
Proof.
  intros Hmiss.
  assert (Hkeys : forall row,
            is_Some (rows_ (begin_decode x d) !! row) <->
            exists dec, dec ∈ stack_ d /\ row ∈ rows_of_decoder (decoder dec)).
  { intros row. rewrite begin_decode_rows, Hmiss, decoder_rows_keys.
    cbn [fst]. rewrite lookup_empty. split.
    - intros [[? H]|H]; [discriminate|exact H].
    - intros H. by right. }
  unfold get_visible_rows. rewrite begin_decode_stack.
  split.
  - intros row Hrow. apply visible_rows_of_elem in Hrow
      as (dec & Hin & _ & Hrow).
    destruct (proj2 (Hkeys row)) as [rd Hrd]; [by exists dec|].
    rewrite Hrd. f_equal. by apply (begin_decode_all_empty x d row).
  - intros Hshown row Hrow. apply Hkeys in Hrow as (dec & Hin & Hrow).
    apply visible_rows_of_elem. exists dec. auto.
Qed.

End RowIndex.

Lemma visible_rows_are_indexed_witness :
  missing_required_channels (stack_ (used_stack [dec_uart; dec_plain]))
    = false /\
  get_visible_rows (begin_decode exit_idle (used_stack [dec_uart; dec_plain]))
    = [Row_of_ann_row 1 10; Row_of_decoder 2] /\
  rows_ (begin_decode exit_idle (used_stack [dec_uart; dec_plain]))
    !! Row_of_decoder 2 = Some RowData_empty.
Proof.
  assert (H : missing_required_channels
                (stack_ (used_stack [dec_uart; dec_plain])) = false)
    by reflexivity.
  split; [exact H|]. split; [reflexivity|].
  destruct (visible_rows_are_indexed exit_idle
              (used_stack [dec_uart; dec_plain]) H) as [Hvis _].
  apply Hvis. apply elem_of_cons. right. apply elem_of_cons. by left.
Defined.

(** ** [begin_decode]: when a thread is started *)

Section ThreadStart.

Ltac begin_decode_split d x stack thr :=
  destruct d as [stack ? ? ? ? ? ? ? ? ? ? ? thr];
  destruct x as [? ? ? ? ?];
  destruct thr;
  cbv beta iota zeta delta
    [begin_decode add_classes join clear first_segment
     set_stack set_segment set_times set_sample_count set_frame_complete
     set_samples_decoded set_annotation_count set_error_message set_rows
     set_class_rows set_interrupt set_decode_thread
     x_rows x_error_message x_annotation_count x_samples_decoded
     x_sample_count stack_ segment_ start_time_ samplerate_ sample_count_
     frame_complete_ samples_decoded_ annotation_count_ error_message_
     rows_ class_rows_ interrupt_ decode_thread_ samples_decoded
     error_message];
  (destruct (missing_required_channels stack);
   [|destruct (fold_left add_decoder_rows stack (∅, ∅)) as [? ?];
     cbv beta iota delta [fst snd];
     (destruct (find_logic_data stack) as [data|];
      [destruct (logic_segments data) as [|? ?]|])]).


(** X4: Calling [begin_decode] again gives the object the first call gave,
    whatever the thread started by the first call did before it was
    joined: every field the thread writes is cleared and rebuilt. *)
Theorem begin_decode_again (x1 x2 : ThreadExit) (d : DecoderStack) :
  begin_decode x2 (begin_decode x1 d) = begin_decode x1 d.
Proof.
  destruct d as [stack ? ? ? ? ? ? ? ? ? ? ? thr].
  destruct x1 as [? ? ? ? ?]. destruct x2 as [? ? ? ? ?].
  destruct (missing_required_channels stack) eqn:Hmiss;
    destruct (fold_left add_decoder_rows stack (∅, ∅)) as [? ?] eqn:Hrows;
    destruct (find_logic_data stack) as [data|] eqn:Hdata;
    try destruct (logic_segments data) as [|? ?] eqn:Hseg;
    destruct thr;
    repeat (progress
      (cbv beta iota zeta delta
         [begin_decode add_classes join clear fst snd
          set_stack set_segment set_times set_sample_count
          set_frame_complete set_samples_decoded set_annotation_count
          set_error_message set_rows set_class_rows set_interrupt
          set_decode_thread x_rows x_error_message x_annotation_count
          x_samples_decoded x_sample_count stack_ segment_ start_time_
          samplerate_ sample_count_ frame_complete_ samples_decoded_
          annotation_count_ error_message_ rows_ class_rows_ interrupt_
          decode_thread_];
       rewrite ?Hmiss, ?Hrows, ?Hdata, ?Hseg));
    reflexivity.
Qed.

End ThreadStart.


(** ** The decode thread, step by step *)

Section Steps.
Context {C : Collaborators}.

Lemma steps_add_logs (l : list Event) (w : World) :
  rtc thread_step w (add_logs l w).
Proof.
  induction l as [|e l IH].
  - destruct w; apply rtc_refl.
  - eapply rtc_r; [exact IH|].
    change (add_logs (e :: l) w) with (add_log e (add_logs l w)).
    constructor.
Qed.

Lemma steps_after_push (row : Row) (a : Annotation) (rd : RowData)
    (w : World) :
  rows_ (ds w) !! row = Some rd ->
  rtc thread_step w (after_push row a rd w).
Proof.
  intros Hrow. unfold after_push.
  destruct (annotation_count_ (ds w) mod DecodeNotifyPeriod =? 0).
  - eapply rtc_r; [apply rtc_once, step_store, Hrow|constructor].
  - apply rtc_once, step_store, Hrow.
Qed.

Lemma steps_callbacks (pds : list srd_proto_data) (w : World) :
  rtc thread_step w (callbacks_world pds w).
Proof.
  revert w. induction pds as [|pdata rest IH]; intros w.
  - apply rtc_refl.
  - rewrite callbacks_world_cons.
    destruct (rows_ (ds w) !! _) as [rd|] eqn:Hrow.
    + etrans; [apply steps_after_push, Hrow|apply IH].
    + eapply rtc_l; [apply step_action|apply IH].
Qed.

Lemma steps_sent_world (i chunk_end us : Z) (w : World) :
  rtc thread_step w (sent_world i chunk_end us w).
Proof.
  unfold sent_world.
  eapply rtc_r; [|apply step_action].
  eapply rtc_l; [apply step_engine|apply steps_callbacks].
Qed.

Lemma steps_decode_data_loop (fuel : nat) (i sc us c : Z) (w : World) :
  rtc thread_step w (final (decode_data_loop fuel i sc us c w)).
Proof.
  revert i w. induction fuel as [|fuel IH]; intros i w.
  - apply rtc_refl.
  - rewrite decode_data_loop_S.
    assert (Hsync : rtc thread_step w (sync w))
      by apply rtc_once, step_observe.
    destruct (negb (negb (interrupt_ (ds (sync w))) && (i <? sc)));
      [exact Hsync|].
    destruct (INT64_MAX <? i + c); [exact Hsync|].
    assert (Hsent : rtc thread_step w
                      (sent_world i (Z.min (i + c) sc) us (sync w)))
      by (etrans; [exact Hsync|apply steps_sent_world]).
    destruct (negb (send_status i (Z.min (i + c) sc) us (sync w)
                    =? SRD_OK)).
    + eapply rtc_r; [exact Hsent|apply step_error].
    + etrans; [|apply IH]. unfold advanced_world.
      eapply rtc_r; [|apply step_action].
      eapply rtc_r; [exact Hsent|apply step_decoded].
Qed.

Lemma steps_decode_data (fuel : nat) (abs sc us : Z) (w : World) :
  rtc thread_step w (final (decode_data fuel abs sc us w)).
Proof.
  rewrite decode_data_eq.
  destruct (segment_ (ds w)) as [seg|]; [|apply rtc_refl].
  destruct (unit_size_of seg =? 0); [apply rtc_refl|].
  apply steps_decode_data_loop.
Qed.

Lemma steps_observed (n : nat) (w : World) :
  rtc thread_step w (observed n w).
Proof.
  revert w. induction n as [|n IH]; intros w; [apply rtc_refl|].
  eapply rtc_l; [apply step_observe|apply IH].
Qed.

Lemma steps_wait_for_data (fuel : nat) (w : World) :
  rtc thread_step w (final (wait_for_data fuel w)).
Proof.
  destruct (wait_for_data_final fuel w) as [n ->]. apply steps_observed.
Qed.

Lemma steps_decode_rounds (fuel : nat) (abs sc us : Z) (w : World) :
  rtc thread_step w (final (decode_rounds fuel abs sc us w)).
Proof.
  revert abs sc w. induction fuel as [|fuel IH]; intros abs sc w.
  - apply rtc_refl.
  - rewrite decode_rounds_S.
    pose proof (steps_decode_data fuel abs sc us w) as H1.
    destruct (decode_data fuel abs sc us w) as [[] w1|s w1];
      cbn [final] in *; [|exact H1].
    destruct (isEmpty (error_message_ (ds w1))); [|exact H1].
    pose proof (steps_wait_for_data fuel w1) as H2.
    destruct (wait_for_data fuel w1) as [[sc'|] w2|s w2];
      cbn [final] in *.
    + etrans; [exact H1|]. etrans; [exact H2|apply IH].
    + etrans; eassumption.
    + etrans; eassumption.
Qed.

Lemma steps_loop_entry (w : World) : rtc thread_step w (loop_entry w).
Proof.
  unfold loop_entry. cbv zeta.
  do 3 (eapply rtc_r; [|apply step_action]).
  eapply rtc_r; [apply rtc_once, step_observe|apply step_sample_count].
Qed.

(** Every state a run of [decode_proc] ends in, for whatever reason, is
    reached from the initial one by steps of [thread_step]. *)
Lemma steps_decode_proc (fuel : nat) (w : World) :
  rtc thread_step w (final (decode_proc fuel w)).
Proof.
  rewrite decode_proc_eq.
  assert (Hnew : rtc thread_step w (add_log EvSessionNew w))
    by apply rtc_once, step_action.
  destruct (segment_ (ds w)) as [seg|]; [|exact Hnew].
  destruct (create_decoders_spec (stack_ (ds w)) None (add_log EvSessionNew w))
    as (evs & _ & [[_ Hcreate]|[_ Hcreate]]); rewrite Hcreate.
  - set (w0 := add_logs evs (add_log EvSessionNew w)).
    assert (Hentry : rtc thread_step w (loop_entry w0)).
    { etrans; [exact Hnew|]. etrans; [apply steps_add_logs|].
      apply steps_loop_entry. }
    pose proof (steps_decode_rounds fuel 0 (sample_count_ (ds (loop_entry w0)))
                  (unit_size_of seg) (loop_entry w0)) as Hrounds.
    destruct (decode_rounds fuel 0 _ (unit_size_of seg) (loop_entry w0))
      as [[] w2|s w2]; cbn [final] in *.
    + do 2 (eapply rtc_r; [|apply step_action]).
      etrans; eassumption.
    + etrans; eassumption.
  - cbn [final].
    eapply rtc_r; [|apply step_action].
    eapply rtc_r; [|apply step_error].
    etrans; [exact Hnew|apply steps_add_logs].
Qed.

Lemma steps_preserve {A} (f : World -> A) :
  (forall w w', thread_step w w' -> f w' = f w) ->
  forall w w', rtc thread_step w w' -> f w' = f w.
Proof.
  intros Hstep w w' Hrtc. induction Hrtc as [|w w1 w' H1 _ IH];
    [reflexivity|].
  rewrite IH. by apply Hstep.
Qed.

Lemma steps_invariant (P : World -> Prop) :
  (forall w w', thread_step w w' -> P w -> P w') ->
  forall w w', rtc thread_step w w' -> P w -> P w'.
Proof.
  intros Hstep w w' Hrtc. induction Hrtc as [|w w1 w' H1 _ IH]; [done|].
  intros HP. apply IH. by apply (Hstep w).
Qed.

Ltac step_field f :=
  apply (steps_preserve f);
  intros w0 w1 Hstep; destruct Hstep; try reflexivity;
  apply (sync_preserves f);
  [ intros w2 e; destruct e; simpl; try reflexivity;
    unfold on_data_received, on_frame_ended;
    destruct (segment_ (ds w2)) eqn:?; simpl; congruence
  | reflexivity ].

Lemma steps_stack (w w' : World) :
  rtc thread_step w w' -> stack_ (ds w') = stack_ (ds w).
Proof. revert w w'. step_field (fun w0 : World => stack_ (ds w0)). Qed.

Lemma steps_segment (w w' : World) :
  rtc thread_step w w' -> segment_ (ds w') = segment_ (ds w).
Proof. revert w w'. step_field (fun w0 : World => segment_ (ds w0)). Qed.

Lemma steps_start_time (w w' : World) :
  rtc thread_step w w' -> start_time_ (ds w') = start_time_ (ds w).
Proof. revert w w'. step_field (fun w0 : World => start_time_ (ds w0)). Qed.

Lemma steps_samplerate (w w' : World) :
  rtc thread_step w w' -> samplerate_ (ds w') = samplerate_ (ds w).
Proof. revert w w'. step_field (fun w0 : World => samplerate_ (ds w0)). Qed.

Lemma steps_class_rows (w w' : World) :
  rtc thread_step w w' -> class_rows_ (ds w') = class_rows_ (ds w).
Proof. revert w w'. step_field (fun w0 : World => class_rows_ (ds w0)). Qed.

Lemma steps_decode_thread (w w' : World) :
  rtc thread_step w w' -> decode_thread_ (ds w') = decode_thread_ (ds w).
Proof. revert w w'. step_field (fun w0 : World => decode_thread_ (ds w0)). Qed.

Lemma steps_rows_keys (w w' : World) (row : Row) :
  rtc thread_step w w' ->
  is_Some (rows_ (ds w') !! row) <-> is_Some (rows_ (ds w) !! row).
Proof.
  intros Hrtc. induction Hrtc as [|w w1 w' H1 _ IH]; [done|].
  rewrite IH. destruct H1 as [| | | | | |r a rd w Hrow]; try done.
  - by rewrite sync_rows.
  - cbn [ds upd_ds add_log rows_ set_rows set_annotation_count].
    destruct w as [d ? ? ? ? ?]. destruct d. cbn in *.
    rewrite lookup_insert_is_Some. split.
    + intros [<-|[_ H]]; [by eexists|exact H].
    + intros H. destruct (decide (r = row)); [by left|by right].
Qed.

(** X5: A run of [decode_proc] leaves the configuration of the object as it
    found it, however far it gets and however it ends: the stack, the
    segment, the start time, the sample rate, the class map and the
    thread handle are never assigned by the thread or by the slots, and
    the row index keeps exactly its rows (only their stores grow). *)
Theorem thread_leaves_configuration (fuel : nat) (w : World) :
  stack_ (ds (final (decode_proc fuel w))) = stack_ (ds w) /\
  segment_ (ds (final (decode_proc fuel w))) = segment_ (ds w) /\
  start_time_ (ds (final (decode_proc fuel w))) = start_time_ (ds w) /\
  samplerate_ (ds (final (decode_proc fuel w))) = samplerate_ (ds w) /\
  class_rows_ (ds (final (decode_proc fuel w))) = class_rows_ (ds w) /\
  decode_thread_ (ds (final (decode_proc fuel w))) = decode_thread_ (ds w) /\
  forall row,
    is_Some (rows_ (ds (final (decode_proc fuel w))) !! row) <->
    is_Some (rows_ (ds w) !! row).
Proof.
  pose proof (steps_decode_proc fuel w) as Hsteps.
  split; [by apply steps_stack|].
  split; [by apply steps_segment|].
  split; [by apply steps_start_time|].
  split; [by apply steps_samplerate|].
  split; [by apply steps_class_rows|].
  split; [by apply steps_decode_thread|].
  intros row. by apply steps_rows_keys.
Qed.

End Steps.

(** ** A decoder that cannot be instantiated *)

Section InstantiationFailure.
Context {C : Collaborators}.

(** X6: When some decoder of the stack cannot be instantiated, [decode_proc]
    returns without entering its loop: it records "Failed to create
    decoder instance" and destroys the session, having logged nothing
    but the session, the instances made before the failure and the
    tear-down.  It observes nothing, feeds nothing, stores nothing and
    sends no final notification. *)
Theorem instantiation_failure_ends_run
    (fuel : nat) (w : World) (seg : LogicSegment) :
  segment_ (ds w) = Some seg ->
  Exists (fun dec => create_decoder_inst dec = None) (stack_ (ds w)) ->
  exists w' evs,
    decode_proc fuel w = Ok tt w' /\
    log w' = EvSessionDestroy :: evs ++ EvSessionNew :: log w /\
    Forall (fun e => is_inst_event e = true) evs /\
    error_message (ds w') = tr "Failed to create decoder instance"%string /\
    clock w' = clock w /\
    rows_ (ds w') = rows_ (ds w) /\
    annotation_count_ (ds w') = annotation_count_ (ds w) /\
    samples_decoded (ds w') = samples_decoded (ds w) /\
    sample_count_ (ds w') = sample_count_ (ds w).
Proof.
  intros Hseg Hex. rewrite decode_proc_eq, Hseg.
  destruct (create_decoders_spec (stack_ (ds w)) None (add_log EvSessionNew w))
    as (evs & Hevs & [[Hall _]|[_ Hcreate]]).
  { exfalso. apply Exists_exists in Hex as (dec & Hin & Hnone).
    rewrite Forall_forall in Hall. specialize (Hall dec Hin).
    rewrite Hnone in Hall. by destruct Hall. }
  rewrite Hcreate. eexists _, evs. split; [reflexivity|].
  cbn. repeat split; try reflexivity. exact Hevs.
Qed.

End InstantiationFailure.

Lemma instantiation_failure_ends_run_witness :
  exists w',
    decode_proc (C := env_no_instance) 0
      (start_world (C := env_no_instance)
         (begin_decode exit_idle (used_stack [dec_uart; dec_plain]))
         Running 1000 tt) = Ok tt w' /\
    log w' = [EvSessionDestroy; EvInstNew 1 101; EvSessionNew] /\
    error_message (ds w') = "Failed to create decoder instance"%string.
Proof.
  destruct (instantiation_failure_ends_run (C := env_no_instance) 0
              (start_world (C := env_no_instance)
                 (begin_decode exit_idle (used_stack [dec_uart; dec_plain]))
                 Running 1000 tt) seg_one_byte)
    as (w' & evs & Hrun & _ & _ & Herr & _).
  - reflexivity.
  - apply Exists_cons_tl, Exists_cons_hd. reflexivity.
  - exists w'. split; [exact Hrun|]. split; [|exact Herr].
    assert (Hw' : w' = final (decode_proc (C := env_no_instance) 0
                      (start_world (C := env_no_instance)
                         (begin_decode exit_idle
                            (used_stack [dec_uart; dec_plain]))
                         Running 1000 tt)))
      by (rewrite Hrun; reflexivity).
    rewrite Hw'. vm_compute. reflexivity.
Defined.

(** ** Progress stays within the capture *)

Section Bounded.
Context {C : Collaborators}.

Lemma ext_steps_sample_count (evs : list ExtEvent) (w : World) :
  sample_count_ (ds w) <= Z.of_N (segment_sample_count w) ->
  sample_count_ (ds w) <= sample_count_ (ds (fold_left ext_step evs w)) /\
  sample_count_ (ds (fold_left ext_step evs w)) <=
    Z.of_N (segment_sample_count (fold_left ext_step evs w)).
Proof.
  revert w. induction evs as [|e evs IH]; intros w Hw; simpl; [lia|].
  assert (Hstep : sample_count_ (ds w) <= sample_count_ (ds (ext_step w e)) /\
                  sample_count_ (ds (ext_step w e)) <=
                    Z.of_N (segment_sample_count (ext_step w e))).
  { destruct e; cbn; try lia;
      unfold on_data_received, on_frame_ended;
      destruct (segment_ (ds w)); cbn; lia. }
  destruct (IH (ext_step w e)) as [H1 H2]; [lia|]. lia.
Qed.

Lemma sync_sample_count (w : World) :
  sample_count_ (ds w) <= Z.of_N (segment_sample_count w) ->
  sample_count_ (ds w) <= sample_count_ (ds (sync w)) /\
  sample_count_ (ds (sync w)) <= Z.of_N (segment_sample_count (sync w)).
Proof. intros Hw. unfold sync. cbn. by apply ext_steps_sample_count. Qed.

Lemma observed_sample_count (n : nat) (w : World) :
  sample_count_ (ds w) <= Z.of_N (segment_sample_count w) ->
  sample_count_ (ds w) <= sample_count_ (ds (observed n w)) /\
  sample_count_ (ds (observed n w)) <=
    Z.of_N (segment_sample_count (observed n w)).
Proof.
  revert w. induction n as [|n IH]; intros w Hw; simpl; [lia|].
  destruct (sync_sample_count w Hw) as [H1 H2].
  destruct (IH (sync w) H2). lia.
Qed.

Lemma sent_world_sample_count (i chunk_end us : Z) (w : World) :
  sample_count_ (ds (sent_world i chunk_end us w)) = sample_count_ (ds w).
Proof. unfold sent_world. simpl. by rewrite callbacks_sample_count. Qed.

Lemma sent_world_segment_sample_count (i chunk_end us : Z) (w : World) :
  segment_sample_count (sent_world i chunk_end us w) =
  segment_sample_count w.
Proof.
  unfold sent_world. simpl. by rewrite callbacks_segment_sample_count.
Qed.

Lemma decode_data_loop_bounded (fuel : nat) (i sc us c : Z) (w : World) :
  0 <= c -> 0 <= i ->
  0 <= samples_decoded_ (ds w) <= sc ->
  sc <= sample_count_ (ds w) <= Z.of_N (segment_sample_count w) ->
  0 <= samples_decoded_ (ds (final (decode_data_loop fuel i sc us c w)))
    <= sc /\
  sc <= sample_count_ (ds (final (decode_data_loop fuel i sc us c w)))
    <= Z.of_N (segment_sample_count
                 (final (decode_data_loop fuel i sc us c w))).
Proof.
  intros Hc. revert i w. induction fuel as [|fuel IH]; intros i w Hi Hsd Hsc.
  - cbn. lia.
  - rewrite decode_data_loop_S.
    destruct (sync_sample_count w ltac:(lia)) as [Hup Hseg].
    pose proof (sync_samples_decoded w) as Hsame.
    destruct (negb (negb (interrupt_ (ds (sync w))) && (i <? sc))) eqn:Hcond.
    { cbn [final]. lia. }
    destruct (INT64_MAX <? i + c); [cbn [final]; lia|].
    apply negb_false_iff, andb_true_iff in Hcond as [_ Hlt].
    apply Z.ltb_lt in Hlt.
    set (ce := Z.min (i + c) sc).
    pose proof (sent_world_samples_decoded i ce us (sync w)) as Hsd1.
    pose proof (sent_world_sample_count i ce us (sync w)) as Hsc1.
    pose proof (sent_world_segment_sample_count i ce us (sync w)) as Hseg1.
    destruct (negb (send_status i ce us (sync w) =? SRD_OK)).
    + cbn [final ds upd_ds samples_decoded_ sample_count_
           segment_sample_count].
      change (samples_decoded_ (set_error_message ?m ?d))
        with (samples_decoded_ d).
      change (sample_count_ (set_error_message ?m ?d))
        with (sample_count_ d).
      lia.
    + apply IH; [lia| |];
        cbn [advanced_world ds add_log upd_ds segment_sample_count];
        change (samples_decoded_ (set_samples_decoded ?v ?d)) with v;
        change (sample_count_ (set_samples_decoded ?v ?d))
          with (sample_count_ d);
        unfold ce in *; lia.
Qed.

Lemma decode_data_bounded (fuel : nat) (abs sc us : Z) (w : World) :
  0 <= abs ->
  0 <= samples_decoded_ (ds w) <= sc ->
  sc <= sample_count_ (ds w) <= Z.of_N (segment_sample_count w) ->
  0 <= samples_decoded_ (ds (final (decode_data fuel abs sc us w))) <= sc /\
  sc <= sample_count_ (ds (final (decode_data fuel abs sc us w)))
    <= Z.of_N (segment_sample_count (final (decode_data fuel abs sc us w))).
Proof.
  intros Habs Hsd Hsc. rewrite decode_data_eq.
  destruct (segment_ (ds w)) as [seg|]; [|cbn [final]; lia].
  destruct (unit_size_of seg =? 0); [cbn [final]; lia|].
  apply decode_data_loop_bounded; auto using chunk_sample_count_nonneg.
Qed.

Lemma decode_rounds_bounded (fuel : nat) (abs sc us : Z) (w : World) :
  0 <= abs ->
  0 <= samples_decoded_ (ds w) <= sc ->
  sc <= sample_count_ (ds w) <= Z.of_N (segment_sample_count w) ->
  0 <= samples_decoded_ (ds (final (decode_rounds fuel abs sc us w)))
    <= sample_count_ (ds (final (decode_rounds fuel abs sc us w))) /\
  sample_count_ (ds (final (decode_rounds fuel abs sc us w)))
    <= Z.of_N (segment_sample_count (final (decode_rounds fuel abs sc us w))).
Proof.
  revert abs sc w. induction fuel as [|fuel IH]; intros abs sc w Habs Hsd Hsc.
  - cbn. lia.
  - rewrite decode_rounds_S.
    pose proof (decode_data_bounded fuel abs sc us w Habs Hsd Hsc) as H1.
    destruct (decode_data fuel abs sc us w) as [[] w1|s w1];
      cbn [final] in *; [|lia].
    destruct (isEmpty (error_message_ (ds w1))); [|cbn [final]; lia].
    destruct (wait_for_data_final fuel w1) as [n Hn].
    destruct (observed_sample_count n w1 ltac:(lia)) as [Hup Hseg].
    pose proof (observed_preserves (fun w0 => samples_decoded_ (ds w0))
                  sync_samples_decoded n w1) as Hsame.
    cbn beta in Hsame. rewrite <- Hn in Hup, Hseg, Hsame.
    destruct (wait_for_data fuel w1) as [[sc'|] w2|s w2] eqn:Hwait;
      cbn [final] in *; [|lia..].
    apply wait_for_data_some in Hwait as (-> & _ & _).
    apply IH; lia.
Qed.

(** X7: In a run started as [begin_decode] starts it, with nothing decoded
    and a sample count within the segment, the thread never reports more
    decoded samples than the object has been told of, nor the object
    more samples than the segment holds: at any time and however the run
    ends, 0 <= [samples_decoded()] <= [sample_count_] <= the sample
    count of the segment. *)
Theorem progress_within_capture (fuel : nat) (w : World) :
  samples_decoded_ (ds w) = 0 ->
  0 <= sample_count_ (ds w) <= Z.of_N (segment_sample_count w) ->
  0 <= samples_decoded (ds (final (decode_proc fuel w)))
    <= sample_count_ (ds (final (decode_proc fuel w))) /\
  sample_count_ (ds (final (decode_proc fuel w)))
    <= Z.of_N (segment_sample_count (final (decode_proc fuel w))).
Proof.
  intros Hzero Hsc. unfold samples_decoded. rewrite decode_proc_eq.
  destruct (segment_ (ds w)) as [seg|]; [|cbn; lia].
  destruct (create_decoders_spec (stack_ (ds w)) None (add_log EvSessionNew w))
    as (evs & _ & [[_ Hcreate]|[_ Hcreate]]); rewrite Hcreate.
  2:{ cbn. lia. }
  set (w0 := add_logs evs (add_log EvSessionNew w)).
  destruct (decode_rounds_bounded fuel 0 (sample_count_ (ds (loop_entry w0)))
              (unit_size_of seg) (loop_entry w0)) as [H1 H2].
  { lia. }
  { rewrite loop_entry_samples_decoded, loop_entry_sample_count.
    change (samples_decoded_ (ds w0)) with (samples_decoded_ (ds w)). lia. }
  { rewrite loop_entry_sample_count. unfold loop_entry. cbn. lia. }
  destruct (decode_rounds fuel 0 _ (unit_size_of seg) (loop_entry w0))
    as [[] w2|s w2]; cbn [final ds add_log segment_sample_count] in *; lia.
Qed.

End Bounded.

Lemma progress_within_capture_witness :
  samples_decoded_ (ds run_second_chunk_fails) = 0 /\
  samples_decoded
    (ds (final (decode_proc (C := env_second_chunk_fails) 20
                  run_second_chunk_fails)))
  <= sample_count_
       (ds (final (decode_proc (C := env_second_chunk_fails) 20
                     run_second_chunk_fails)))
  <= 30000005.
Proof.
  assert (H : samples_decoded_ (ds run_second_chunk_fails) = 0)
    by reflexivity.
  split; [exact H|].
  destruct (progress_within_capture (C := env_second_chunk_fails) 20
              run_second_chunk_fails H) as [[_ H1] H2].
  { vm_compute. split; discriminate. }
  split; [exact H1|].
  eapply Z.le_trans; [exact H2|]. vm_compute. discriminate.
Defined.

(** ** The log is a faithful journal of the run *)

Section Journal.
Context {C : Collaborators}.

Lemma quiet_prefix (evs : list Event) (rate : Q) :
  Forall (fun e => is_inst_event e = true) evs ->
  Forall (fun e => is_send e = false /\ is_push e = false)
    ([EvSessionStart; EvCallbackAdd; EvMetadataSet rate]
     ++ evs ++ [EvSessionNew]).
Proof.
  intros Hevs. repeat (constructor; [by split|]).
  apply Forall_app. split; [|repeat constructor].
  eapply Forall_impl; [exact Hevs|]. intros e He. by destruct e.
Qed.

(** X8: Whatever a run of [decode_proc] does and however it ends, the
    object agrees with the log of the run: every row store has grown by
    exactly the annotations logged as pushed to it, in order;
    [samples_decoded()] is the end of the last chunk the engine accepted,
    unchanged if it accepted none; and the annotation counter has
    advanced, modulo [2^64], by the number of annotations stored. *)
Theorem run_journal (fuel : nat) (w : World) :
  exists new,
    log (final (decode_proc fuel w)) = new ++ log w /\
    (forall row,
       store (rows_ (ds (final (decode_proc fuel w)))) row =
       store (rows_ (ds w)) row ++ pushed row new) /\
    samples_decoded (ds (final (decode_proc fuel w))) =
      last_accepted_end new (samples_decoded (ds w)) /\
    annotation_count_ (ds (final (decode_proc fuel w))) mod UINT64_MOD =
      (annotation_count_ (ds w) + count_events is_push new) mod UINT64_MOD.
Proof.
  unfold samples_decoded. rewrite decode_proc_eq.
  destruct (segment_ (ds w)) as [seg|].
  2:{ exists [EvSessionNew]. cbn. split; [reflexivity|].
      split; [intros row; by rewrite app_nil_r|].
      split; [reflexivity|]. by rewrite Z.add_0_r. }
  destruct (create_decoders_spec (stack_ (ds w)) None (add_log EvSessionNew w))
    as (evs & Hevs & [[_ Hcreate]|[_ Hcreate]]); rewrite Hcreate.
  2:{ exists (EvSessionDestroy :: evs ++ [EvSessionNew]).
      assert (Hq : Forall (fun e => is_send e = false /\ is_push e = false)
                     (evs ++ [EvSessionNew])).
      { apply Forall_app. split; [|repeat constructor].
        eapply Forall_impl; [exact Hevs|]. intros e He. by destruct e. }
      assert (Hs : Forall (fun e => is_send e = false)
                     (evs ++ [EvSessionNew]))
        by (eapply Forall_impl; [exact Hq|]; by intros e [He _]).
      assert (Hp : Forall (fun e => is_push e = false)
                     (evs ++ [EvSessionNew]))
        by (eapply Forall_impl; [exact Hq|]; by intros e [_ He]).
      cbn. split; [by rewrite <- app_assoc|].
      split; [intros row; rewrite (no_push_pushed row _ Hp);
              by rewrite app_nil_r|].
      split; [by rewrite (no_send_accepted_end _ _ Hs)|].
      by rewrite (count_events_none _ _ Hp), Z.add_0_r. }
  set (w0 := add_logs evs (add_log EvSessionNew w)).
  set (pre := [EvSessionStart; EvCallbackAdd;
               EvMetadataSet (samplerate_ (ds (sync w0)))]
              ++ evs ++ [EvSessionNew]).
  pose proof (quiet_prefix evs (samplerate_ (ds (sync w0))) Hevs) as Hq.
  fold pre in Hq.
  assert (Hsend : Forall (fun e => is_send e = false) pre)
    by (eapply Forall_impl; [exact Hq|]; by intros e [He _]).
  assert (Hpush : Forall (fun e => is_push e = false) pre)
    by (eapply Forall_impl; [exact Hq|]; by intros e [_ He]).
  assert (Hw1 : log (loop_entry w0) = pre ++ log w).
  { rewrite loop_entry_log. unfold pre, w0. cbn. by rewrite <- app_assoc. }
  destruct (decode_rounds_feed fuel 0 (sample_count_ (ds (loop_entry w0)))
              (unit_size_of seg) (loop_entry w0))
    as (new & Hlog & Hst & Hsd & _).
  destruct (notified_decode_rounds fuel 0 (sample_count_ (ds (loop_entry w0)))
              (unit_size_of seg) (loop_entry w0))
    as (p & _ & Hp & Hcnt & _).
  rewrite Hw1 in Hlog.
  rewrite loop_entry_rows in Hst. rewrite loop_entry_samples_decoded in Hsd.
  rewrite loop_entry_annotation_count in Hcnt.
  change (rows_ (ds w0)) with (rows_ (ds w)) in Hst.
  change (samples_decoded_ (ds w0)) with (samples_decoded_ (ds w)) in Hsd.
  change (annotation_count_ (ds w0)) with (annotation_count_ (ds w)) in Hcnt.
  rewrite Hlog, Hw1, !count_events_app in Hp.
  assert (Hp' : p = count_events is_push new) by lia. subst p.
  assert (Hrun :
    log (final (decode_rounds fuel 0 (sample_count_ (ds (loop_entry w0)))
                  (unit_size_of seg) (loop_entry w0)))
      = (new ++ pre) ++ log w /\
    (forall row,
       store (rows_ (ds (final (decode_rounds fuel 0
                (sample_count_ (ds (loop_entry w0)))
                (unit_size_of seg) (loop_entry w0))))) row =
       store (rows_ (ds w)) row ++ pushed row (new ++ pre)) /\
    samples_decoded_ (ds (final (decode_rounds fuel 0
                (sample_count_ (ds (loop_entry w0)))
                (unit_size_of seg) (loop_entry w0)))) =
      last_accepted_end (new ++ pre) (samples_decoded_ (ds w)) /\
    count_events is_push (new ++ pre) = count_events is_push new).
  { split; [by rewrite Hlog, app_assoc|]. split.
    - intros row. by rewrite Hst, pushed_app, (no_push_pushed row pre).
    - split.
      + by rewrite Hsd, last_accepted_end_app, (no_send_accepted_end pre).
      + rewrite count_events_app, (count_events_none is_push pre Hpush).
        lia. }
  destruct Hrun as (Hlog' & Hst' & Hsd' & Hcount).
  destruct (decode_rounds fuel 0 _ (unit_size_of seg) (loop_entry w0))
    as [[] w2|s w2]; cbn [final ds log add_log] in *.
  - exists (EvSessionDestroy :: EvNewAnnotations :: new ++ pre).
    cbn [app pushed last_accepted_end count_events is_push].
    rewrite Hlog'. split; [reflexivity|]. split; [exact Hst'|].
    split; [exact Hsd'|]. rewrite Hcnt. f_equal. lia.
  - exists (new ++ pre). split; [exact Hlog'|]. split; [exact Hst'|].
    split; [exact Hsd'|]. rewrite Hcnt. f_equal. lia.
Qed.

End Journal.

(** ** Waiting and waking *)

Section Waking.
Context {C : Collaborators}.

Lemma must_wait_iff (w : World) :
  must_wait w = true <->
  interrupt_ (ds w) = false /\ frame_complete_ (ds w) = false /\
  sample_count_ (ds w) <= samples_decoded_ (ds w) /\
  is_Stopped (session_capture_state w) = false.
Proof.
  unfold must_wait.
  rewrite !andb_true_iff, !negb_true_iff, Z.leb_le. tauto.
Qed.

Lemma sync_idle (w : World) : sched (clock w) = [] -> sync w = tick w.
Proof. intros H. unfold sync. by rewrite H. Qed.

(** X9: While the other threads do nothing, a thread that has to wait keeps
    waiting: [wait_for_data] does not return on its own, and the object
    is as it was at every wake-up. *)
Theorem wait_blocks_while_idle (fuel : nat) (w : World) :
  must_wait w = true ->
  (forall k, (k < fuel)%nat -> sched (clock w + k) = []) ->
  wait_for_data fuel w = Halt OutOfFuel (observed fuel w) /\
  ds (observed fuel w) = ds w /\
  log (observed fuel w) = log w.
Proof.
  revert w. induction fuel as [|fuel IH]; intros w Hwait Hidle.
  - repeat split.
  - assert (Hsync : sync w = tick w).
    { apply sync_idle. rewrite <- (Hidle 0%nat) by lia. f_equal. lia. }
    cbn [wait_for_data observed]. rewrite Hsync.
    change (must_wait (tick w)) with (must_wait w). rewrite Hwait.
    apply (IH (tick w)); [exact Hwait|].
    intros k Hk. cbn [clock tick]. rewrite <- (Hidle (S k)) by lia.
    f_equal. lia.
Qed.


(** X11: New samples release a waiting thread with the new sample count: the
    slot [on_data_received] copies the count of the segment to
    [sample_count_], and the thread is told that count. *)
Theorem data_received_wakes
    (fuel : nat) (w : World) (seg : LogicSegment) (n : N) :
  must_wait w = true ->
  segment_ (ds w) = Some seg ->
  sched (clock w) = [ExtAppend n; ExtDataReceived] ->
  samples_decoded_ (ds w) < Z.of_N (segment_sample_count w + n) ->
  wait_for_data (S fuel) w =
    Ok (Some (Z.of_N (segment_sample_count w + n))) (sync w) /\
  sample_count_ (ds (sync w)) = Z.of_N (segment_sample_count w + n) /\
  samples_decoded_ (ds (sync w)) = samples_decoded_ (ds w).
Proof.
  intros Hwait Hseg Hsched Hnew.
  apply must_wait_iff in Hwait as (Hint & Hfc & Hle & Hstop).
  apply Z.ltb_lt in Hnew. pose proof Hnew as Hnew'.
  rewrite Z.ltb_antisym in Hnew'. apply negb_true_iff in Hnew'.
  cbn [wait_for_data]. unfold sync. rewrite Hsched.
  destruct w as [d cs cnt s l t]. destruct d. cbn in *. subst.
  unfold on_data_received. cbn.
  unfold must_wait, more_work, make_optional. cbn.
  rewrite Hnew, Hnew'. cbn. repeat split.
Qed.

Lemma ext_steps_interrupt_raised (evs : list ExtEvent) (w : World) :
  interrupt_ (ds w) = true ->
  interrupt_ (ds (fold_left ext_step evs w)) = true.
Proof.
  revert w. induction evs as [|e evs IH]; intros w Hw; simpl; [exact Hw|].
  apply IH. destruct e; cbn; try exact Hw; try reflexivity;
    unfold on_data_received, on_frame_ended;
    destruct (segment_ (ds w)); exact Hw.
Qed.

Lemma sync_interrupt_raised (w : World) :
  interrupt_ (ds w) = true -> interrupt_ (ds (sync w)) = true.
Proof. intros Hw. unfold sync. cbn. by apply ext_steps_interrupt_raised. Qed.

Lemma observed_interrupt_raised (n : nat) (w : World) :
  interrupt_ (ds w) = true -> interrupt_ (ds (observed n w)) = true.
Proof.
  revert w. induction n as [|n IH]; intros w Hw; simpl; [exact Hw|].
  by apply IH, sync_interrupt_raised.
Qed.

(** X12: Once the interrupt flag is raised, as [begin_decode] and the
    destructor raise it before they join the thread, it stays raised and
    the thread stops at the next loop head whichever loop it is in: the
    feed loop and the wait return at their next observation, and the
    round loop returns after at most two, without another feed call. *)
Theorem interrupt_stops_thread (fuel : nat) (w : World) :
  interrupt_ (ds w) = true ->
  (forall n, interrupt_ (ds (observed n w)) = true /\
             log (observed n w) = log w) /\
  (forall i sc us c,
     decode_data_loop (S fuel) i sc us c w = Ok tt (sync w)) /\
  wait_for_data (S fuel) w = Ok None (sync w) /\
  (forall seg abs sc us,
     segment_ (ds w) = Some seg -> unit_size_of seg <> 0 ->
     decode_rounds (S (S fuel)) abs sc us w =
       Ok tt (if isEmpty (error_message_ (ds w)) then observed 2 w
              else observed 1 w)).
Proof.
  intros Hint.
  pose proof (sync_interrupt_raised w Hint) as Hint1.
  pose proof (sync_interrupt_raised (sync w) Hint1) as Hint2.
  assert (Hloop : forall i sc us c,
            decode_data_loop (S fuel) i sc us c w = Ok tt (sync w)).
  { intros i sc us c. rewrite decode_data_loop_S, Hint1. reflexivity. }
  assert (Hwait : forall f w0, interrupt_ (ds (sync w0)) = true ->
            wait_for_data (S f) w0 = Ok None (sync w0)).
  { intros f w0 H0. cbn [wait_for_data].
    unfold must_wait, more_work, make_optional. rewrite H0. reflexivity. }
  split; [|split; [exact Hloop|split; [by apply Hwait|]]].
  - intros n. split; [by apply observed_interrupt_raised|].
    apply (observed_preserves (fun w0 => log w0)), sync_log.
  - intros seg abs sc us Hseg Hus.
    rewrite decode_rounds_S, decode_data_eq, Hseg.
    destruct (Z.eqb_spec (unit_size_of seg) 0) as [Hz|_]; [contradiction|].
    rewrite decode_data_loop_S, Hint1. cbn [negb andb].
    rewrite sync_error_message.
    destruct (isEmpty (error_message_ (ds w))); [|reflexivity].
    by rewrite (Hwait fuel (sync w) Hint2).
Qed.

End Waking.

Lemma wait_blocks_while_idle_witness :
  must_wait (start_world (C := env_still) waiting_stack Running 250 tt)
    = true /\
  wait_for_data (C := env_still) 7
    (start_world (C := env_still) waiting_stack Running 250 tt) =
  Halt OutOfFuel
    (observed (C := env_still) 7
       (start_world (C := env_still) waiting_stack Running 250 tt)).
Proof.
  assert (H : must_wait (start_world (C := env_still) waiting_stack
                            Running 250 tt) = true) by reflexivity.
  split; [exact H|].
  apply (wait_blocks_while_idle (C := env_still) 7 _ H).
  intros k Hk. reflexivity.
Defined.


Lemma data_received_wakes_witness :
  wait_for_data (C := env_data_arrives) 1
    (observed (C := env_data_arrives) 1
       (start_world (C := env_data_arrives) waiting_stack Running 250 tt)) =
  Ok (Some 500)
    (observed (C := env_data_arrives) 2
       (start_world (C := env_data_arrives) waiting_stack Running 250 tt)).
Proof.
  apply (data_received_wakes (C := env_data_arrives) 0
           (observed (C := env_data_arrives) 1
              (start_world (C := env_data_arrives) waiting_stack
                 Running 250 tt))
           seg_one_byte 250).
  - reflexivity.
  - reflexivity.
  - reflexivity.
  - reflexivity.
Defined.

Lemma interrupt_stops_thread_witness :
  decode_rounds (C := env_still) 2 0 250 1
    (start_world (C := env_still) (set_interrupt true waiting_stack)
       Running 250 tt) =
  Ok tt
    (observed (C := env_still) 2
       (start_world (C := env_still) (set_interrupt true waiting_stack)
          Running 250 tt)).
Proof.
  destruct (interrupt_stops_thread (C := env_still) 0
              (start_world (C := env_still)
                 (set_interrupt true waiting_stack) Running 250 tt)
              eq_refl) as (_ & _ & _ & Hrounds).
  apply (Hrounds seg_one_byte 0 250 1); [reflexivity|discriminate].
Defined.

(** ** Decoding a finished capture *)

Section FinishedCapture.
Context {C : Collaborators}.

Lemma capture_over_never_interrupted : capture_over -> never_interrupted.
Proof.
  intros Hover t. eapply Forall_impl; [apply Hover|].
  intros e [->| ->]; discriminate.
Qed.

Lemma ext_steps_capture_over (evs : list ExtEvent) (w : World) :
  Forall (fun e => e = ExtDataReceived \/ e = ExtFrameEnded) evs ->
  session_capture_state (fold_left ext_step evs w) =
    session_capture_state w /\
  segment_sample_count (fold_left ext_step evs w) = segment_sample_count w /\
  (sample_count_ (ds w) = Z.of_N (segment_sample_count w) ->
   sample_count_ (ds (fold_left ext_step evs w)) =
     Z.of_N (segment_sample_count w)).
Proof.
  intros Hevs. revert w.
  induction Hevs as [|e evs He _ IH]; intros w; simpl; [done|].
  destruct (IH (ext_step w e)) as (Hcs & Hn & Hsc).
  assert (Hstep : session_capture_state (ext_step w e) =
                    session_capture_state w /\
                  segment_sample_count (ext_step w e) =
                    segment_sample_count w /\
                  (sample_count_ (ds w) = Z.of_N (segment_sample_count w) ->
                   sample_count_ (ds (ext_step w e)) =
                     Z.of_N (segment_sample_count w))).
  { destruct He as [->| ->]; cbn;
      unfold on_data_received, on_frame_ended;
      destruct (segment_ (ds w)); cbn; auto. }
  destruct Hstep as (Hcs1 & Hn1 & Hsc1).
  rewrite Hcs, Hn, Hcs1, Hn1. split; [reflexivity|]. split; [reflexivity|].
  intros Hw. rewrite Hsc; rewrite Hn1; auto.
Qed.

Lemma sync_capture_over (w : World) :
  capture_over ->
  session_capture_state (sync w) = session_capture_state w /\
  segment_sample_count (sync w) = segment_sample_count w /\
  (sample_count_ (ds w) = Z.of_N (segment_sample_count w) ->
   sample_count_ (ds (sync w)) = Z.of_N (segment_sample_count w)).
Proof.
  intros Hover. unfold sync. cbn. apply ext_steps_capture_over, Hover.
Qed.

(** Once the capture is over, the steps of the thread keep the capture
    stopped, the segment at its size and [sample_count_] at that size,
    and leave the interrupt flag alone. *)
Lemma steps_capture_over (n : N) (w w' : World) :
  capture_over ->
  rtc thread_step w w' ->
  session_capture_state w = Stopped /\ segment_sample_count w = n /\
  sample_count_ (ds w) = Z.of_N n /\ interrupt_ (ds w) = false ->
  session_capture_state w' = Stopped /\ segment_sample_count w' = n /\
  sample_count_ (ds w') = Z.of_N n /\ interrupt_ (ds w') = false.
Proof.
  intros Hover Hrtc. induction Hrtc as [|w w1 w' H1 _ IH]; [done|].
  intros (Hcs & Hn & Hsc & Hint). apply IH. clear IH.
  destruct H1; try done.
  - destruct (sync_capture_over w Hover) as (Hcs1 & Hn1 & Hsc1).
    rewrite Hcs1, Hn1, Hsc1 by congruence.
    rewrite (sync_interrupt w (capture_over_never_interrupted Hover)).
    rewrite Hn. done.
  - cbn. rewrite Hn. done.
Qed.

Lemma chunk_sample_count_small (us : Z) :
  0 < us <= DecodeChunkLength ->
  chunk_sample_count_of us = DecodeChunkLength / us /\
  0 < DecodeChunkLength / us.
Proof.
  intros [Hlo Hhi].
  assert (Hpos : 0 < DecodeChunkLength / us) by (apply Z.div_str_pos; lia).
  split; [|exact Hpos].
  unfold chunk_sample_count_of. apply Z.mod_small.
  split; [lia|].
  apply Z.le_lt_trans with DecodeChunkLength; [|reflexivity].
  apply Z.div_le_upper_bound; [lia|].
  unfold DecodeChunkLength in *. nia.
Qed.

(** X13: A capture that is over is decoded to its end: with every decoder
    instantiated and an engine that accepts every chunk, [decode_proc]
    feeds the whole segment in chunks, finds at its first wait that
    nothing is left and the capture is stopped, sends the final
    notification, destroys the session and returns, with
    [samples_decoded()] equal to the sample count of the segment and no
    error. *)
Theorem finished_capture_decoded
    (fuel : nat) (w : World) (seg : LogicSegment) :
  capture_over -> engine_accepts ->
  segment_ (ds w) = Some seg ->
  0 < unit_size_of seg <= DecodeChunkLength ->
  Forall (fun dec => is_Some (create_decoder_inst dec)) (stack_ (ds w)) ->
  session_capture_state w = Stopped ->
  interrupt_ (ds w) = false ->
  samples_decoded_ (ds w) = 0 ->
  error_message_ (ds w) = EmptyString ->
  Z.of_N (segment_sample_count w) + DecodeChunkLength / unit_size_of seg
    <= INT64_MAX ->
  (chunks_needed (Z.of_N (segment_sample_count w))
     (DecodeChunkLength / unit_size_of seg) + 1 < fuel)%nat ->
  exists w' l,
    decode_proc fuel w = Ok tt w' /\
    log w' = EvSessionDestroy :: EvNewAnnotations :: l /\
    sends (log w') =
      sends (log w) ++
      expected_sends
        (chunks_needed (Z.of_N (segment_sample_count w))
           (DecodeChunkLength / unit_size_of seg))
        0 (Z.of_N (segment_sample_count w)) (unit_size_of seg)
        (DecodeChunkLength / unit_size_of seg) /\
    samples_decoded (ds w') = Z.of_N (segment_sample_count w) /\
    error_message (ds w') = EmptyString.
Proof.
  intros Hover Hacc Hseg Hus Hall Hcs Hint Hsd Herr Hmax Hfuel.
  pose proof (capture_over_never_interrupted Hover) as Hnever.
  destruct (chunk_sample_count_small _ Hus) as [Hc Hcpos].
  set (c := DecodeChunkLength / unit_size_of seg) in *.
  set (n := segment_sample_count w) in *.
  unfold samples_decoded, error_message.
  rewrite decode_proc_eq, Hseg.
  destruct (create_decoders_spec (stack_ (ds w)) None (add_log EvSessionNew w))
    as (evs & Hevs & [[_ Hcreate]|[Hex _]]).
  2:{ exfalso. apply Exists_exists in Hex as (dec & Hin & Hnone).
      rewrite Forall_forall in Hall. specialize (Hall dec Hin).
      rewrite Hnone in Hall. by destruct Hall. }
  rewrite Hcreate.
  set (w0 := add_logs evs (add_log EvSessionNew w)).
  set (w1 := loop_entry w0).
  destruct (sync_capture_over w0 Hover) as (Hcs0 & Hn0 & _).
  assert (Hw1 : session_capture_state w1 = Stopped /\
                segment_sample_count w1 = n /\
                sample_count_ (ds w1) = Z.of_N n /\
                interrupt_ (ds w1) = false).
  { unfold w1, loop_entry.
    cbn [session_capture_state segment_sample_count add_log upd_ds ds].
    change (sample_count_ (set_sample_count ?v ?d)) with v.
    change (interrupt_ (set_sample_count ?v ?d)) with (interrupt_ d).
    rewrite Hcs0, Hn0, (sync_interrupt w0 Hnever). done. }
  destruct Hw1 as (Hcs1 & Hn1 & Hsc1 & Hint1).
  rewrite Hsc1.
  destruct fuel as [|[|fuel]]; [lia|lia|].
  rewrite decode_rounds_S, decode_data_eq.
  assert (Hseg1 : segment_ (ds w1) = Some seg)
    by (unfold w1; by rewrite loop_entry_segment).
  rewrite Hseg1.
  destruct (Z.eqb_spec (unit_size_of seg) 0) as [Hz|_]; [lia|].
  rewrite Hc.
  destruct (decode_data_loop_complete (chunks_needed (Z.of_N n - 0) c)
              (S fuel) 0 (Z.of_N n) (unit_size_of seg) c w1
              Hcpos Hmax Hacc Hnever Hint1 eq_refl)
    as (w2 & new & Hrun & Hlog & Hsends & Hlt & Hge & Herr2).
  { rewrite Z.sub_0_r. lia. }
  rewrite Z.sub_0_r in Hsends.
  rewrite Hrun.
  assert (Hsteps : rtc thread_step w1 w2).
  { pose proof (steps_decode_data_loop (S fuel) 0 (Z.of_N n)
                  (unit_size_of seg) c w1) as H.
    by rewrite Hrun in H. }
  destruct (steps_capture_over n w1 w2 Hover Hsteps)
    as (Hcs2 & Hn2 & Hsc2 & Hint2); [done|].
  assert (Hsd1 : samples_decoded_ (ds w1) = 0)
    by (unfold w1; by rewrite loop_entry_samples_decoded).
  assert (Hsd2 : samples_decoded_ (ds w2) = Z.of_N n).
  { destruct (Z.lt_ge_cases 0 (Z.of_N n)) as [Hpos|Hzero];
      [by apply Hlt|]. rewrite Hge by lia. lia. }
  assert (Herr1 : error_message_ (ds w1) = EmptyString)
    by (unfold w1; by rewrite loop_entry_error_message).
  rewrite Herr2, Herr1. cbn [isEmpty].
  destruct (steps_capture_over n w2 (sync w2) Hover
              (rtc_once _ _ (step_observe w2)))
    as (Hcs3 & Hn3 & Hsc3 & Hint3); [done|].
  assert (Hwait : wait_for_data (S fuel) w2 = Ok None (sync w2)).
  { cbn [wait_for_data]. unfold must_wait, more_work, make_optional.
    rewrite Hcs3, Hsc3, sync_samples_decoded, Hsd2, Z.leb_refl.
    cbn. by rewrite !andb_false_r. }
  rewrite Hwait.
  exists (add_log EvSessionDestroy (add_log EvNewAnnotations (sync w2))),
    (log (sync w2)).
  split; [reflexivity|]. split; [reflexivity|].
  cbn [ds log add_log sends is_send].
  rewrite sync_log, sync_samples_decoded, sync_error_message, Hlog.
  split; [|split; [exact Hsd2|by rewrite Herr2]].
  unfold w1. rewrite loop_entry_log. unfold w0.
  cbn [log add_logs add_log app].
  rewrite sends_app. cbn [sends is_send].
  rewrite sends_app. cbn [sends is_send].
  rewrite (no_send_sends evs) by (by apply inst_events_no_send).
  rewrite Hsends. cbn [app]. by rewrite !app_nil_r.
Qed.

End FinishedCapture.

Lemma finished_capture_decoded_witness :
  exists w',
    decode_proc (C := env_still) 5
      (start_world (C := env_still)
         (begin_decode exit_idle (used_stack [dec_uart; dec_plain]))
         Stopped 30000000 tt) = Ok tt w' /\
    sends (log w') =
      [EvSend 0 10485760 10485760 1 SRD_OK;
       EvSend 10485760 20971520 10485760 1 SRD_OK;
       EvSend 20971520 30000000 9028480 1 SRD_OK] /\
    samples_decoded (ds w') = 30000000.
Proof.
  destruct (finished_capture_decoded (C := env_still) 5
              (start_world (C := env_still)
                 (begin_decode exit_idle (used_stack [dec_uart; dec_plain]))
                 Stopped 30000000 tt) seg_one_byte)
    as (w' & l & Hrun & _ & Hsends & Hsd & _).
  - intros t. constructor.
  - intros s i e chunk len us. reflexivity.
  - reflexivity.
  - vm_compute. split; [reflexivity|discriminate].
  - repeat constructor; by eexists.
  - reflexivity.
  - reflexivity.
  - reflexivity.
  - reflexivity.
  - vm_compute. discriminate.
  - vm_compute. lia.
  - exists w'. split; [exact Hrun|]. split; [|exact Hsd].
    rewrite Hsends. reflexivity.
Defined.

(** ** The engine is fed a gapless stream *)

Section Contiguous.
Context {C : Collaborators}.

Lemma contiguous_app (l l' : list Event) (init : Z) :
  contiguous l' init ->
  contiguous l (last_accepted_end l' init) ->
  contiguous (l ++ l') init.
Proof.
  intros Hl'. induction l as [|e l IH]; simpl; [done|].
  destruct e; try exact IH.
  intros [-> H]. split; [by rewrite last_accepted_end_app|by apply IH].
Qed.

Lemma contiguous_quiet (l : list Event) (init : Z) :
  Forall (fun e => is_send e = false) l -> contiguous l init.
Proof.
  induction 1 as [|e l He _ IH]; simpl; [done|].
  destruct e; try exact IH. discriminate He.
Qed.

Lemma decode_data_loop_contiguous
    (fuel : nat) (i sc us c : Z) (w : World) :
  0 <= c ->
  (i < sc -> samples_decoded_ (ds w) = i) ->
  exists new,
    log (final (decode_data_loop fuel i sc us c w)) = new ++ log w /\
    contiguous new (samples_decoded_ (ds w)) /\
    samples_decoded_ (ds (final (decode_data_loop fuel i sc us c w))) =
      last_accepted_end new (samples_decoded_ (ds w)) /\
    forall w',
      decode_data_loop fuel i sc us c w = Ok tt w' ->
      interrupt_ (ds w') = false ->
      isEmpty (error_message_ (ds w')) = true ->
      samples_decoded_ (ds w') =
        if i <? sc then sc else samples_decoded_ (ds w).
Proof.
  intros Hc. revert i w. induction fuel as [|fuel IH]; intros i w Hi.
  - exists []. cbn. repeat split. intros w' H. discriminate H.
  - rewrite decode_data_loop_S.
    destruct (negb (negb (interrupt_ (ds (sync w))) && (i <? sc))) eqn:Hcond.
    { exists []. cbn [final app contiguous last_accepted_end].
      rewrite sync_log, sync_samples_decoded. repeat split.
      intros w' Hw' Hint _. inversion Hw'; subst w'.
      rewrite Hint in Hcond. cbn in Hcond.
      apply negb_true_iff in Hcond. rewrite Hcond.
      apply sync_samples_decoded. }
    destruct (INT64_MAX <? i + c).
    { exists []. cbn [final app contiguous last_accepted_end].
      rewrite sync_log, sync_samples_decoded. repeat split.
      intros w' H. discriminate H. }
    apply negb_false_iff, andb_true_iff in Hcond as [_ Hlt].
    pose proof Hlt as Hltb. apply Z.ltb_lt in Hlt.
    specialize (Hi Hlt).
    set (ce := Z.min (i + c) sc).
    destruct (sent_world_log i ce us (sync w)) as (cb & Hlog & Hcb & _).
    rewrite sync_log in Hlog.
    pose proof (sent_world_samples_decoded i ce us (sync w)) as Hsd.
    rewrite sync_samples_decoded in Hsd.
    pose proof (callback_events_no_send cb Hcb) as Hquiet.
    destruct (send_status i ce us (sync w) =? SRD_OK) eqn:Hstatus;
      cbn [negb].
    + destruct (IH (i + c) (advanced_world ce (sent_world i ce us (sync w))))
        as (new2 & Hlog2 & Hcont2 & Hsd2 & Hclean2).
      { intros Hin. cbn. unfold ce. lia. }
      change (samples_decoded_
                (ds (advanced_world ce (sent_world i ce us (sync w)))))
        with ce in *.
      exists (new2 ++ EvSamplesDecoded (samples_decoded_ (ds w)) ce ::
                      EvSend i ce ((ce - i) * us) us
                        (send_status i ce us (sync w)) :: cb).
      assert (Hend : last_accepted_end
                (EvSamplesDecoded (samples_decoded_ (ds w)) ce ::
                 EvSend i ce ((ce - i) * us) us
                   (send_status i ce us (sync w)) :: cb)
                (samples_decoded_ (ds w)) = ce).
      { cbn [last_accepted_end]. by rewrite Hstatus. }
      split.
      { rewrite Hlog2. cbn [advanced_world log add_log upd_ds].
        rewrite Hlog, Hsd. by rewrite <- app_assoc. }
      split.
      { apply contiguous_app; [|by rewrite Hend].
        cbn [contiguous]. split; [|by apply contiguous_quiet].
        by rewrite (no_send_accepted_end cb). }
      split; [by rewrite last_accepted_end_app, Hend|].
      intros w' Hw' Hint Hempty. rewrite Hltb.
      rewrite (Hclean2 w' Hw' Hint Hempty).
      destruct (Z.ltb_spec (i + c) sc); [reflexivity|]. unfold ce. lia.
    + exists (EvSend i ce ((ce - i) * us) us (send_status i ce us (sync w))
                :: cb).
      cbn [final ds log upd_ds contiguous last_accepted_end].
      change (samples_decoded_ (set_error_message ?m ?d))
        with (samples_decoded_ d).
      rewrite Hlog, Hsd, Hstatus, (no_send_accepted_end cb) by exact Hquiet.
      split; [reflexivity|].
      split; [split; [by rewrite Hi|by apply contiguous_quiet]|].
      split; [reflexivity|].
      intros w' Hw' _ Hempty. inversion Hw'; subst w'. discriminate Hempty.
Qed.

Lemma decode_data_contiguous (fuel : nat) (abs sc us : Z) (w : World) :
  (abs < sc -> samples_decoded_ (ds w) = abs) ->
  exists new,
    log (final (decode_data fuel abs sc us w)) = new ++ log w /\
    contiguous new (samples_decoded_ (ds w)) /\
    samples_decoded_ (ds (final (decode_data fuel abs sc us w))) =
      last_accepted_end new (samples_decoded_ (ds w)) /\
    forall w',
      decode_data fuel abs sc us w = Ok tt w' ->
      interrupt_ (ds w') = false ->
      isEmpty (error_message_ (ds w')) = true ->
      samples_decoded_ (ds w') =
        if abs <? sc then sc else samples_decoded_ (ds w).
Proof.
  intros Habs. rewrite decode_data_eq.
  destruct (segment_ (ds w)) as [seg|].
  2:{ exists []. cbn. repeat split. intros w' H. discriminate H. }
  destruct (unit_size_of seg =? 0).
  { exists []. cbn. repeat split. intros w' H. discriminate H. }
  apply decode_data_loop_contiguous;
    auto using chunk_sample_count_nonneg.
Qed.

Lemma decode_rounds_contiguous (fuel : nat) (abs sc us : Z) (w : World) :
  samples_decoded_ (ds w) = abs -> abs <= sc ->
  exists new,
    log (final (decode_rounds fuel abs sc us w)) = new ++ log w /\
    contiguous new (samples_decoded_ (ds w)) /\
    samples_decoded_ (ds (final (decode_rounds fuel abs sc us w))) =
      last_accepted_end new (samples_decoded_ (ds w)).
Proof.
  revert abs sc w. induction fuel as [|fuel IH]; intros abs sc w Habs Hsc.
  - exists []. cbn. repeat split.
  - rewrite decode_rounds_S.
    destruct (decode_data_contiguous fuel abs sc us w (fun _ => Habs))
      as (new1 & Hlog1 & Hcont1 & Hsd1 & Hclean).
    destruct (decode_data fuel abs sc us w) as [[] w1|s w1];
      cbn [final] in *; [|by exists new1].
    destruct (isEmpty (error_message_ (ds w1))) eqn:Hempty;
      [|by exists new1].
    destruct (wait_for_data_final fuel w1) as [n Hn].
    pose proof (observed_preserves (fun w0 => log w0) sync_log n w1) as Hwl.
    pose proof (observed_preserves (fun w0 => samples_decoded_ (ds w0))
                  sync_samples_decoded n w1) as Hws.
    cbn beta in Hwl, Hws. rewrite <- Hn in Hwl, Hws.
    destruct (wait_for_data fuel w1) as [[sc'|] w2|s w2] eqn:Hwait;
      cbn [final] in *.
    2,3: exists new1; by rewrite Hwl, Hws.
    apply wait_for_data_some in Hwait as (_ & Hlt & Hint2).
    assert (Hint1 : interrupt_ (ds w1) = false).
    { destruct (interrupt_ (ds w1)) eqn:Hint; [|reflexivity].
      pose proof (observed_interrupt_raised n w1 Hint) as Hraised.
      rewrite <- Hn in Hraised. congruence. }
    pose proof (Hclean w1 eq_refl Hint1 Hempty) as Hdone.
    assert (Hw2 : samples_decoded_ (ds w2) = sc).
    { rewrite Hws, Hdone. destruct (Z.ltb_spec abs sc); [reflexivity|lia]. }
    destruct (IH sc sc' w2 Hw2 ltac:(lia)) as (new2 & Hlog2 & Hcont2 & Hsd2).
    exists (new2 ++ new1).
    split; [by rewrite Hlog2, Hwl, Hlog1, app_assoc|].
    rewrite Hws, Hsd1 in Hcont2, Hsd2.
    split; [by apply contiguous_app|].
    by rewrite Hsd2, last_accepted_end_app.
Qed.

(** X14: The sample stream fed to the engine has no gap and no overlap: in a
    run that starts with nothing decoded, every feed call starts at the
    end of the last chunk the engine accepted before it, the first one at
    sample 0, whatever the capture, the engine and the other threads do
    and however the run ends. *)
Theorem feed_calls_contiguous (fuel : nat) (w : World) :
  samples_decoded_ (ds w) = 0 ->
  exists new,
    log (final (decode_proc fuel w)) = new ++ log w /\
    contiguous new 0.
Proof.
  intros Hzero. rewrite decode_proc_eq.
  destruct (segment_ (ds w)) as [seg|].
  2:{ exists [EvSessionNew]. by cbn. }
  destruct (create_decoders_spec (stack_ (ds w)) None (add_log EvSessionNew w))
    as (evs & Hevs & [[_ Hcreate]|[_ Hcreate]]); rewrite Hcreate.
  2:{ exists (EvSessionDestroy :: evs ++ [EvSessionNew]). cbn.
      split; [by rewrite <- app_assoc|].
      apply contiguous_quiet, Forall_app.
      split; [by apply inst_events_no_send|repeat constructor]. }
  set (w0 := add_logs evs (add_log EvSessionNew w)).
  set (pre := [EvSessionStart; EvCallbackAdd;
               EvMetadataSet (samplerate_ (ds (sync w0)))]
              ++ evs ++ [EvSessionNew]).
  assert (Hpre : Forall (fun e => is_send e = false) pre).
  { unfold pre. repeat constructor. apply Forall_app.
    split; [by apply inst_events_no_send|repeat constructor]. }
  assert (Hw1 : log (loop_entry w0) = pre ++ log w).
  { rewrite loop_entry_log. unfold pre, w0. cbn. by rewrite <- app_assoc. }
  assert (Hsd1 : samples_decoded_ (ds (loop_entry w0)) = 0)
    by (by rewrite loop_entry_samples_decoded).
  destruct (decode_rounds_contiguous fuel 0
              (sample_count_ (ds (loop_entry w0))) (unit_size_of seg)
              (loop_entry w0) Hsd1)
    as (new & Hlog & Hcont & _).
  { rewrite loop_entry_sample_count. lia. }
  rewrite Hsd1 in Hcont. rewrite Hw1 in Hlog.
  assert (Hall : contiguous (new ++ pre) 0).
  { apply contiguous_app; [by apply contiguous_quiet|].
    by rewrite (no_send_accepted_end pre). }
  destruct (decode_rounds fuel 0 _ (unit_size_of seg) (loop_entry w0))
    as [[] w2|s w2]; cbn [final log add_log] in *.
  - exists (EvSessionDestroy :: EvNewAnnotations :: new ++ pre).
    split; [by rewrite Hlog, app_assoc|exact Hall].
  - exists (new ++ pre). split; [by rewrite Hlog, app_assoc|exact Hall].
Qed.

End Contiguous.

Lemma feed_calls_contiguous_witness :
  samples_decoded_ (ds run_second_chunk_fails) = 0 /\
  contiguous
    (log (final (decode_proc (C := env_second_chunk_fails) 20
                   run_second_chunk_fails))) 0 /\
  length
    (sends (log (final (decode_proc (C := env_second_chunk_fails) 20
                          run_second_chunk_fails)))) = 2%nat.
Proof.
  assert (H : samples_decoded_ (ds run_second_chunk_fails) = 0)
    by reflexivity.
  split; [exact H|].
  destruct (feed_calls_contiguous (C := env_second_chunk_fails) 20
              run_second_chunk_fails H) as (new & Hlog & Hcont).
  change (log run_second_chunk_fails) with (@nil Event) in Hlog.
  rewrite app_nil_r in Hlog. rewrite Hlog.
  split; [exact Hcont|]. rewrite <- Hlog. vm_compute. reflexivity.
Defined.

(** ** Which annotations the callback keeps *)

Section Kept.
Context {C : Collaborators}.

Lemma add_class_rows_keys (decc : N) (row : Row) (classes : list Z)
    (cr : gmap (N * Z) Row) (key : N * Z) :
  is_Some (add_class_rows decc row classes cr !! key) <->
  is_Some (cr !! key) \/ exists cls, cls ∈ classes /\ key = (decc, cls).
Proof.
  unfold add_class_rows. revert cr.
  induction classes as [|cls classes IH]; intros cr; simpl.
  - split; [by left|]. intros [H|(cls & Hin & _)]; [exact H|].
    by apply not_elem_of_nil in Hin.
  - rewrite IH, lookup_insert_is_Some. split.
    + intros [[<-|[_ H]]|(cls' & Hin & ->)].
      * right. exists cls. split; [by left|reflexivity].
      * by left.
      * right. exists cls'. split; [by right|reflexivity].
    + intros [H|(cls' & Hin & ->)].
      * left. destruct (decide ((decc, cls) = key)); [by left|by right].
      * apply elem_of_cons in Hin as [->|Hin].
        -- left. by left.
        -- right. by exists cls'.
Qed.

Lemma ann_rows_class_keys (decc : N) (rows : list srd_decoder_annotation_row)
    (st : gmap Row RowData * gmap (N * Z) Row) (key : N * Z) :
  is_Some (snd (fold_left (add_ann_row decc) rows st) !! key) <->
  is_Some (snd st !! key) \/
  exists ann_row cls,
    ann_row ∈ rows /\ cls ∈ ann_classes ann_row /\ key = (decc, cls).
Proof.
  revert st. induction rows as [|r rows IH]; intros st; simpl.
  - split; [by left|]. intros [H|(r & cls & Hin & _)]; [exact H|].
    by apply not_elem_of_nil in Hin.
  - rewrite IH. unfold add_ann_row at 1. cbn [snd].
    rewrite add_class_rows_keys. split.
    + intros [[H|(cls & Hin & ->)]|(r' & cls & Hin & Hcls & ->)].
      * by left.
      * right. exists r, cls. split; [by left|done].
      * right. exists r', cls. split; [by right|done].
    + intros [H|(r' & cls & Hin & Hcls & ->)].
      * left. by left.
      * apply elem_of_cons in Hin as [->|Hin].
        -- left. right. by exists cls.
        -- right. by exists r', cls.
Qed.

Lemma decoder_class_keys (stack : list Decoder)
    (st : gmap Row RowData * gmap (N * Z) Row) (key : N * Z) :
  is_Some (snd (fold_left add_decoder_rows stack st) !! key) <->
  is_Some (snd st !! key) \/
  exists dec ann_row cls,
    dec ∈ stack /\ ann_row ∈ annotation_rows (decoder dec) /\
    cls ∈ ann_classes ann_row /\ key = (srd_addr (decoder dec), cls).
Proof.
  revert st. induction stack as [|dec rest IH]; intros st; simpl.
  - split; [by left|]. intros [H|(dec & r & cls & Hin & _)]; [exact H|].
    by apply not_elem_of_nil in Hin.
  - rewrite IH. unfold add_decoder_rows at 1. rewrite ann_rows_class_keys.
    assert (Hsnd : snd (match annotation_rows (decoder dec) with
                        | [] => (<[Row_of_decoder (srd_addr (decoder dec))
                                   := RowData_empty]> (fst st), snd st)
                        | _ :: _ => st
                        end) = snd st)
      by (destruct (annotation_rows (decoder dec)); reflexivity).
    rewrite Hsnd. split.
    + intros [[H|(r & cls & Hin & Hcls & ->)]|
              (dec' & r & cls & Hin & Hr & Hcls & ->)].
      * by left.
      * right. exists dec, r, cls. split; [by left|done].
      * right. exists dec', r, cls. split; [by right|done].
    + intros [H|(dec' & r & cls & Hin & Hr & Hcls & ->)].
      * left. by left.
      * apply elem_of_cons in Hin as [->|Hin].
        -- left. right. by exists r, cls.
        -- right. by exists dec', r, cls.
Qed.

Lemma begin_decode_class_keys (x : ThreadExit) (d : DecoderStack)
    (key : N * Z) :
  missing_required_channels (stack_ d) = false ->
  is_Some (class_rows_ (begin_decode x d) !! key) <->
  exists dec ann_row cls,
    dec ∈ stack_ d /\ ann_row ∈ annotation_rows (decoder dec) /\
    cls ∈ ann_classes ann_row /\ key = (srd_addr (decoder dec), cls).
Proof.
  intros Hmiss. rewrite begin_decode_class_rows, Hmiss, decoder_class_keys.
  cbn [snd]. rewrite lookup_empty. split.
  - intros [[? H]|H]; [discriminate|exact H].
  - intros H. by right.
Qed.

Lemma begin_decode_row_keys (x : ThreadExit) (d : DecoderStack) (row : Row) :
  missing_required_channels (stack_ d) = false ->
  is_Some (rows_ (begin_decode x d) !! row) <->
  exists dec, dec ∈ stack_ d /\ row ∈ rows_of_decoder (decoder dec).
Proof.
  intros Hmiss. rewrite begin_decode_rows, Hmiss, decoder_rows_keys.
  cbn [fst]. rewrite lookup_empty. split.
  - intros [[? H]|H]; [discriminate|exact H].
  - intros H. by right.
Qed.

(** X15: With the index [begin_decode] built, the callback stores every
    annotation of a decoder of the stack that either declares no
    annotation rows at all or lists the class of the annotation in one
    of its rows. *)
Theorem declared_annotation_is_stored
    (x : ThreadExit) (d : DecoderStack) (w : World)
    (pdata : srd_proto_data) (dec : Decoder) :
  missing_required_channels (stack_ d) = false ->
  class_rows_ (ds w) = class_rows_ (begin_decode x d) ->
  (forall row, is_Some (rows_ (ds w) !! row) <->
               is_Some (rows_ (begin_decode x d) !! row)) ->
  dec ∈ stack_ d ->
  srd_addr (decoder dec) = pd_decoder pdata ->
  (annotation_rows (decoder dec) = [] \/
   exists ann_row, ann_row ∈ annotation_rows (decoder dec) /\
                   pd_ann_class pdata ∈ ann_classes ann_row) ->
  exists row rd,
    rows_ (ds w) !! row = Some rd /\
    annotation_callback pdata w =
      Ok tt (after_push row (Annotation_of pdata) rd w).
Proof.
  intros Hmiss Hcr Hrows Hin Haddr Hdecl.
  rewrite annotation_callback_eq.
  set (row := classify (class_rows_ (ds w)) (pd_decoder pdata)
                (pd_ann_class pdata)).
  assert (Hrow : is_Some (rows_ (ds w) !! row)).
  { apply Hrows. unfold row, classify. rewrite Hcr.
    destruct (class_rows_ (begin_decode x d)
                !! (pd_decoder pdata, pd_ann_class pdata))
      as [r|] eqn:Hkey.
    - by apply (begin_decode_class_rows_resolve x d _ r Hkey).
    - apply begin_decode_row_keys; [exact Hmiss|]. exists dec.
      split; [exact Hin|]. unfold rows_of_decoder.
      destruct Hdecl as [Hnone|(ann_row & Hr & Hcls)].
      + rewrite Hnone, <- Haddr. cbn. by left.
      + exfalso.
        assert (Hsome : is_Some (class_rows_ (begin_decode x d)
                          !! (pd_decoder pdata, pd_ann_class pdata))).
        { apply begin_decode_class_keys; [exact Hmiss|].
          exists dec, ann_row, (pd_ann_class pdata).
          by rewrite Haddr. }
        rewrite Hkey in Hsome. by destruct Hsome. }
  destruct Hrow as [rd Hrd]. exists row, rd. by rewrite Hrd.
Qed.

(** X16: With the index [begin_decode] built, the callback drops every other
    annotation, that is, one whose class no decoder of the stack at the
    emitting address lists while each of them declares annotation rows
    (in particular one of a decoder that is not in the stack): it logs a
    debug message and returns, stores and counter untouched. *)
Theorem undeclared_annotation_is_dropped
    (x : ThreadExit) (d : DecoderStack) (w : World)
    (pdata : srd_proto_data) :
  missing_required_channels (stack_ d) = false ->
  class_rows_ (ds w) = class_rows_ (begin_decode x d) ->
  (forall row, is_Some (rows_ (ds w) !! row) <->
               is_Some (rows_ (begin_decode x d) !! row)) ->
  (forall dec,
     dec ∈ stack_ d -> srd_addr (decoder dec) = pd_decoder pdata ->
     annotation_rows (decoder dec) <> [] /\
     forall ann_row, ann_row ∈ annotation_rows (decoder dec) ->
                     pd_ann_class pdata ∉ ann_classes ann_row) ->
  annotation_callback pdata w =
    Ok tt (add_log (EvDebug (pd_decoder pdata) (pd_ann_class pdata)) w).
Proof.
  intros Hmiss Hcr Hrows Hundecl.
  rewrite annotation_callback_eq.
  assert (Hkey : class_rows_ (begin_decode x d)
                   !! (pd_decoder pdata, pd_ann_class pdata) = None).
  { apply eq_None_not_Some. intros Hsome.
    apply begin_decode_class_keys in Hsome
      as (dec & ann_row & cls & Hin & Hr & Hcls & Heq); [|exact Hmiss].
    inversion Heq as [[Haddr Hc]]. subst cls.
    destruct (Hundecl dec Hin (eq_sym Haddr)) as [_ Hno].
    by apply (Hno ann_row Hr). }
  unfold classify. rewrite Hcr, Hkey.
  assert (Hrow : rows_ (ds w) !! Row_of_decoder (pd_decoder pdata) = None).
  { apply eq_None_not_Some. intros Hsome. apply Hrows in Hsome.
    apply begin_decode_row_keys in Hsome as (dec & Hin & Hrow);
      [|exact Hmiss].
    unfold rows_of_decoder in Hrow. apply elem_of_app in Hrow as [Hrow|Hrow].
    - destruct (annotation_rows (decoder dec)) eqn:Hnone;
        [|by apply not_elem_of_nil in Hrow].
      apply list_elem_of_singleton in Hrow. inversion Hrow as [Haddr].
      destruct (Hundecl dec Hin (eq_sym Haddr)) as [Hne _]. by apply Hne.
    - apply list_elem_of_fmap in Hrow as (ann_row & Heq & _).
      discriminate Heq. }
  by rewrite Hrow.
Qed.

End Kept.

Lemma declared_annotation_is_stored_witness :
  exists row rd,
    rows_ (ds run_second_chunk_fails) !! row = Some rd /\
    annotation_callback (C := env_second_chunk_fails)
      (ann_of_chunk 2 5 0 8) run_second_chunk_fails =
    Ok tt (after_push (C := env_second_chunk_fails) row
             (Annotation_of (ann_of_chunk 2 5 0 8)) rd
             run_second_chunk_fails).
Proof.
  apply (declared_annotation_is_stored (C := env_second_chunk_fails)
           exit_idle (used_stack [dec_uart; dec_plain])
           run_second_chunk_fails (ann_of_chunk 2 5 0 8) dec_plain).
  - reflexivity.
  - reflexivity.
  - intros row. reflexivity.
  - apply elem_of_cons. right. apply elem_of_cons. by left.
  - reflexivity.
  - by left.
Defined.

Lemma undeclared_annotation_is_dropped_witness :
  annotation_callback (C := env_second_chunk_fails)
    (ann_of_chunk 1 7 0 8) run_second_chunk_fails =
  Ok tt (add_log (EvDebug 1 7) run_second_chunk_fails).
Proof.
  apply (undeclared_annotation_is_dropped (C := env_second_chunk_fails)
           exit_idle (used_stack [dec_uart; dec_plain])
           run_second_chunk_fails (ann_of_chunk 1 7 0 8)).
  - reflexivity.
  - reflexivity.
  - intros row. reflexivity.
  - intros dec Hin Haddr.
    apply elem_of_cons in Hin as [->|Hin].
    + split; [discriminate|]. intros ann_row Hr.
      apply list_elem_of_singleton in Hr. subst ann_row. cbn.
      intros Hcls. apply elem_of_cons in Hcls as [Hcls|Hcls];
        [discriminate|].
      apply list_elem_of_singleton in Hcls. discriminate.
    + apply list_elem_of_singleton in Hin. subst dec. discriminate Haddr.
Defined.

(** ** [remove] outside the stack, in the default build *)

Lemma remove_advance_past_end (n iter len : nat) :
  (iter <= len)%nat -> (len < iter + n)%nat ->
  remove_advance true n iter len = inl Undefined.
Proof.
  revert iter. induction n as [|n IH]; intros iter Hle Hlt; [lia|].
  cbn [remove_advance assert_in].
  destruct (Nat.eqb_spec iter len) as [->|Hne]; [reflexivity|].
  apply IH; lia.
Qed.

(** X17: In the default build, where the assertions of [remove] are
    compiled out, an index outside the stack is not rejected.  A negative
    index erases the first element, as the loop that advances the
    iterator does not run; on an empty stack, and for every index at or
    beyond the size of the stack, the iterator that is erased or advanced
    is [end()], which has no defined meaning. *)
Theorem remove_unchecked (index : Z) (s : list Decoder) :
  (index < 0 ->
   remove index s = match s with
                    | [] => inl Undefined
                    | _ :: rest => inr rest
                    end) /\
  (Z.of_nat (length s) <= index -> remove index s = inl Undefined).
Proof.
  unfold remove, NDEBUG. split.
  - intros Hneg. unfold remove_in. cbn [assert_in].
    replace (Z.to_nat index) with 0%nat by lia.
    cbn [remove_advance]. unfold erase.
    destruct s as [|dec rest]; [reflexivity|]. cbn. by rewrite drop_0.
  - intros Hbig. unfold remove_in. cbn [assert_in].
    destruct (decide (Z.to_nat index = length s)) as [Heq|Hne].
    + rewrite Heq, (remove_advance_in_range true) by lia. cbn [Nat.add].
      unfold erase. by rewrite Nat.ltb_irrefl.
    + by rewrite remove_advance_past_end by lia.
Qed.

Lemma remove_unchecked_witness :
  remove (-3) [dec_uart; dec_plain] = inr [dec_plain] /\
  remove 2 [dec_uart; dec_plain] = inl Undefined.
Proof.
  destruct (remove_unchecked (-3) [dec_uart; dec_plain]) as [Hneg _].
  destruct (remove_unchecked 2 [dec_uart; dec_plain]) as [_ Hbig].
  split; [apply Hneg; lia|apply Hbig; cbn; lia].
Defined.

(** ** Restarting, from the join to the second run *)

Section RestartRun.
Context {C : Collaborators}.

Ltac begin_decode_cases d x stack thr :=
  destruct d as [stack ? ? ? ? ? ? ? ? ? ? ? thr];
  destruct x as [? ? ? ? ?];
  destruct thr;
  cbv beta iota zeta delta
    [begin_decode add_classes join clear first_segment
     set_stack set_segment set_times set_sample_count set_frame_complete
     set_samples_decoded set_annotation_count set_error_message set_rows
     set_class_rows set_interrupt set_decode_thread
     x_rows x_error_message x_annotation_count x_samples_decoded
     x_sample_count stack_ segment_ start_time_ samplerate_ sample_count_
     frame_complete_ samples_decoded_ annotation_count_ error_message_
     rows_ class_rows_ interrupt_ decode_thread_ samples_decoded
     error_message];
  (destruct (missing_required_channels stack);
   [|destruct (fold_left add_decoder_rows stack (∅, ∅)) as [? ?];
     cbv beta iota delta [fst snd];
     (destruct (find_logic_data stack) as [data|];
      [destruct (logic_segments data) as [|? ?]|])]).

(** The join leaves no joinable thread behind and the interrupt flag
    raised; both are set again only when a new thread is started. *)
Lemma begin_decode_thread_flags (x : ThreadExit) (d : DecoderStack) :
  decode_thread_ (begin_decode x d) =
    match (if missing_required_channels (stack_ d) then None
           else first_segment (stack_ d)) with
    | Some _ => true
    | None => false
    end /\
  interrupt_ (begin_decode x d) =
    match (if missing_required_channels (stack_ d) then None
           else first_segment (stack_ d)) with
    | Some _ => false
    | None => decode_thread_ d || interrupt_ d
    end /\
  match (if missing_required_channels (stack_ d) then None
         else first_segment (stack_ d)) with
  | Some seg => segment_ (begin_decode x d) = Some seg
  | None => segment_ (begin_decode x d) = segment_ d
  end.
Proof. begin_decode_cases d x stack thr; repeat split; reflexivity. Qed.

(** The join comes before the reset: nothing of what the joined thread
    wrote is left. *)
Lemma begin_decode_forgets (x x' : ThreadExit) (d : DecoderStack) :
  begin_decode x' d = begin_decode x d.
Proof.
  destruct x' as [? ? ? ? ?].
  begin_decode_cases d x stack thr; reflexivity.
Qed.

(** When a thread is started, the object [begin_decode] leaves is
    determined by the stack alone. *)
Lemma begin_decode_of_stack (x1 x2 : ThreadExit) (d1 d2 : DecoderStack) :
  stack_ d1 = stack_ d2 ->
  decode_thread_ (begin_decode x2 d2) = true ->
  begin_decode x1 d1 = begin_decode x2 d2.
Proof.
  intros Hstack Hthr.
  destruct (begin_decode_thread_flags x2 d2) as (Hflag & _ & _).
  rewrite Hthr in Hflag. revert Hflag. clear Hthr.
  destruct d1 as [stack1 ? ? ? ? ? ? ? ? ? ? ? thr1].
  destruct d2 as [stack2 ? ? ? ? ? ? ? ? ? ? ? thr2].
  destruct x1 as [? ? ? ? ?]. destruct x2 as [? ? ? ? ?].
  cbn [stack_] in Hstack. subst stack1.
  destruct thr1, thr2;
    cbv beta iota zeta delta
      [begin_decode add_classes join clear first_segment
       set_stack set_segment set_times set_sample_count set_frame_complete
       set_samples_decoded set_annotation_count set_error_message set_rows
       set_class_rows set_interrupt set_decode_thread
       x_rows x_error_message x_annotation_count x_samples_decoded
       x_sample_count stack_ segment_ start_time_ samplerate_ sample_count_
       frame_complete_ samples_decoded_ annotation_count_ error_message_
       rows_ class_rows_ interrupt_ decode_thread_];
    (destruct (missing_required_channels stack2); [discriminate|];
     destruct (fold_left add_decoder_rows stack2 (∅, ∅)) as [? ?];
     cbv beta iota delta [fst snd];
     (destruct (find_logic_data stack2) as [data|]; [|discriminate]);
     destruct (logic_segments data) as [|? ?]; [discriminate|];
     reflexivity).
Qed.

Lemma capture_over_stays_empty : capture_over -> segment_stays_empty.
Proof.
  intros Hover t. eapply Forall_impl; [apply Hover|].
  intros e [->| ->] n Hn; discriminate Hn.
Qed.

(** A run over a segment without samples whose capture is over returns
    after its first round. *)
Lemma empty_finished_run_returns
    (d' : DecoderStack) (fuel : nat) (e : srd_session)
    (seg : LogicSegment) :
  capture_over ->
  segment_ d' = Some seg -> unit_size_of seg <> 0 ->
  Forall (fun dec => is_Some (create_decoder_inst dec)) (stack_ d') ->
  samples_decoded_ d' = 0 -> error_message_ d' = EmptyString ->
  exists w',
    decode_proc (S (S fuel)) (start_world d' Stopped 0 e) = Ok tt w'.
Proof.
  intros Hover Hseg Hus Hall Hsd Herr.
  set (w := start_world d' Stopped 0 e).
  rewrite decode_proc_eq.
  change (segment_ (ds w)) with (segment_ d'). rewrite Hseg.
  destruct (create_decoders_spec (stack_ (ds w)) None (add_log EvSessionNew w))
    as (evs & Hevs & [[_ Hcreate]|[Hex _]]).
  2:{ exfalso. apply Exists_exists in Hex as (dec & Hin & Hnone).
      rewrite Forall_forall in Hall. specialize (Hall dec Hin).
      rewrite Hnone in Hall. by destruct Hall. }
  rewrite Hcreate.
  set (w0 := add_logs evs (add_log EvSessionNew w)).
  set (w1 := loop_entry w0).
  destruct (sync_capture_over w0 Hover) as (Hcs0 & Hn0 & _).
  assert (Hcs1 : session_capture_state w1 = Stopped) by exact Hcs0.
  assert (Hn1 : segment_sample_count w1 = 0%N) by exact Hn0.
  assert (Hsc1 : sample_count_ (ds w1) = 0).
  { unfold w1. rewrite loop_entry_sample_count, Hn0. reflexivity. }
  assert (Hsd1 : samples_decoded_ (ds w1) = 0)
    by (unfold w1; by rewrite loop_entry_samples_decoded).
  assert (Herr1 : error_message_ (ds w1) = EmptyString)
    by (unfold w1; by rewrite loop_entry_error_message).
  assert (Hseg1 : segment_ (ds w1) = Some seg)
    by (unfold w1; by rewrite loop_entry_segment).
  rewrite Hsc1, decode_rounds_S, decode_data_eq, Hseg1.
  destruct (Z.eqb_spec (unit_size_of seg) 0) as [Hz|_]; [contradiction|].
  rewrite decode_data_loop_S.
  change (0 <? 0) with false. rewrite andb_false_r. cbn [negb].
  rewrite sync_error_message, Herr1. cbn [isEmpty].
  destruct (sync_capture_over w1 Hover) as (Hcs2 & Hn2 & Hsc2).
  destruct (sync_capture_over (sync w1) Hover) as (Hcs3 & Hn3 & Hsc3).
  assert (Hwait : wait_for_data (S fuel) (sync w1) =
                  Ok None (sync (sync w1))).
  { assert (Hs2 : sample_count_ (ds (sync w1)) = 0).
    { rewrite Hsc2; [by rewrite Hn1|by rewrite Hsc1, Hn1]. }
    assert (Hs3 : sample_count_ (ds (sync (sync w1))) = 0).
    { rewrite Hsc3; [by rewrite Hn2, Hn1|by rewrite Hs2, Hn2, Hn1]. }
    cbn [wait_for_data]. unfold must_wait, more_work, make_optional.
    rewrite Hcs3, Hcs2, Hcs1, Hs3, !sync_samples_decoded, Hsd1.
    cbn. by rewrite !andb_false_r. }
  rewrite Hwait. by eexists.
Qed.

(** C7, as the code has it: [begin_decode] joins the previous thread,
    if there is one, and then clears the object and sets the run up.
    The join leaves the interrupt flag raised and no joinable thread,
    and both are set again only if a new thread is started.  It comes
    before the reset: whatever the joined thread wrote, and whatever the
    previous run left behind, [sample_count_], the annotation counter,
    [frame_complete_] and [samples_decoded_] are zero or false, the
    error message is empty unless the new set-up itself fails on a
    missing channel, and the row index and the class map are the ones
    built afresh from the stack, with every store empty.  Called again
    after the thread it started has run, for however long and in whatever
    capture, it gives the object of the first call.  A run started on
    that state over a segment that has no samples, and gets none, feeds
    nothing and pushes nothing, whether the frame stays open or is
    complete at once: at any time and however it ends,
    [samples_decoded()] is 0 and no row has an annotation; and when the
    capture is over it returns after its first round. *)
Theorem begin_decode_resets (x : ThreadExit) (d : DecoderStack) :
  sample_count_ (begin_decode x d) = 0 /\
  annotation_count_ (begin_decode x d) = 0 /\
  frame_complete_ (begin_decode x d) = false /\
  samples_decoded (begin_decode x d) = 0 /\
  (if missing_required_channels (stack_ d)
   then error_message (begin_decode x d) =
        tr "One or more required channels have not been specified"%string
   else error_message (begin_decode x d) = EmptyString) /\
  (rows_ (begin_decode x d), class_rows_ (begin_decode x d)) =
    (if missing_required_channels (stack_ d) then (∅, ∅)
     else fold_left add_decoder_rows (stack_ d) (∅, ∅)) /\
  (forall row, store (rows_ (begin_decode x d)) row = []) /\
  (forall (fuel : nat) (s : capture_state) (e : srd_session),
    segment_stays_empty ->
    samples_decoded
      (ds (final (decode_proc fuel (start_world (begin_decode x d) s 0 e))))
      = 0 /\
    annotation_count_
      (ds (final (decode_proc fuel (start_world (begin_decode x d) s 0 e))))
      = 0 /\
    (forall row,
       store (rows_ (ds (final (decode_proc fuel
                                  (start_world (begin_decode x d) s 0 e)))))
         row = []) /\
    Forall (fun ev => is_send ev = false /\ is_push ev = false)
      (log (final (decode_proc fuel
                     (start_world (begin_decode x d) s 0 e))))) /\
  decode_thread_ (begin_decode x d) =
    match (if missing_required_channels (stack_ d) then None
           else first_segment (stack_ d)) with
    | Some _ => true
    | None => false
    end /\
  interrupt_ (begin_decode x d) =
    match (if missing_required_channels (stack_ d) then None
           else first_segment (stack_ d)) with
    | Some _ => false
    | None => decode_thread_ d || interrupt_ d
    end /\
  (forall x' : ThreadExit, begin_decode x' d = begin_decode x d) /\
  (forall (fuel : nat) (s : capture_state) (n : N) (e : srd_session)
          (x' : ThreadExit),
     decode_thread_ (begin_decode x d) = true ->
     begin_decode x'
       (ds (final (decode_proc fuel (start_world (begin_decode x d) s n e))))
     = begin_decode x d) /\
  (forall (fuel : nat) (e : srd_session) (seg : LogicSegment),
     capture_over ->
     segment_ (begin_decode x d) = Some seg ->
     decode_thread_ (begin_decode x d) = true ->
     unit_size_of seg <> 0 ->
     Forall (fun dec => is_Some (create_decoder_inst dec)) (stack_ d) ->
     exists w',
       decode_proc (S (S fuel)) (start_world (begin_decode x d) Stopped 0 e)
         = Ok tt w' /\
       samples_decoded (ds w') = 0 /\
       annotation_count_ (ds w') = 0 /\
       (forall row, store (rows_ (ds w')) row = []) /\
       sends (log w') = []).
Proof.
  destruct (begin_decode_counters x d) as (Hsc & Hac & Hfc & Hsd & Herr).
  pose proof (begin_decode_all_empty x d) as Hall.
  destruct (begin_decode_thread_flags x d) as (Hthr & Hint & _).
  split; [exact Hsc|]. split; [exact Hac|]. split; [exact Hfc|].
  split; [exact Hsd|]. split; [exact Herr|].
  split; [apply begin_decode_index|].
  split; [intros row; by apply all_empty_store|].
  split; [intros fuel s e Hempty; by apply empty_segment_run|].
  split; [exact Hthr|]. split; [exact Hint|].
  split; [intros x'; apply begin_decode_forgets|].
  split.
  - intros fuel s n e x' Hstarted.
    apply begin_decode_of_stack; [|exact Hstarted].
    rewrite (steps_stack (start_world (begin_decode x d) s n e))
      by apply steps_decode_proc.
    apply begin_decode_stack.
  - intros fuel e seg Hover Hseg Hstarted Hus Hinst.
    assert (Hmiss : missing_required_channels (stack_ d) = false).
    { destruct (missing_required_channels (stack_ d)); [|reflexivity].
      rewrite Hstarted in Hthr. discriminate Hthr. }
    rewrite Hmiss in Herr.
    destruct (empty_finished_run_returns (begin_decode x d) fuel e seg
                Hover Hseg Hus) as [w' Hrun].
    { by rewrite begin_decode_stack. }
    { exact Hsd. }
    { exact Herr. }
    destruct (empty_segment_run (begin_decode x d) (S (S fuel)) Stopped e
                Hsc Hac Hsd Hall (capture_over_stays_empty Hover))
      as (Hsd' & Hac' & Hst' & Hquiet).
    rewrite Hrun in Hsd', Hac', Hst', Hquiet. cbn [final] in *.
    exists w'. split; [exact Hrun|]. split; [exact Hsd'|].
    split; [exact Hac'|]. split; [exact Hst'|].
    apply no_send_sends. eapply Forall_impl; [exact Hquiet|].
    by intros ev [Hev _].
Qed.

End RestartRun.

Lemma begin_decode_resets_witness :
  segment_stays_empty (C := env_quiet) /\
  samples_decoded (begin_decode exit_idle (used_stack [dec_uart; dec_plain]))
    = 0 /\
  samples_decoded
    (ds (final (decode_proc (C := env_quiet) 10
                  (start_world (C := env_quiet)
                     (begin_decode exit_idle
                        (used_stack [dec_uart; dec_plain]))
                     Running 0 tt)))) = 0 /\
  store
    (rows_ (ds (final (decode_proc (C := env_quiet) 10
                  (start_world (C := env_quiet)
                     (begin_decode exit_idle
                        (used_stack [dec_uart; dec_plain]))
                     Running 0 tt)))))
    (Row_of_decoder 2) = [] /\
  decode_thread_ (used_stack [dec_uart; dec_unbound]) = true /\
  decode_thread_
    (begin_decode exit_idle (used_stack [dec_uart; dec_unbound])) = false /\
  interrupt_
    (begin_decode exit_idle (used_stack [dec_uart; dec_unbound])) = true /\
  begin_decode exit_idle
    (ds (final (decode_proc (C := env_complete) 5
                  (start_world (C := env_complete)
                     (begin_decode exit_idle
                        (used_stack [dec_uart; dec_plain]))
                     Stopped 1000 tt)))) =
  begin_decode exit_idle (used_stack [dec_uart; dec_plain]) /\
  exists w',
    decode_proc (C := env_complete) 2
      (start_world (C := env_complete)
         (begin_decode exit_idle (used_stack [dec_uart; dec_plain]))
         Stopped 0 tt) = Ok tt w' /\
    samples_decoded (ds w') = 0.
Proof.
  assert (H : segment_stays_empty (C := env_quiet)).
  { intros t. destruct t as [|[|[|t]]]; repeat constructor;
      intros n Hn; discriminate Hn. }
  assert (Hover : capture_over (C := env_complete)).
  { intros t. destruct t as [|t]; [|constructor].
    constructor; [by right|constructor]. }
  split; [exact H|].
  destruct (begin_decode_resets (C := env_quiet) exit_idle
              (used_stack [dec_uart; dec_plain]))
    as (_ & _ & _ & Hsd & _ & _ & _ & Hrun & _).
  split; [exact Hsd|].
  destruct (Hrun 10%nat Running tt H) as (Hsd' & _ & Hst & _).
  split; [exact Hsd'|]. split; [apply Hst|].
  destruct (begin_decode_resets (C := env_quiet) exit_idle
              (used_stack [dec_uart; dec_unbound]))
    as (_ & _ & _ & _ & _ & _ & _ & _ & Hthr & Hint & _).
  split; [reflexivity|]. split; [exact Hthr|]. split; [exact Hint|].
  destruct (begin_decode_resets (C := env_complete) exit_idle
              (used_stack [dec_uart; dec_plain]))
    as (_ & _ & _ & _ & _ & _ & _ & _ & _ & _ & _ & Hagain & Hdone).
  split; [apply Hagain; reflexivity|].
  destruct (Hdone 0%nat tt seg_one_byte Hover)
    as (w' & Hret & Hzero & _).
  - reflexivity.
  - reflexivity.
  - discriminate.
  - repeat constructor; by eexists.
  - exists w'. split; [exact Hret|exact Hzero].
Defined.

(** C7 as stated does not hold for a segment that is complete at once
    but has samples: the second run decodes it.  Restarted over a
    complete frame of 1000 samples, the thread feeds them in one chunk,
    stores the annotation the engine emits and ends with
    [samples_decoded()] = 1000. *)
Lemma restart_over_complete_segment_decodes :
  capture_over (C := env_complete) /\
  samples_decoded
    (ds (final (decode_proc (C := env_complete) 5
                  (start_world (C := env_complete)
                     (begin_decode exit_idle
                        (used_stack [dec_uart; dec_plain]))
                     Stopped 1000 tt)))) = 1000 /\
  length
    (store
       (rows_ (ds (final (decode_proc (C := env_complete) 5
                     (start_world (C := env_complete)
                        (begin_decode exit_idle
                           (used_stack [dec_uart; dec_plain]))
                        Stopped 1000 tt)))))
       (Row_of_ann_row 1 10)) = 1%nat /\
  ~ (forall (x : ThreadExit) (d : DecoderStack) (fuel : nat) (n : N),
       capture_over (C := env_complete) ->
       samples_decoded
         (ds (final (decode_proc (C := env_complete) fuel
                       (start_world (C := env_complete)
                          (begin_decode x d) Stopped n tt)))) = 0 /\
       forall row,
         store
           (rows_ (ds (final (decode_proc (C := env_complete) fuel
                         (start_world (C := env_complete)
                            (begin_decode x d) Stopped n tt))))) row = []).
Proof.
  assert (Hover : capture_over (C := env_complete)).
  { intros t. destruct t as [|t]; [|constructor].
    constructor; [by right|constructor]. }
  split; [exact Hover|]. split; [vm_compute; reflexivity|].
  split; [vm_compute; reflexivity|].
  intros H.
  destruct (H exit_idle (used_stack [dec_uart; dec_plain]) 5%nat 1000%N Hover)
    as [Hzero _].
  vm_compute in Hzero. discriminate Hzero.
Qed.
